(** * Plane/Asana reconciliation core: matching and change detection

    A shallow embedding of the algorithmic parts of the repository:

    - the task matcher ([normalizeText], [extractKeywords],
      [keywordOverlapScore], [findMatches], [fuzzySearch], [getBestMatch],
      [autoMatchAllTasks]);
    - the change-detection route ([fetchCommentCountsBatched], the [GET]
      handler that detects changes and the [POST] handler that takes
      snapshots);
    - the [DELETE] handler of the change history;
    - the [GET] handler of the auto-match route, which calls the matcher;
    - the two conversions of a description: [stripHtml] of the Plane client
      and [textToHtml] of the import from Asana.

    Conventions of the embedding.
    - A JavaScript string is a [string] of 8-bit code units.  For the
      normaliser this is exact on Latin-1 text: every code unit outside
      [A-Za-z0-9_] ends up in a white-space run.
    - A JavaScript number is the rational it denotes: a confidence is a [Q]
      that is the value of an IEEE-754 double.  A decimal constant of the
      source is the double nearest to it ([Double.lit]), and [+], [-], [*]
      and [/] return the exact result rounded to the nearest double
      ([Double.add], [Double.sub], [Double.mul], [Double.div]); comparisons,
      [Math.min] and [Math.max] are exact.  Lengths and set sizes are
      integers below 2^53 and are exact.
    - A [Set<string>] is a [gset string], a [Map<string, V>] and a database
      table keyed by its primary key are [gmap string V].
    - [null], [undefined] and an absent optional field are [None]. *)

From Stdlib Require Import Ascii String ZArith QArith Qround Qpower Qminmax Sorted.
From Stdlib Require Import Lia Lqa.
From stdpp Require Import gmap strings list pretty.

Set Warnings "-clear-no-such-hyp".

Local Open Scope string_scope.
Local Open Scope list_scope.
Local Open Scope nat_scope.

(** ** JavaScript truthiness of a nullable string *)

Definition truthy (o : option string) : bool :=
  match o with
  | Some s => negb (String.eqb s "")
  | None => false
  end.

(** ** JavaScript numbers

    The arithmetic of IEEE-754 binary64 on the values the matcher handles.
    A double is represented by the rational it denotes.  [round] sends a
    rational to the nearest number with a significand of 53 bits, a tie going
    to the even significand: it is the rounding every JavaScript operation
    applies to its exact result.  The exponent range is not modelled (no
    overflow, no subnormal numbers): the matcher divides integers below
    2^53 and multiplies numbers between 2^-53 and 100, and a sum or a
    difference of two doubles that falls in the subnormal range is exact
    anyway.  There is no NaN either: the matcher never divides by zero, see
    [Matching.ratio]. *)

Module Double.
Local Open Scope Q_scope.

Definition pow2 (e : Z) : Q := 2 ^ e.

(** Round to the nearest integer, a tie going to the even one. *)
Definition roundEven (q : Q) : Z :=
  let f := Qfloor q in
  match Qcompare (q - inject_Z f) (1 # 2) with
  | Lt => f
  | Gt => (f + 1)%Z
  | Eq => if Z.even f then f else (f + 1)%Z
  end.

(** The binary exponent of [q > 0]: the [e] with [2^e <= q < 2^(e+1)]. *)
Definition exponent (q : Q) : Z :=
  let k := (Z.log2 (Qnum q) - Z.log2 (Zpos (Qden q)))%Z in
  if Qle_bool (pow2 k) q then k else (k - 1)%Z.

(** The nearest number with a significand of 53 bits, for [q > 0]: the
    spacing of the doubles between [2^e] and [2^(e+1)] is [2^(e-52)]. *)
Definition roundPos (q : Q) : Q :=
  let ulp := pow2 (exponent q - 52) in
  inject_Z (roundEven (q / ulp)) * ulp.

Definition nearest (q : Q) : Q :=
  let q := Qred q in
  match Qnum q with
  | Z0 => 0
  | Zpos _ => roundPos q
  | Zneg _ => - roundPos (- q)
  end.

(** The nearest double, as a fraction in lowest terms. *)
Definition round (q : Q) : Q := Qred (nearest q).

(** A decimal constant of the source text. *)
Definition lit (q : Q) : Q := round q.

Definition add (x y : Q) : Q := round (x + y).
Definition sub (x y : Q) : Q := round (x - y).
Definition mul (x y : Q) : Q := round (x * y).
Definition div (x y : Q) : Q := round (x / y).

(** The greatest double below 1. *)
Definition belowOne : Q := 1 - pow2 (-53).

(** [Math.round]: the nearest integer, a tie going up; it is exact. *)
Definition mathRound (x : Q) : Z := Qfloor (x + (1 # 2)).

End Double.

Module Matching.

(** *** Data *)

Inductive MatchMethod := exact | fuzzy | description.

Record MatchCandidate := mkCandidate {
  gid : string;
  name : string;
  confidence : Q;
  matchMethod : MatchMethod;
  matchReason : option string
}.

Record MatchableTask := mkMatchable {
  mt_gid : string;
  mt_name : string;
  mt_description : option string
}.

Record SuggestedMatch := mkSuggestion {
  planeTaskId : string;
  planeTaskName : string;
  asanaTaskGid : string;
  asanaTaskName : string;
  sm_confidence : Q;
  sm_matchMethod : MatchMethod;
  sm_matchReason : string
}.

(** *** Text normaliser *)

Definition isUpper (c : ascii) : bool :=
  let n := nat_of_ascii c in ((65 <=? n) && (n <=? 90))%nat.

(** [\w] is [A-Za-z0-9_]. *)
Definition isWordChar (c : ascii) : bool :=
  let n := nat_of_ascii c in
  (((97 <=? n) && (n <=? 122)) || ((65 <=? n) && (n <=? 90))
   || ((48 <=? n) && (n <=? 57)) || (n =? 95))%nat.

(** [\s] restricted to one-byte code units: TAB, LF, VT, FF, CR, space and
    the no-break space. *)
Definition isSpace (c : ascii) : bool :=
  let n := nat_of_ascii c in
  (((9 <=? n) && (n <=? 13)) || (n =? 32) || (n =? 160))%nat.

Definition lowerChar (c : ascii) : ascii :=
  if isUpper c then ascii_of_nat (nat_of_ascii c + 32) else c.

Fixpoint toLowerCase (s : string) : string :=
  match s with
  | EmptyString => EmptyString
  | String c r => String (lowerChar c) (toLowerCase r)
  end.

(** [.replace(/[^\w\s]/g, " ")] *)
Fixpoint replacePunct (s : string) : string :=
  match s with
  | EmptyString => EmptyString
  | String c r =>
      String (if isWordChar c || isSpace c then c else " "%char) (replacePunct r)
  end.

(** [.replace(/\s+/g, " ")]: [inRun] tells that the previous code unit was
    white space, whose run has already produced its single blank. *)
Fixpoint collapseSpaces (inRun : bool) (s : string) : string :=
  match s with
  | EmptyString => EmptyString
  | String c r =>
      if isSpace c
      then (if inRun then collapseSpaces true r
            else String " " (collapseSpaces true r))
      else String c (collapseSpaces false r)
  end.

Fixpoint trimStart (s : string) : string :=
  match s with
  | EmptyString => EmptyString
  | String c r => if isSpace c then trimStart r else s
  end.

Fixpoint trimEnd (s : string) : string :=
  match s with
  | EmptyString => EmptyString
  | String c r =>
      match trimEnd r with
      | EmptyString => if isSpace c then EmptyString else String c EmptyString
      | r' => String c r'
      end
  end.

Definition trim (s : string) : string := trimEnd (trimStart s).

Definition normalizeText (text : string) : string :=
  trim (collapseSpaces false (replacePunct (toLowerCase text))).

(** [s.split(" ")]; the empty string splits into one empty word. *)
Fixpoint splitSpace (s : string) : list string :=
  match s with
  | EmptyString => [EmptyString]
  | String c r =>
      if Ascii.eqb c " " then EmptyString :: splitSpace r
      else match splitSpace r with
           | w :: ws => String c w :: ws
           | [] => [String c EmptyString]
           end
  end.

(** [s.includes(t)] *)
Fixpoint includes (s t : string) : bool :=
  String.prefix t s ||
  match s with
  | EmptyString => false
  | String _ r => includes r t
  end.

(** The length of a JavaScript string is below 2^53. *)
Definition jsString (s : string) : Prop :=
  (Z.of_nat (String.length s) < 2 ^ 53)%Z.

(** *** Keywords *)

Definition stopWords : gset string :=
  list_to_set
    ["the"; "and"; "for"; "with"; "this"; "that"; "from"; "have"; "been";
     "will"; "would"; "could"; "should"; "about"; "into"; "through"; "during";
     "before"; "after"; "above"; "below"; "between"; "under"; "again"; "further";
     "then"; "once"; "here"; "there"; "when"; "where"; "what"; "which"; "while";
     "update"; "create"; "add"; "remove"; "delete"; "change"; "make"; "need";
     "task"; "issue"; "item"; "work"; "project"].

Definition isKeyword (w : string) : bool :=
  (3 <? String.length w)%nat && negb (bool_decide (w ∈ stopWords)).

Definition extractKeywords (text : string) : gset string :=
  let words := splitSpace (normalizeText text) in
  list_to_set (List.filter isKeyword words).

(** The numbers written [overlap / union] and [shorter / longer] in the
    source: the quotient of two counts, rounded.  Where the source divides,
    the divisor is not 0: [union] counts the union of two non-empty sets, and
    [longer] is the greater length of two normalised names that differ. *)
Definition ratio (a b : nat) : Q :=
  Double.div (inject_Z (Z.of_nat a)) (inject_Z (Z.of_nat b)).

Definition keywordOverlapScore (text1 text2 : string) : Q :=
  let keywords1 := extractKeywords text1 in
  let keywords2 := extractKeywords text2 in
  if (size keywords1 =? 0)%nat || (size keywords2 =? 0)%nat then 0%Q
  else
    let overlap :=
      length (List.filter (fun kw => bool_decide (kw ∈ keywords2))
                          (elements keywords1)) in
    let union := size (keywords1 ∪ keywords2) in
    ratio overlap union.

(** *** Candidate scorer *)

(** [Math.round(x * 100)] rendered in decimal. *)
Definition percent (x : Q) : string :=
  pretty (Double.mathRound (Double.mul x (inject_Z 100))).

Definition push (candidates : list MatchCandidate) (c : MatchCandidate) :=
  candidates ++ [c].

Definition Qge_bool (x y : Q) : bool := Qle_bool y x.
Definition Qgt_bool (x y : Q) : bool := negb (Qle_bool x y).

(** One iteration of the [for (const target of targetTasks)] loop of
    [findMatches]; each [continue] of the source is the end of a branch. *)
Definition findMatches_body (sourceName : string) (sourceDescription : option string)
    (normalizedSource : string) (candidates : list MatchCandidate)
    (target : MatchableTask) : list MatchCandidate :=
  let normalizedTarget := normalizeText (mt_name target) in
  (* Stage 1 *)
  if String.eqb normalizedSource normalizedTarget then
    push candidates
      (mkCandidate (mt_gid target) (mt_name target) 1 exact
                   (Some "Exact name match"))
  else
    let stage3 (_ : unit) :=
      let nameKeywordScore := keywordOverlapScore sourceName (mt_name target) in
      if Qge_bool nameKeywordScore (Double.lit (4 # 10)) then
        push candidates
          (mkCandidate (mt_gid target) (mt_name target)
             (Qmin (Double.lit (9 # 10))
                   (Double.add nameKeywordScore (Double.lit (3 # 10)))) fuzzy
             (Some (percent nameKeywordScore +:+ "% keyword match in name")))
      else
        (* Stage 4 *)
        match sourceDescription, mt_description target with
        | Some sd, Some td =>
            if truthy (Some sd) && truthy (Some td) then
              let descKeywordScore := keywordOverlapScore sd td in
              if Qge_bool descKeywordScore (Double.lit (3 # 10)) then
                push candidates
                  (mkCandidate (mt_gid target) (mt_name target)
                     (Qmin (Double.lit (8 # 10))
                           (Double.add descKeywordScore (Double.lit (2 # 10))))
                     description
                     (Some (percent descKeywordScore +:+ "% description similarity")))
              else
                let sourceNameInDesc := keywordOverlapScore sourceName td in
                let targetNameInSourceDesc :=
                  keywordOverlapScore (mt_name target) sd in
                let crossScore := Qmax sourceNameInDesc targetNameInSourceDesc in
                if Qge_bool crossScore (Double.lit (3 # 10)) then
                  push candidates
                    (mkCandidate (mt_gid target) (mt_name target)
                       (Qmin (Double.lit (75 # 100))
                             (Double.add crossScore (Double.lit (15 # 100))))
                       description
                       (Some "Name found in description"))
                else candidates
            else candidates
        | _, _ => candidates
        end in
    (* Stage 2 *)
    if includes normalizedSource normalizedTarget
       || includes normalizedTarget normalizedSource then
      let shorter := Nat.min (String.length normalizedSource)
                             (String.length normalizedTarget) in
      let longer := Nat.max (String.length normalizedSource)
                            (String.length normalizedTarget) in
      let containmentScore := ratio shorter longer in
      if Qgt_bool containmentScore (Double.lit (5 # 10)) then
        push candidates
          (mkCandidate (mt_gid target) (mt_name target)
             (Double.add (Double.mul (Double.lit (85 # 100)) containmentScore)
                         (Double.lit (15 # 100))) fuzzy
             (Some "Name contains match"))
      else stage3 tt
    else stage3 tt.

(** [Array.prototype.sort] with the comparator [(a, b) => b.key - a.key].
    The sort is stable: an element goes before the first one the comparator
    puts after it, and behind the others. *)
Section SortDesc.
Context {A : Type} (key : A -> Q).

(** The comparator; a positive result puts [a] after [b]. *)
Definition compareDesc (a b : A) : Q := Double.sub (key b) (key a).

Fixpoint insertDesc (x : A) (l : list A) : list A :=
  match l with
  | [] => [x]
  | y :: r =>
      if Qgt_bool (compareDesc y x) 0 then x :: y :: r
      else y :: insertDesc x r
  end.

Definition sortDesc (l : list A) : list A :=
  fold_left (fun acc x => insertDesc x acc) l [].

(** [x] may stand before [y] in a list sorted by descending key. *)
Definition geKey (x y : A) : Prop := (key y <= key x)%Q.

(** The keys never increase along the list. *)
Definition descending (l : list A) : Prop :=
  forall i j x y, i < j -> l !! i = Some x -> l !! j = Some y ->
    (key y <= key x)%Q.
End SortDesc.

Definition findMatches_candidates (sourceName : string)
    (targetTasks : list MatchableTask) (sourceDescription : option string)
    : list MatchCandidate :=
  let normalizedSource := normalizeText sourceName in
  fold_left (findMatches_body sourceName sourceDescription normalizedSource)
            targetTasks [].

Definition findMatches (sourceName : string) (targetTasks : list MatchableTask)
    (threshold : Q) (sourceDescription : option string) : list MatchCandidate :=
  let candidates := findMatches_candidates sourceName targetTasks sourceDescription in
  take 5 (sortDesc confidence
            (List.filter (fun c => Qge_bool (confidence c) threshold) candidates)).

(** *** Fallback scorer, best match and greedy assignment

    Fuse.js is an external library.  Its search is a parameter: it receives
    the collection, the [threshold] option and the query, and returns result
    objects made of an [item] and an optional [score]. *)

Record PlaneTask := mkPlaneTask {
  pt_id : string;
  pt_name : string;
  pt_description : option string
}.

Record AsanaTask := mkAsanaTask {
  at_gid : string;
  at_name : string;
  at_notes : option string
}.

Definition FuseSearch : Type :=
  list MatchableTask -> Q -> string -> list (MatchableTask * option Q).

(** What is known of Fuse.js: the items it returns belong to the collection
    it was built on. *)
Definition fuse_sound (search : FuseSearch) : Prop :=
  forall coll th q r, r ∈ search coll th q -> r.1 ∈ coll.

(** [r.score || 1]: an absent score and the score [0] both give [1]. *)
Definition scoreOr1 (score : option Q) : Q :=
  match score with
  | Some x => if Qeq_bool x 0 then 1%Q else x
  | None => 1%Q
  end.

Section WithFuse.
Variable fuse : FuseSearch.

Definition fuzzySearch (query : string) (targetTasks : list MatchableTask)
    (threshold : Q) : list MatchCandidate :=
  let results := fuse targetTasks (Double.sub 1 threshold) query in
  List.map (fun r => mkCandidate (mt_gid r.1) (mt_name r.1)
                       (Double.sub 1 (scoreOr1 r.2)) fuzzy
                       (Some "Fuzzy text match"))
           (take 5 results).

(** [l.length > 0 && l[0].confidence >= minConfidence ? l[0] : nothing] *)
Definition headAbove (l : list MatchCandidate) (minConfidence : Q)
    : option MatchCandidate :=
  match l with
  | c :: _ => if Qge_bool (confidence c) minConfidence then Some c else None
  | [] => None
  end.

Definition getBestMatch (sourceName : string) (targetTasks : list MatchableTask)
    (minConfidence : Q) (sourceDescription : option string)
    : option MatchCandidate :=
  let matches := findMatches sourceName targetTasks minConfidence sourceDescription in
  match headAbove matches minConfidence with
  | Some m => Some m
  | None =>
      (* Fallback to Fuse.js fuzzy search *)
      let fuzzyMatches := fuzzySearch sourceName targetTasks minConfidence in
      headAbove fuzzyMatches minConfidence
  end.

(** [bestMatch.matchReason || "Match found"] *)
Definition reasonOr (r : option string) : string :=
  match r with
  | Some s => if String.eqb s "" then "Match found" else s
  | None => "Match found"
  end.

(** The state of the loop over [planeTasks]: the suggestions pushed so far
    and the set [usedAsanaGids]. *)
Definition autoMatch_body (matchableAsanaTasks : list MatchableTask)
    (alreadyLinkedPlaneIds : gset string) (minConfidence : Q)
    (st : list SuggestedMatch * gset string) (planeTask : PlaneTask)
    : list SuggestedMatch * gset string :=
  let '(suggestions, usedAsanaGids) := st in
  if bool_decide (pt_id planeTask ∈ alreadyLinkedPlaneIds) then st
  else
    let availableTasks :=
      List.filter (fun t => negb (bool_decide (mt_gid t ∈ usedAsanaGids)))
                  matchableAsanaTasks in
    if length availableTasks =? 0 then st
    else
      match getBestMatch (pt_name planeTask) availableTasks minConfidence
                         (pt_description planeTask) with
      | Some bestMatch =>
          (suggestions ++
             [mkSuggestion (pt_id planeTask) (pt_name planeTask)
                (gid bestMatch) (name bestMatch) (confidence bestMatch)
                (matchMethod bestMatch) (reasonOr (matchReason bestMatch))],
           {[gid bestMatch]} ∪ usedAsanaGids)
      | None => st
      end.

Definition autoMatchAllTasks (planeTasks : list PlaneTask)
    (asanaTasks : list AsanaTask)
    (alreadyLinkedPlaneIds alreadyLinkedAsanaGids : gset string)
    (minConfidence : Q) : list SuggestedMatch :=
  let matchableAsanaTasks :=
    List.map (fun t => mkMatchable (at_gid t) (at_name t) (at_notes t))
      (List.filter (fun t => negb (bool_decide (at_gid t ∈ alreadyLinkedAsanaGids)))
                   asanaTasks) in
  let '(suggestions, _) :=
    fold_left (autoMatch_body matchableAsanaTasks alreadyLinkedPlaneIds minConfidence)
              planeTasks ([], alreadyLinkedAsanaGids) in
  sortDesc sm_confidence suggestions.
End WithFuse.

(** *** The scoring rules as the specification words them

    Used only to compare [findMatches] with the rule list of the
    specification: four rules tried in order, the first that fires decides.
    The formulas of the rules are evaluated as JavaScript evaluates them, in
    double arithmetic. *)

Record Verdict := mkVerdict {
  v_confidence : Q;
  v_method : MatchMethod
}.

(** Jaccard similarity of two keyword sets. *)
Definition jaccard (a b : gset string) : Q := ratio (size (a ∩ b)) (size (a ∪ b)).

Definition similarity (text1 text2 : string) : Q :=
  jaccard (extractKeywords text1) (extractKeywords text2).

Definition present (o : option string) : bool := truthy o.

Section Rules.
Variables (sourceName : string) (sourceDescription : option string)
          (target : MatchableTask).

Definition rule_exact : option Verdict :=
  if bool_decide (normalizeText sourceName = normalizeText (mt_name target))
  then Some (mkVerdict 1 exact) else None.

Definition rule_containment : option Verdict :=
  let s := normalizeText sourceName in
  let t := normalizeText (mt_name target) in
  let r := ratio (Nat.min (String.length s) (String.length t))
                 (Nat.max (String.length s) (String.length t)) in
  if (includes s t || includes t s) && Qgt_bool r (Double.lit (5 # 10))
  then Some (mkVerdict (Double.add (Double.mul (Double.lit (85 # 100)) r)
                              (Double.lit (15 # 100))) fuzzy) else None.

Definition rule_name_keywords : option Verdict :=
  let sim := similarity sourceName (mt_name target) in
  if Qge_bool sim (Double.lit (4 # 10))
  then Some (mkVerdict (Qmin (Double.lit (9 # 10))
                             (Double.add sim (Double.lit (3 # 10)))) fuzzy) else None.

Definition rule_description : option Verdict :=
  if present sourceDescription && present (mt_description target) then
    let sd := default "" sourceDescription in
    let td := default "" (mt_description target) in
    let sim := similarity sd td in
    if Qge_bool sim (Double.lit (3 # 10))
    then Some (mkVerdict (Qmin (Double.lit (8 # 10))
                               (Double.add sim (Double.lit (2 # 10))))
                         description)
    else
      let cross := Qmax (similarity sourceName td)
                        (similarity (mt_name target) sd) in
      if Qge_bool cross (Double.lit (3 # 10))
      then Some (mkVerdict (Qmin (Double.lit (75 # 100))
                                 (Double.add cross (Double.lit (15 # 100))))
                           description)
      else None
  else None.

(** The first rule of the list that fires. *)
Fixpoint firstFiring (rules : list (option Verdict)) : option Verdict :=
  match rules with
  | [] => None
  | Some v :: _ => Some v
  | None :: rest => firstFiring rest
  end.

Definition spec_verdict : option Verdict :=
  firstFiring [rule_exact; rule_containment; rule_name_keywords; rule_description].
End Rules.

(** A candidate carries the verdict [v] for the target [t]. *)
Definition carries (c : MatchCandidate) (tv : MatchableTask * Verdict) : Prop :=
  gid c = mt_gid tv.1 /\ name c = mt_name tv.1 /\
  (confidence c == v_confidence tv.2)%Q /\ matchMethod c = v_method tv.2.

(** *** Worked inputs *)

Definition loginTargets : list MatchableTask :=
  [mkMatchable "a1" "Fix login bug" None;
   mkMatchable "a2" "Update login page" None;
   mkMatchable "a3" "Bug: login crash" None].

(** Two targets whose names share three keywords out of five, and four out
    of six, with "alpha bravo charlie delta". *)
Definition alphaTargets : list MatchableTask :=
  [mkMatchable "a" "alpha bravo charlie zulu" None;
   mkMatchable "b" "yankee alpha bravo charlie xray delta" None].

(** A Fuse.js stand-in that finds nothing. *)
Definition fuseNothing : FuseSearch := fun _ _ _ => [].

(** A Fuse.js stand-in that returns every item with score 1/4. *)
Definition fuseEverything : FuseSearch :=
  fun coll _ _ => (fun t => (t, Some (1 # 4)%Q)) <$> coll.

Definition somePlaneTasks : list PlaneTask :=
  [mkPlaneTask "p1" "Ship it now" None; mkPlaneTask "p2" "Write release letter" None].

Definition twinPlaneTasks : list PlaneTask :=
  [mkPlaneTask "p1" "Ship it now" None; mkPlaneTask "p1" "Ship it now" None].

Definition twinAsanaTasks : list AsanaTask :=
  [mkAsanaTask "a1" "Ship it now" None; mkAsanaTask "a2" "ship it now" None].

End Matching.

(** ** Change detection *)

Module Changes.

(** *** Remote records and database rows *)

Inductive Source := plane | asana.

#[global] Instance Source_eq_dec : EqDecision Source.
Proof. solve_decision. Defined.

Record PlaneIssue := mkPlaneIssue {
  pi_id : string;
  pi_name : string;
  description_stripped : option string;
  state_detail_name : option string;   (* [state_detail?.name] *)
  updated_at : option Z                (* milliseconds; [None] when falsy *)
}.

Record AsanaTask := mkAsanaTask {
  at_gid : string;
  at_name : string;
  notes : option string;
  completed : bool;
  modified_at : option Z
}.

Record ProjectMapping := mkProjectMapping {
  planeProjectId : string;
  asanaProjectGid : string;
  asanaSectionName : option string
}.

(** A row of [TaskMapping]; its primary key [id] is the key of the table. *)
Record TaskMapping := mkTaskMapping {
  projectMappingId : string;
  planeIssueId : option string;
  asanaTaskGid : option string
}.

(** A row of [TaskSnapshot]; the table is keyed by [taskMappingId], on which
    the schema puts a unique index. *)
Record TaskSnapshot := mkTaskSnapshot {
  planeName : option string;
  planeDescription : option string;
  planeState : option string;
  planeModifiedAt : option Z;
  planeCommentsCount : option nat;
  asanaName : option string;
  asanaDescription : option string;
  asanaCompleted : option bool;
  asanaModifiedAt : option Z;
  asanaCommentsCount : option nat
}.

Record Change := mkChange {
  taskMappingId : string;
  c_planeIssueId : option string;
  planeIssueName : option string;
  c_asanaTaskGid : option string;
  asanaTaskName : option string;
  field : string;
  oldValue : option string;
  newValue : option string;
  source : Source;
  changedAt : option Z
}.

Record ChangeLogRow := mkChangeLogRow {
  log_projectMappingId : string;
  log_change : Change
}.

Record DB := mkDB {
  projectMapping : gmap string ProjectMapping;
  taskMapping : gmap string TaskMapping;
  taskSnapshot : gmap string TaskSnapshot;
  changeLog : list ChangeLogRow
}.

(** The two remote systems as seen during one request: what each call
    answers while one handler runs.  Another request, even one that follows
    at once, has a [Remote] of its own, since a call that failed may succeed
    the next time.  A listing that throws is [None]; [listComments] and
    [listTaskStories] give the length of the list they resolve to, or [None]
    when the promise rejects.  The two [latency] fields give the time a
    comment request takes to settle and [now] is the reading of
    [new Date()]. *)
Record Remote := mkRemote {
  listIssues : string -> option (list PlaneIssue);
  listTasks : string -> option string -> option (list AsanaTask);
  listComments : string -> string -> option nat;
  listTaskStories : string -> option nat;
  planeLatency : string -> nat;
  asanaLatency : string -> nat;
  now : Z
}.

(** *** Batched comment fetcher *)

Definition BATCH_SIZE : nat := 3.
Definition BATCH_DELAY : nat := 1500.

Record Task := mkTask {
  t_planeIssueId : option string;
  t_asanaTaskGid : option string
}.

Record OnlyModified := mkOnlyModified {
  planeIds : gset string;
  asanaIds : gset string
}.

(** A comment request as it was issued: the loop index [i] of its batch, the
    side and identifier, the time it started and the time it settled. *)
Record Request := mkRequest {
  rq_batch : nat;
  rq_source : Source;
  rq_id : string;
  rq_start : nat;
  rq_settle : nat
}.

(** The state of one call of the fetcher.  [planeComments] and
    [asanaComments] are the two maps of the source; [clock] (milliseconds
    since the call) and [requests] (the log of the requests issued so far)
    record how the call unfolds in time and are read by no code. *)
Record FetchState := mkFetchState {
  planeComments : gmap string nat;
  asanaComments : gmap string nat;
  clock : nat;
  requests : list Request
}.

(** [id && set.has(id)] *)
Definition inSet (o : option string) (ids : gset string) : bool :=
  truthy o && bool_decide (default "" o ∈ ids).

(** [id && (!onlyModified || set.has(id))] *)
Definition wanted (o : option string) (sel : option (gset string)) : bool :=
  truthy o &&
  match sel with
  | None => true
  | Some ids => bool_decide (default "" o ∈ ids)
  end.

Section Fetch.
Variable remote : Remote.
Variable projectId : string.
Variable onlyModified : option OnlyModified.

Definition tasksToFetch (tasks : list Task) : list Task :=
  match onlyModified with
  | Some om =>
      List.filter (fun t => inSet (t_planeIssueId t) (planeIds om)
                            || inSet (t_asanaTaskGid t) (asanaIds om)) tasks
  | None => tasks
  end.

(** The promises one task of a batch contributes, in the order in which
    they are created. *)
Definition fetches (t : Task) : list (Source * string) :=
  (if wanted (t_planeIssueId t) (planeIds <$> onlyModified)
   then [(plane, default "" (t_planeIssueId t))] else [])
  ++
  (if wanted (t_asanaTaskGid t) (asanaIds <$> onlyModified)
   then [(asana, default "" (t_asanaTaskGid t))] else []).

Definition latency (p : Source * string) : nat :=
  match p.1 with
  | plane => planeLatency remote p.2
  | asana => asanaLatency remote p.2
  end.

(** The [.then] and the [.catch] handler of one promise: the count on
    success, [0] on failure. *)
Definition settle (st : FetchState) (p : Source * string) : FetchState :=
  match p.1 with
  | plane =>
      mkFetchState
        (<[p.2 := default 0 (listComments remote projectId p.2)]> (planeComments st))
        (asanaComments st) (clock st) (requests st)
  | asana =>
      mkFetchState
        (planeComments st)
        (<[p.2 := default 0 (listTaskStories remote p.2)]> (asanaComments st))
        (clock st) (requests st)
  end.

(** [await Promise.all(promises)]: every promise starts at the current
    time and the wait ends when the slowest has settled. *)
Definition awaitAll (i : nat) (promises : list (Source * string))
    (st : FetchState) : FetchState :=
  let start := clock st in
  let st' := fold_left settle promises st in
  mkFetchState (planeComments st') (asanaComments st')
    (start + max_list (latency <$> promises))
    (requests st ++
       ((fun p => mkRequest i p.1 p.2 start (start + latency p)) <$> promises)).

Definition delay (ms : nat) (st : FetchState) : FetchState :=
  mkFetchState (planeComments st) (asanaComments st) (clock st + ms) (requests st).

(** The [for (let i = 0; i < tasksToFetch.length; i += BATCH_SIZE)] loop.
    [fuel] bounds the number of iterations. *)
Fixpoint fetchLoop (fuel : nat) (toFetch : list Task) (i : nat)
    (st : FetchState) : FetchState :=
  match fuel with
  | O => st
  | S fuel' =>
      if i <? length toFetch then
        let batch := take BATCH_SIZE (drop i toFetch) in
        let promises := flat_map fetches batch in
        let st1 := awaitAll i promises st in
        let st2 := if i + BATCH_SIZE <? length toFetch
                   then delay BATCH_DELAY st1 else st1 in
        fetchLoop fuel' toFetch (i + BATCH_SIZE) st2
      else st
  end.

(** The clock counts the milliseconds since the call; one unit of fuel
    per task is enough for the loop to reach its exit test. *)
Definition fetchCommentCountsBatched (tasks : list Task) : FetchState :=
  let toFetch := tasksToFetch tasks in
  fetchLoop (length toFetch) toFetch 0 (mkFetchState ∅ ∅ 0 []).

(** The count a request for [x] ends up recording. *)
Definition planeCount (x : string) : nat := default 0 (listComments remote projectId x).
Definition asanaCount (x : string) : nat := default 0 (listTaskStories remote x).

(** The state reached once the tasks of [done] have been handled. *)
Definition countsFor (done : list Task) (st : FetchState) : Prop :=
  (forall x, planeComments st !! x
             = if decide ((plane, x) ∈ flat_map fetches done)
               then Some (planeCount x) else None)
  /\ (forall x, asanaComments st !! x
                = if decide ((asana, x) ∈ flat_map fetches done)
                  then Some (asanaCount x) else None)
  /\ (fun r => (rq_source r, rq_id r)) <$> requests st
     = flat_map fetches done.
End Fetch.

(** The pacing of a request log: at most [2 * BATCH_SIZE] requests per batch
    and [BATCH_SIZE] per side, a duration that is not negative, one start
    time per batch, and [BATCH_DELAY] between the end of a batch and the
    start of any later one. *)
Definition paced (reqs : list Request) : Prop :=
  (forall i, length (filter (fun r => rq_batch r = i) reqs) <= 2 * BATCH_SIZE)
  /\ (forall i src,
        length (filter (fun r => rq_batch r = i /\ rq_source r = src) reqs)
        <= BATCH_SIZE)
  /\ (forall r, r ∈ reqs -> rq_start r <= rq_settle r)
  /\ (forall r1 r2, r1 ∈ reqs -> r2 ∈ reqs -> rq_batch r1 = rq_batch r2 ->
        rq_start r1 = rq_start r2)
  /\ (forall r1 r2, r1 ∈ reqs -> r2 ∈ reqs -> rq_batch r1 < rq_batch r2 ->
        rq_settle r1 + BATCH_DELAY <= rq_start r2).

(** At the head of the iteration [i]: every earlier request belongs to an
    earlier batch and settled at least [BATCH_DELAY] ago. *)
Definition rested (i : nat) (st : FetchState) : Prop :=
  forall r, r ∈ requests st ->
    rq_batch r < i /\ rq_settle r + BATCH_DELAY <= clock st.

(** *** Route handlers *)

Inductive Response (A : Type) :=
  | NotFound            (* 404, "Mapping not found" *)
  | ServerError         (* 500, the [catch] branch *)
  | Ok (body : A).
Arguments NotFound {A}.
Arguments ServerError {A}.
Arguments Ok {A} body.

Record Summary := mkSummary {
  sum_planeChanges : nat;
  sum_asanaChanges : nat;
  totalLinked : nat;
  missing : option nat;
  logged : option nat
}.

Record DetectResult := mkDetectResult {
  planeChanges : list Change;
  asanaChanges : list Change;
  summary : Summary
}.

Record SnapshotResult := mkSnapshotResult {
  message : string;
  snapshotCount : nat;
  missingCount : nat
}.

(** A row returned by [taskMapping.findMany], with the snapshot that
    [include: { snapshot: true }] attaches to it. *)
Record LinkedTask := mkLinkedTask {
  tm_id : string;
  tm_planeIssueId : option string;
  tm_asanaTaskGid : option string;
  tm_snapshot : option TaskSnapshot
}.

Definition isLinkedRow (mappingId : string) (kv : string * TaskMapping) : bool :=
  String.eqb (projectMappingId kv.2) mappingId
  && bool_decide (is_Some (planeIssueId kv.2))
  && bool_decide (is_Some (asanaTaskGid kv.2)).

Definition findLinked (db : DB) (mappingId : string) : list LinkedTask :=
  (fun kv => mkLinkedTask kv.1 (planeIssueId kv.2) (asanaTaskGid kv.2)
               (taskSnapshot db !! kv.1))
  <$> List.filter (isLinkedRow mappingId) (map_to_list (taskMapping db)).

(** [new Map(items.map(x => [key(x), x]))]: a later entry replaces an
    earlier one with the same key. *)
Definition mapBy {A} (key : A -> string) (items : list A) : gmap string A :=
  fold_left (fun m x => <[key x := x]> m) items ∅.

(** [x || null] and [x || ""] on a nullable string. *)
Definition orNull (o : option string) : option string :=
  if truthy o then o else None.
Definition orEmpty (o : option string) : string := default "" o.

Definition toTask (tm : LinkedTask) : Task :=
  mkTask (tm_planeIssueId tm) (tm_asanaTaskGid tm).

Definition planeModified (planeIssue : PlaneIssue) (snapshot : TaskSnapshot) : bool :=
  match updated_at planeIssue, planeModifiedAt snapshot with
  | Some live, Some snap => (snap <? live)%Z
  | _, _ => true
  end.

(** [s.substring(0, 100) + (s.length > 100 ? "..." : "")] *)
Definition excerpt (s : string) : string :=
  String.substring 0 100 s +:+ (if 100 <? String.length s then "..." else "").

(** The template [`${n} comments`]. *)
Definition commentsText (n : option nat) : string :=
  match n with
  | Some k => pretty k +:+ " comments"
  | None => "null comments"
  end.

Definition snapshotOf (planeIssue : PlaneIssue) (asanaTask : AsanaTask)
    (planeCount asanaCount : nat) : TaskSnapshot :=
  mkTaskSnapshot
    (Some (pi_name planeIssue))
    (Some (orEmpty (description_stripped planeIssue)))
    (orNull (state_detail_name planeIssue))
    (updated_at planeIssue)
    (Some planeCount)
    (Some (at_name asanaTask))
    (Some (orEmpty (notes asanaTask)))
    (Some (completed asanaTask))
    (modified_at asanaTask)
    (Some asanaCount).

Definition emptyCounts : FetchState := mkFetchState ∅ ∅ 0 [].

Section Detect.
Variable remote : Remote.
Variable planeIssueMap : gmap string PlaneIssue.
Variable asanaTaskMap : gmap string AsanaTask.

(** The first pass of [GET]: which identifiers need their comments
    fetched.  The state is [(modifiedPlaneIds, asanaIdsToCheck)]. *)
Definition firstPass_body (st : gset string * gset string) (tm : LinkedTask)
    : gset string * gset string :=
  if negb (truthy (tm_planeIssueId tm)) || negb (truthy (tm_asanaTaskGid tm))
  then st
  else
    match planeIssueMap !! orEmpty (tm_planeIssueId tm),
          asanaTaskMap !! orEmpty (tm_asanaTaskGid tm) with
    | Some planeIssue, Some asanaTask =>
        match tm_snapshot tm with
        | Some snapshot =>
            let st1 :=
              if planeModified planeIssue snapshot
              then ({[orEmpty (tm_planeIssueId tm)]} ∪ st.1, st.2) else st in
            if bool_decide (asanaCommentsCount snapshot ≠ None)
            then (st1.1, {[orEmpty (tm_asanaTaskGid tm)]} ∪ st1.2) else st1
        | None => st
        end
    | _, _ => st
    end.

Definition firstPass (taskMappings : list LinkedTask) : gset string * gset string :=
  fold_left firstPass_body taskMappings (∅, ∅).

(** The comment counts [GET] works with: fetched for the identifiers of the
    first pass, or two empty maps when the first pass selects nothing. *)
Definition fetchModified (projectId : string) (taskMappings : list LinkedTask)
    : FetchState :=
  let '(modifiedPlaneIds, asanaIdsToCheck) := firstPass taskMappings in
  if (0 <? size modifiedPlaneIds) || (0 <? size asanaIdsToCheck)
  then fetchCommentCountsBatched remote projectId
         (Some (mkOnlyModified modifiedPlaneIds asanaIdsToCheck))
         (toTask <$> taskMappings)
  else emptyCounts.

Variable commentCounts : FetchState.

(** The changes the second pass pushes for one present pair that has a
    snapshot: those of the Plane side and those of the Asana side. *)
Definition planeDiff (createChange : string -> option string -> option string ->
                                     Source -> option Z -> Change)
    (tm : LinkedTask) (planeIssue : PlaneIssue) (snapshot : TaskSnapshot)
    : list Change :=
  (if bool_decide (planeName snapshot ≠ Some (pi_name planeIssue))
   then [createChange "name" (planeName snapshot) (Some (pi_name planeIssue))
           plane (updated_at planeIssue)] else [])
  ++
  (let currentPlaneDesc := orEmpty (description_stripped planeIssue) in
   let snapshotPlaneDesc := orEmpty (planeDescription snapshot) in
   if bool_decide (snapshotPlaneDesc ≠ currentPlaneDesc)
   then [createChange "description" (Some (excerpt snapshotPlaneDesc))
           (Some (excerpt currentPlaneDesc)) plane (updated_at planeIssue)]
   else [])
  ++
  (let currentState := orNull (state_detail_name planeIssue) in
   if bool_decide (planeState snapshot ≠ currentState)
   then [createChange "state" (planeState snapshot) currentState
           plane (updated_at planeIssue)] else [])
  ++
  (match planeComments commentCounts !! orEmpty (tm_planeIssueId tm) with
   | Some currentPlaneComments =>
       if bool_decide (planeCommentsCount snapshot ≠ Some currentPlaneComments)
       then [createChange "comments"
               (Some (commentsText (planeCommentsCount snapshot)))
               (Some (commentsText (Some currentPlaneComments)))
               plane (updated_at planeIssue)] else []
   | None => []
   end).

Definition completedText (b : option bool) : string :=
  if default false b then "Completed" else "Open".

Definition asanaDiff (createChange : string -> option string -> option string ->
                                     Source -> option Z -> Change)
    (tm : LinkedTask) (asanaTask : AsanaTask) (snapshot : TaskSnapshot)
    : list Change :=
  (if bool_decide (asanaName snapshot ≠ Some (at_name asanaTask))
   then [createChange "name" (asanaName snapshot) (Some (at_name asanaTask))
           asana (modified_at asanaTask)] else [])
  ++
  (let currentAsanaDesc := orEmpty (notes asanaTask) in
   let snapshotAsanaDesc := orEmpty (asanaDescription snapshot) in
   if bool_decide (snapshotAsanaDesc ≠ currentAsanaDesc)
   then [createChange "description" (Some (excerpt snapshotAsanaDesc))
           (Some (excerpt currentAsanaDesc)) asana (modified_at asanaTask)]
   else [])
  ++
  (if bool_decide (asanaCompleted snapshot ≠ Some (completed asanaTask))
   then [createChange "completed" (Some (completedText (asanaCompleted snapshot)))
           (Some (completedText (Some (completed asanaTask))))
           asana (modified_at asanaTask)] else [])
  ++
  (match asanaComments commentCounts !! orEmpty (tm_asanaTaskGid tm) with
   | Some currentAsanaComments =>
       if bool_decide (asanaCommentsCount snapshot ≠ Some currentAsanaComments)
       then [createChange "comments"
               (Some (commentsText (asanaCommentsCount snapshot)))
               (Some (commentsText (Some currentAsanaComments)))
               asana (modified_at asanaTask)] else []
   | None => []
   end).

(** One iteration of the second loop of [GET]; the state is
    [(planeChanges, asanaChanges, missingCount)]. *)
Definition detect_body (st : list Change * list Change * nat) (tm : LinkedTask)
    : list Change * list Change * nat :=
  let '(planeChanges, asanaChanges, missingCount) := st in
  if negb (truthy (tm_planeIssueId tm)) || negb (truthy (tm_asanaTaskGid tm))
  then st
  else
    match planeIssueMap !! orEmpty (tm_planeIssueId tm),
          asanaTaskMap !! orEmpty (tm_asanaTaskGid tm) with
    | Some planeIssue, Some asanaTask =>
        let createChange field oldValue newValue source changedAt :=
          mkChange (tm_id tm) (tm_planeIssueId tm) (Some (pi_name planeIssue))
            (tm_asanaTaskGid tm) (Some (at_name asanaTask))
            field oldValue newValue source changedAt in
        match tm_snapshot tm with
        | Some snapshot =>
            (planeChanges ++ planeDiff createChange tm planeIssue snapshot,
             asanaChanges ++ asanaDiff createChange tm asanaTask snapshot,
             missingCount)
        | None =>
            (planeChanges ++
               [createChange "new" None
                  (Some "New linked task - click Take Snapshot to start tracking")
                  plane (Some (now remote))],
             asanaChanges, missingCount)
        end
    | _, _ => (planeChanges, asanaChanges, S missingCount)
    end.

(** [x ?? y ?? 0] for a fetched count and the stored one. *)
Definition countOr (fetched : option nat) (snapshot : option TaskSnapshot)
    (proj : TaskSnapshot -> option nat) : nat :=
  match fetched with
  | Some n => n
  | None => default 0 (snapshot ≫= proj)
  end.

(** One iteration of [for (const taskId of changedTaskIds)]. *)
Definition update_body (taskMappings : list LinkedTask)
    (snapshots : gmap string TaskSnapshot) (taskId : string)
    : gmap string TaskSnapshot :=
  match List.find (fun t => String.eqb (tm_id t) taskId) taskMappings with
  | Some tm =>
      if negb (truthy (tm_planeIssueId tm)) || negb (truthy (tm_asanaTaskGid tm))
      then snapshots
      else
        match planeIssueMap !! orEmpty (tm_planeIssueId tm),
              asanaTaskMap !! orEmpty (tm_asanaTaskGid tm) with
        | Some planeIssue, Some asanaTask =>
            let planeCommentsCount :=
              countOr (planeComments commentCounts !! orEmpty (tm_planeIssueId tm))
                      (tm_snapshot tm) planeCommentsCount in
            let asanaCommentsCount :=
              countOr (asanaComments commentCounts !! orEmpty (tm_asanaTaskGid tm))
                      (tm_snapshot tm) asanaCommentsCount in
            <[taskId := snapshotOf planeIssue asanaTask
                          planeCommentsCount asanaCommentsCount]> snapshots
        | _, _ => snapshots
        end
  | None => snapshots
  end.
End Detect.

(** [new Set(xs)] iterated in insertion order. *)
Definition distinct (xs : list string) : list string :=
  fold_left (fun acc x => if bool_decide (x ∈ acc) then acc else acc ++ [x]) xs [].

(** The body of [GET] once the mapping, the linked pairs and the two live
    listings are at hand: what the specification calls [detectChanges]. *)
Definition detectChanges (remote : Remote) (db : DB) (mappingId : string)
    (mapping : ProjectMapping) (taskMappings : list LinkedTask)
    (planeIssues : list PlaneIssue) (asanaTasks : list AsanaTask)
    : DetectResult * DB :=
  let planeIssueMap := mapBy pi_id planeIssues in
  let asanaTaskMap := mapBy at_gid asanaTasks in
  let commentCounts :=
    fetchModified remote planeIssueMap asanaTaskMap
                  (planeProjectId mapping) taskMappings in
  let '(planeChanges, asanaChanges, missingCount) :=
    fold_left (detect_body remote planeIssueMap asanaTaskMap commentCounts)
              taskMappings ([], [], 0) in
  (* Save all detected changes to the log (excluding "new" entries) *)
  let allChanges :=
    List.filter (fun c => negb (String.eqb (field c) "new"))
                (planeChanges ++ asanaChanges) in
  let db' :=
    if 0 <? length allChanges then
      let changedTaskIds := distinct (taskMappingId <$> allChanges) in
      mkDB (projectMapping db) (taskMapping db)
        (fold_left (update_body planeIssueMap asanaTaskMap commentCounts
                                taskMappings)
                   changedTaskIds (taskSnapshot db))
        (changeLog db ++ (mkChangeLogRow mappingId <$> allChanges))
    else db in
  (mkDetectResult planeChanges asanaChanges
     (mkSummary (length planeChanges) (length asanaChanges)
        (length taskMappings) (Some missingCount)
        (Some (length allChanges))),
   db').

(** [GET /api/mappings/[mappingId]/changes]: detect the changes since the
    last snapshot. *)
Definition GET (remote : Remote) (db : DB) (mappingId : string)
    : Response DetectResult * DB :=
  match projectMapping db !! mappingId with
  | None => (NotFound, db)
  | Some mapping =>
      let taskMappings := findLinked db mappingId in
      if length taskMappings =? 0 then
        (Ok (mkDetectResult [] [] (mkSummary 0 0 0 None None)), db)
      else
        match listIssues remote (planeProjectId mapping),
              listTasks remote (asanaProjectGid mapping)
                        (orNull (asanaSectionName mapping)) with
        | Some planeIssues, Some asanaTasks =>
            let '(body, db') :=
              detectChanges remote db mappingId mapping taskMappings
                            planeIssues asanaTasks in
            (Ok body, db')
        | _, _ => (ServerError, db)
        end
  end.

(** One iteration of the loop of [POST]; the state is
    [(snapshots, snapshotCount, missingCount)]. *)
Definition snapshot_body (planeIssueMap : gmap string PlaneIssue)
    (asanaTaskMap : gmap string AsanaTask) (commentCounts : FetchState)
    (st : gmap string TaskSnapshot * nat * nat) (tm : LinkedTask)
    : gmap string TaskSnapshot * nat * nat :=
  let '(snapshots, snapshotCount, missingCount) := st in
  if negb (truthy (tm_planeIssueId tm)) || negb (truthy (tm_asanaTaskGid tm))
  then st
  else
    match planeIssueMap !! orEmpty (tm_planeIssueId tm),
          asanaTaskMap !! orEmpty (tm_asanaTaskGid tm) with
    | Some planeIssue, Some asanaTask =>
        let planeCommentsCount :=
          default 0 (planeComments commentCounts !! orEmpty (tm_planeIssueId tm)) in
        let asanaCommentsCount :=
          default 0 (asanaComments commentCounts !! orEmpty (tm_asanaTaskGid tm)) in
        (<[tm_id tm := snapshotOf planeIssue asanaTask
                         planeCommentsCount asanaCommentsCount]> snapshots,
         S snapshotCount, missingCount)
    | _, _ => (snapshots, snapshotCount, S missingCount)
    end.

(** The body of [POST] once the mapping, the linked pairs and the two live
    listings are at hand: what the specification calls [takeSnapshot]. *)
Definition takeSnapshot (remote : Remote) (db : DB) (mapping : ProjectMapping)
    (taskMappings : list LinkedTask)
    (planeIssues : list PlaneIssue) (asanaTasks : list AsanaTask)
    : SnapshotResult * DB :=
  let planeIssueMap := mapBy pi_id planeIssues in
  let asanaTaskMap := mapBy at_gid asanaTasks in
  let commentCounts :=
    fetchCommentCountsBatched remote (planeProjectId mapping) None
                              (toTask <$> taskMappings) in
  let '(snapshots, snapshotCount, missingCount) :=
    fold_left (snapshot_body planeIssueMap asanaTaskMap commentCounts)
              taskMappings (taskSnapshot db, 0, 0) in
  (mkSnapshotResult
     ("Created/updated " +:+ pretty snapshotCount +:+ " snapshots" +:+
      (if 0 <? missingCount
       then " (" +:+ pretty missingCount +:+ " tasks no longer exist)"
       else ""))
     snapshotCount missingCount,
   mkDB (projectMapping db) (taskMapping db) snapshots (changeLog db)).

(** [POST /api/mappings/[mappingId]/changes]: take a snapshot of every
    linked pair. *)
Definition POST (remote : Remote) (db : DB) (mappingId : string)
    : Response SnapshotResult * DB :=
  match projectMapping db !! mappingId with
  | None => (NotFound, db)
  | Some mapping =>
      let taskMappings := findLinked db mappingId in
      match listIssues remote (planeProjectId mapping),
            listTasks remote (asanaProjectGid mapping)
                      (orNull (asanaSectionName mapping)) with
      | Some planeIssues, Some asanaTasks =>
          let '(body, db') :=
            takeSnapshot remote db mapping taskMappings planeIssues asanaTasks in
          (Ok body, db')
      | _, _ => (ServerError, db)
      end
  end.

(** *** The decision rules as the specification words them *)


(** The pair is fully linked, both its records are in the live listings and
    it has the snapshot [snapshot]. *)
Definition tracked (planeIssueMap : gmap string PlaneIssue)
    (asanaTaskMap : gmap string AsanaTask) (tm : LinkedTask)
    (planeIssue : PlaneIssue) (asanaTask : AsanaTask) (snapshot : TaskSnapshot)
    : Prop :=
  truthy (tm_planeIssueId tm) = true /\ truthy (tm_asanaTaskGid tm) = true
  /\ planeIssueMap !! orEmpty (tm_planeIssueId tm) = Some planeIssue
  /\ asanaTaskMap !! orEmpty (tm_asanaTaskGid tm) = Some asanaTask
  /\ tm_snapshot tm = Some snapshot.

(** A comment request for [id] was issued on the side [src]. *)
Definition requested (src : Source) (id : string) (st : FetchState) : Prop :=
  exists r, r ∈ requests st /\ rq_source r = src /\ rq_id r = id.

(** The changes a response reports. *)
Definition reported (r : Response DetectResult) : list Change :=
  match r with
  | Ok body => planeChanges body ++ asanaChanges body
  | _ => []
  end.

(** The schema declares the comment counts [NOT NULL]; this is what the
    detection relies on for the Asana baseline. *)
Definition baselinesRecorded (db : DB) : Prop :=
  forall k s, taskSnapshot db !! k = Some s -> asanaCommentsCount s <> None.

(** Two requests, [first] and [second], see the same remote data: nothing
    was edited in between.  Both receive the same listings, and the same
    count for the comment request of every record, a request that fails
    counting as 0, which is what the fetcher records for it. *)
Definition sameRemoteData (first second : Remote) : Prop :=
  (forall p, listIssues second p = listIssues first p)
  /\ (forall p s, listTasks second p s = listTasks first p s)
  /\ (forall p x, planeCount second p x = planeCount first p x)
  /\ (forall x, asanaCount second x = asanaCount first x).

(** *** Worked inputs *)

Definition fourPairs : list Task :=
  [mkTask (Some "i1") (Some "g1"); mkTask (Some "i2") (Some "g2");
   mkTask (Some "i3") (Some "g3"); mkTask (Some "i4") (Some "g4")].

Definition demoIssues : list PlaneIssue :=
  [mkPlaneIssue "i1" "Ship it" (Some "body") (Some "Open") (Some 100%Z);
   mkPlaneIssue "i2" "Write letter" None None None].

Definition demoTasks : list AsanaTask :=
  [mkAsanaTask "g1" "Ship it" (Some "body") false (Some 90%Z);
   mkAsanaTask "g2" "Write a letter" None true (Some 95%Z)].

(** A remote whose comment request for the issue "i1" and story request for
    the task "g2" fail. *)
Definition demoRemote : Remote :=
  mkRemote (fun _ => Some demoIssues) (fun _ _ => Some demoTasks)
    (fun _ id => if String.eqb id "i1" then None else Some 4)
    (fun g => if String.eqb g "g2" then None else Some 2)
    (fun _ => 250) (fun _ => 400) 1000%Z.

(** The same remote data a moment later, when no request fails. *)
Definition steadyRemote : Remote :=
  mkRemote (fun _ => Some demoIssues) (fun _ _ => Some demoTasks)
    (fun _ _ => Some 4) (fun _ => Some 2)
    (fun _ => 300) (fun _ => 350) 2000%Z.

(** The same remote data a moment later, when the request for the stories
    of the task "g1" fails. *)
Definition g1DownRemote : Remote :=
  mkRemote (fun _ => Some demoIssues) (fun _ _ => Some demoTasks)
    (fun _ _ => Some 4)
    (fun g => if String.eqb g "g1" then None else Some 2)
    (fun _ => 300) (fun _ => 350) 500%Z.

(** The same remote data a moment later, when the two requests that failed
    for [demoRemote] find no comment and no story. *)
Definition laterRemote : Remote :=
  mkRemote (fun _ => Some demoIssues) (fun _ _ => Some demoTasks)
    (fun _ id => if String.eqb id "i1" then Some 0 else Some 4)
    (fun g => if String.eqb g "g2" then Some 0 else Some 2)
    (fun _ => 300) (fun _ => 350) 2000%Z.

Definition demoSnapshot : TaskSnapshot :=
  mkTaskSnapshot (Some "Ship it") (Some "body") (Some "Open") (Some 80%Z) (Some 0)
                 (Some "Ship it!") (Some "body") (Some false) (Some 90%Z) (Some 2).

(** One project mapping with two linked pairs; only "tm1" has a snapshot. *)
Definition demoDB : DB :=
  mkDB {["m" := mkProjectMapping "proj" "aproj" None]}
       (<["tm1" := mkTaskMapping "m" (Some "i1") (Some "g1")]>
          {["tm2" := mkTaskMapping "m" (Some "i2") (Some "g2")]})
       {["tm1" := demoSnapshot]}
       [].

End Changes.

(** * Further definitions and worked inputs *)

Module MoreInputs.
Import Matching.

(** A Fuse.js stand-in that returns every item with score 0. *)
Definition fusePerfect : FuseSearch :=
  fun coll _ _ => (fun t => (t, Some 0%Q)) <$> coll.

Definition releaseTargets : list MatchableTask :=
  [mkMatchable "a7" "Quarterly numbers" None].

Definition shipAsanaTasks : list AsanaTask :=
  [mkAsanaTask "a1" "Ship it now" None; mkAsanaTask "a2" "Write release letters" None;
   mkAsanaTask "a3" "SHIP IT, NOW!" None].

(** The code units a normalised text is made of: lower-case letters,
    digits, the underscore and the blank. *)
Definition isNormalChar (c : ascii) : bool :=
  (isWordChar c && negb (isUpper c)) || Ascii.eqb c " ".

(** Every code unit of [s] satisfies [p]. *)
Fixpoint allChars (p : ascii -> bool) (s : string) : bool :=
  match s with
  | EmptyString => true
  | String c r => p c && allChars p r
  end.

(** No white space follows white space in [s]; [prev] tells that white
    space stands just before [s]. *)
Fixpoint singleSpaced (prev : bool) (s : string) : bool :=
  match s with
  | EmptyString => true
  | String c r =>
      if isSpace c then negb prev && singleSpaced true r else singleSpaced false r
  end.

(** What one suggestion records: the source it was made for, that was not
    linked, and the answer of [getBestMatch] on some of the targets. *)
Definition suggestedFor (fuse : FuseSearch) (matchable : list MatchableTask)
    (linkedP : gset string) (minC : Q) (ps : list PlaneTask)
    (sm : SuggestedMatch) : Prop :=
  exists p c avail,
    p ∈ ps /\ (pt_id p ∉ linkedP) /\ avail ⊆ matchable
    /\ getBestMatch fuse (pt_name p) avail minC (pt_description p) = Some c
    /\ sm = mkSuggestion (pt_id p) (pt_name p) (gid c) (name c) (confidence c)
              (matchMethod c) (reasonOr (matchReason c)).

End MoreInputs.

(** * The change history, and the pairs a request goes through *)

Module History.
Import Changes.

(** The pair is fully linked and one of its two records is no longer in the
    live listings: the test [!planeIssue || !asanaTask] of the loops of
    [GET] and [POST]. *)
Definition recordGone (planeIssueMap : gmap string PlaneIssue)
    (asanaTaskMap : gmap string AsanaTask) (tm : LinkedTask) : bool :=
  truthy (tm_planeIssueId tm) && truthy (tm_asanaTaskGid tm)
  && negb (bool_decide (is_Some (planeIssueMap !! orEmpty (tm_planeIssueId tm)))
           && bool_decide (is_Some (asanaTaskMap !! orEmpty (tm_asanaTaskGid tm)))).

(** The pair is fully linked and both its records are in the live
    listings: the pairs of which [POST] takes a snapshot. *)
Definition recordsPresent (planeIssueMap : gmap string PlaneIssue)
    (asanaTaskMap : gmap string AsanaTask) (tm : LinkedTask) : bool :=
  truthy (tm_planeIssueId tm) && truthy (tm_asanaTaskGid tm)
  && bool_decide (is_Some (planeIssueMap !! orEmpty (tm_planeIssueId tm)))
  && bool_decide (is_Some (asanaTaskMap !! orEmpty (tm_asanaTaskGid tm))).

Record DeleteResult := mkDeleteResult {
  del_message : string;
  deletedCount : nat
}.

(** [prisma.changeLog.deleteMany({ where: { projectMappingId } })]: the
    number of rows deleted and the rows that stay. *)
Definition deleteMany (mappingId : string) (log : list ChangeLogRow)
    : nat * list ChangeLogRow :=
  (length (List.filter (fun r => String.eqb (log_projectMappingId r) mappingId) log),
   List.filter (fun r => negb (String.eqb (log_projectMappingId r) mappingId)) log).

(** [DELETE /api/mappings/[mappingId]/changes/history]: clear the change
    history of a mapping.  The handler does not look the mapping up. *)
Definition DELETE (db : DB) (mappingId : string) : Response DeleteResult * DB :=
  let '(count, log) := deleteMany mappingId (changeLog db) in
  (Ok (mkDeleteResult ("Deleted " +:+ pretty count +:+ " change log entries") count),
   mkDB (projectMapping db) (taskMapping db) (taskSnapshot db) log).

(** The demonstration database with a third pair, whose Plane issue "i9" is
    not in the listing, and an old log row of another mapping. *)
Definition goneDB : DB :=
  mkDB (projectMapping demoDB)
       (<["tm3" := mkTaskMapping "m" (Some "i9") (Some "g1")]> (taskMapping demoDB))
       (<["tm3" := demoSnapshot]> (taskSnapshot demoDB))
       [mkChangeLogRow "other"
          (mkChange "tm9" None None None None "name" None None plane None)].

End History.

(** * The auto-match request *)

Module AutoMatchRoute.
Import Matching.

(** A Plane issue and an Asana task as the two listings return them. *)
Record Issue := mkIssue {
  issue_id : string;
  issue_name : string;
  issue_description_stripped : option string;
  issue_description_html : option string
}.

Record Task := mkTask {
  task_gid : string;
  task_name : string;
  task_notes : option string
}.

(** A listing that throws is [None]. *)
Record Remote := mkRemote {
  listIssues : string -> option (list Issue);
  listTasks : string -> option string -> option (list Task)
}.

Record Stats := mkStats {
  totalPlaneTasks : nat;
  totalAsanaTasks : nat;
  alreadyLinked : nat;
  suggestionsFound : nat
}.

Record AutoMatchResult := mkAutoMatchResult {
  suggestions : list SuggestedMatch;
  stats : Stats
}.

(** [a || b] on nullable strings. *)
Definition orElse (a b : option string) : option string :=
  if truthy a then a else b.

(** [prisma.taskMapping.findMany({ where: { projectMappingId: mappingId } })] *)
Definition existingMappings (db : Changes.DB) (mappingId : string)
    : list Changes.TaskMapping :=
  (List.filter (fun kv => String.eqb (Changes.projectMappingId kv.2) mappingId)
               (map_to_list (Changes.taskMapping db))).*2.

(** [new Set(rows.filter(m => m.x).map(m => m.x!))] *)
Definition linkedIds (proj : Changes.TaskMapping -> option string)
    (rows : list Changes.TaskMapping) : gset string :=
  list_to_set
    (List.map (fun m => default "" (proj m))
              (List.filter (fun m => truthy (proj m)) rows)).

Definition toPlaneTask (issue : Issue) : PlaneTask :=
  mkPlaneTask (issue_id issue) (issue_name issue)
    (orElse (issue_description_stripped issue)
            (orElse (issue_description_html issue) (Some ""))).

Definition toAsanaTask (task : Task) : AsanaTask :=
  mkAsanaTask (task_gid task) (task_name task) (orElse (task_notes task) (Some "")).

(** [GET /api/mappings/[mappingId]/auto-match]: suggest pairs for the tasks
    that are not linked yet.  Each listing has its own [.catch(() => [])]. *)
Definition GET (fuse : FuseSearch) (remote : Remote) (db : Changes.DB)
    (mappingId : string) : Changes.Response AutoMatchResult :=
  match Changes.projectMapping db !! mappingId with
  | None => Changes.NotFound
  | Some mapping =>
      let existing := existingMappings db mappingId in
      let linkedPlaneIds := linkedIds Changes.planeIssueId existing in
      let linkedAsanaGids := linkedIds Changes.asanaTaskGid existing in
      let planeIssues :=
        default [] (listIssues remote (Changes.planeProjectId mapping)) in
      let asanaTasks :=
        default [] (listTasks remote (Changes.asanaProjectGid mapping)
                      (Changes.orNull (Changes.asanaSectionName mapping))) in
      let planeTasks := List.map toPlaneTask planeIssues in
      let asanaTasksFormatted := List.map toAsanaTask asanaTasks in
      let suggestions :=
        autoMatchAllTasks fuse planeTasks asanaTasksFormatted
          linkedPlaneIds linkedAsanaGids (Double.lit (5 # 10)) in
      Changes.Ok
        (mkAutoMatchResult suggestions
           (mkStats (length planeTasks) (length asanaTasks)
              (length (List.filter
                         (fun m => truthy (Changes.planeIssueId m)
                                   && truthy (Changes.asanaTaskGid m))
                         existing))
              (length suggestions)))
  end.

(** One mapping with a linked pair and a row that holds a Plane issue
    only, and listings with two more records on each side. *)
Definition routeDB : Changes.DB :=
  Changes.mkDB {["m" := Changes.mkProjectMapping "proj" "aproj" None]}
    (<["tm1" := Changes.mkTaskMapping "m" (Some "p1") (Some "a1")]>
       {["tm2" := Changes.mkTaskMapping "m" (Some "p2") None]})
    ∅ [].

Definition routeRemote : Remote :=
  mkRemote
    (fun _ => Some [mkIssue "p1" "Ship it now" None None;
                    mkIssue "p2" "Write release letters" None None;
                    mkIssue "p3" "Write release letters" None (Some "<p>x</p>")])
    (fun _ _ => Some [mkTask "a1" "Ship it now" None;
                      mkTask "a2" "write release letters" None]).

End AutoMatchRoute.

(** * The Plane client: plain text of a description *)

Module PlaneClient.
Import Matching.

(** The code unit [x] occurs in [s]. *)
Fixpoint containsChar (x : ascii) (s : string) : bool :=
  match s with
  | EmptyString => false
  | String c r => Ascii.eqb c x || containsChar x r
  end.

(** [.replace(/<[^>]*>/g, " ")]: a match starts at a "<" that has a ">"
    somewhere after it, and ends at the first such ">"; [inTag] tells that
    the scan is inside a match. *)
Fixpoint stripTags (inTag : bool) (s : string) : string :=
  match s with
  | EmptyString => EmptyString
  | String c r =>
      if inTag then
        (if Ascii.eqb c ">" then stripTags false r else stripTags true r)
      else if Ascii.eqb c "<" && containsChar ">" r
           then String " " (stripTags true r)
           else String c (stripTags false r)
  end.

(** [.replace(/pat/g, rep)] for a literal, non-empty [pat]: the occurrences
    are replaced from left to right and do not overlap; [skip] counts the
    code units of the current occurrence that are still to be passed. *)
Fixpoint replaceAll (pat rep : string) (skip : nat) (s : string) : string :=
  match s with
  | EmptyString => EmptyString
  | String c r =>
      match skip with
      | S k => replaceAll pat rep k r
      | O =>
          if String.prefix pat s
          then rep +:+ replaceAll pat rep (String.length pat - 1) r
          else String c (replaceAll pat rep 0 r)
      end
  end.

(** The double quote. *)
Definition quote : string := String (ascii_of_nat 34) EmptyString.

Definition stripHtml (html : option string) : string :=
  if negb (truthy html) then ""
  else
    trim
      (collapseSpaces false
         (replaceAll "&quot;" quote 0
            (replaceAll "&gt;" ">" 0
               (replaceAll "&lt;" "<" 0
                  (replaceAll "&amp;" "&" 0
                     (replaceAll "&nbsp;" " " 0
                        (stripTags false (default "" html)))))))).

(** A complete tag is left in [s]: a "<" with a ">" somewhere after it. *)
Fixpoint hasTag (s : string) : bool :=
  match s with
  | EmptyString => false
  | String c r => (Ascii.eqb c "<" && containsChar ">" r) || hasTag r
  end.

(** White space, if any, is a blank. *)
Definition blankIfSpace (c : ascii) : bool := negb (isSpace c) || Ascii.eqb c " ".

End PlaneClient.

(** * Import from Asana: a description as HTML *)

Module ImportFromAsana.

(** The line feed. *)
Definition nl : ascii := ascii_of_nat 10.

Definition startsWithNl (s : string) : bool :=
  match s with
  | String c _ => Ascii.eqb c nl
  | EmptyString => false
  end.

(** Put [c] in front of the first piece. *)
Definition consHead (c : ascii) (pieces : list string) : list string :=
  match pieces with
  | p :: ps => String c p :: ps
  | [] => [String c EmptyString]
  end.

(** [text.split(/\n\n+/)]: a separator is a run of two line feeds or more;
    [inSep] tells that the scan is inside a separator. *)
Fixpoint splitParas (inSep : bool) (s : string) : list string :=
  match s with
  | EmptyString => [EmptyString]
  | String c r =>
      if inSep then
        (if Ascii.eqb c nl then splitParas true r
         else consHead c (splitParas false r))
      else if Ascii.eqb c nl && startsWithNl r
           then EmptyString :: splitParas true r
           else consHead c (splitParas false r)
  end.

(** [para.replace(/\n/g, "<br>")] *)
Fixpoint withBr (para : string) : string :=
  match para with
  | EmptyString => EmptyString
  | String c r => if Ascii.eqb c nl then "<br>" +:+ withBr r else String c (withBr r)
  end.

(** [pieces.join("")] *)
Definition join (pieces : list string) : string :=
  fold_right String.append EmptyString pieces.

Definition textToHtml (text : option string) : option string :=
  if negb (truthy text) then None
  else
    Some (join (List.map (fun para => "<p>" +:+ withBr para +:+ "</p>")
                         (splitParas false (default "" text)))).

(** What is left of a paragraph once its tags are removed: each line feed
    has become a blank. *)
Fixpoint unbroken (p : string) : string :=
  match p with
  | EmptyString => EmptyString
  | String c r => String (if Ascii.eqb c nl then " "%char else c) (unbroken r)
  end.

(** The text without its tags, the opening blank apart, read off the text
    itself: a blank for a line feed, two for a separator, one at the end. *)
Fixpoint blanked (inSep : bool) (s : string) : string :=
  match s with
  | EmptyString => " "
  | String c r =>
      if inSep then
        (if Ascii.eqb c nl then blanked true r
         else String c (blanked false r))
      else if Ascii.eqb c nl && startsWithNl r
           then String " " (String " " (blanked true r))
           else String (if Ascii.eqb c nl then " "%char else c) (blanked false r)
  end.

End ImportFromAsana.

(** * Properties of the double arithmetic *)

Module DoubleProofs.
Import Double.
Local Open Scope Q_scope.

Lemma pow2_pos e : 0 < pow2 e.
Proof. apply Qpower_0_lt. reflexivity. Qed.

Lemma pow2_le e1 e2 : (e1 <= e2)%Z -> pow2 e1 <= pow2 e2.
Proof. intros H. apply Qpower_le_compat_l; [exact H|]. discriminate. Qed.

Lemma pow2_lt_inv e1 e2 : pow2 e1 < pow2 e2 -> (e1 < e2)%Z.
Proof. intros H. apply (Qpower_lt_compat_l_inv 2); [exact H|reflexivity]. Qed.

Lemma pow2_add e1 e2 : pow2 (e1 + e2) == pow2 e1 * pow2 e2.
Proof. apply Qpower_plus. discriminate. Qed.

Lemma pow2_Z n : (0 <= n)%Z -> inject_Z (2 ^ n) == pow2 n.
Proof. intros H. unfold pow2. rewrite (Zpower_Qpower 2 n H). reflexivity. Qed.

(** *** Rounding to an integer *)

Lemma roundEven_floor q : (Qfloor q <= roundEven q <= Qfloor q + 1)%Z.
Proof.
  unfold roundEven. destruct (Qcompare _ _); [destruct (Z.even _)|..]; lia.
Qed.

Lemma frac_bounds q : 0 <= q - inject_Z (Qfloor q) /\ q - inject_Z (Qfloor q) < 1.
Proof.
  pose proof (Qfloor_le q) as H1. pose proof (Qlt_floor q) as H2.
  rewrite inject_Z_plus in H2. change (inject_Z 1) with 1 in H2. split; lra.
Qed.

Lemma roundEven_int z : roundEven (inject_Z z) = z.
Proof.
  unfold roundEven. rewrite Qfloor_Z.
  assert (inject_Z z - inject_Z z == 0) as H by ring.
  destruct (Qcompare_spec (inject_Z z - inject_Z z) (1 # 2)) as [E|E|E];
    rewrite H in E; [discriminate|reflexivity|].
  exfalso. revert E. unfold Qlt. simpl. lia.
Qed.

Lemma roundEven_mono a b : a <= b -> (roundEven a <= roundEven b)%Z.
Proof.
  intros Hab. pose proof (Qfloor_resp_le _ _ Hab) as Hf.
  pose proof (roundEven_floor a) as Ha. pose proof (roundEven_floor b) as Hb.
  destruct (Z.eq_dec (Qfloor a) (Qfloor b)) as [E|E]; [|lia].
  unfold roundEven. rewrite <- E.
  destruct (Qcompare_spec (a - inject_Z (Qfloor a)) (1 # 2)) as [Ea|Ea|Ea];
    destruct (Qcompare_spec (b - inject_Z (Qfloor a)) (1 # 2)) as [Eb|Eb|Eb];
    try (destruct (Z.even (Qfloor a))); try lia; exfalso; lra.
Qed.

(** *** The exponent *)

Lemma exponent_spec q : 0 < q -> pow2 (exponent q) <= q /\ q < pow2 (exponent q + 1).
Proof.
  intros Hq. destruct q as [n d]. unfold exponent. cbn [Qnum Qden].
  assert (0 < n)%Z as Hn by (revert Hq; unfold Qlt; simpl; lia).
  set (ln := Z.log2 n). set (ld := Z.log2 (Z.pos d)).
  destruct (Z.log2_spec n Hn) as [Hn1 Hn2]. fold ln in Hn1, Hn2.
  destruct (Z.log2_spec (Z.pos d) eq_refl) as [Hd1 Hd2]. fold ld in Hd1, Hd2.
  assert (0 <= ln)%Z as Hln by apply Z.log2_nonneg.
  assert (0 <= ld)%Z as Hld by apply Z.log2_nonneg.
  assert (n # d == inject_Z n / inject_Z (Z.pos d)) as Hnd by apply Qmake_Qdiv.
  assert (0 < inject_Z (Z.pos d)) as HD by (unfold Qlt; simpl; lia).
  assert (pow2 ln <= inject_Z n) as A1 by (rewrite <- pow2_Z, <- Zle_Qle; lia).
  assert (inject_Z n < pow2 (ln + 1)) as A2.
  { rewrite <- pow2_Z, <- Zlt_Qlt by lia. unfold Z.succ in Hn2. lia. }
  assert (pow2 ld <= inject_Z (Z.pos d)) as B1 by (rewrite <- pow2_Z, <- Zle_Qle; lia).
  assert (inject_Z (Z.pos d) < pow2 (ld + 1)) as B2.
  { rewrite <- pow2_Z, <- Zlt_Qlt by lia. unfold Z.succ in Hd2. lia. }
  pose proof (pow2_pos ld) as Pld. pose proof (pow2_pos (ln - ld)) as Pk.
  assert (pow2 (ln + 1) == 2 * pow2 (ln - ld) * pow2 ld) as E1.
  { replace (ln + 1)%Z with (1 + ((ln - ld) + ld))%Z by lia.
    rewrite !pow2_add. unfold pow2 at 1. rewrite Qpower_1_r. ring. }
  assert (pow2 ln == pow2 (ln - ld - 1) * pow2 (ld + 1)) as E2.
  { replace ln with ((ln - ld - 1) + (ld + 1))%Z at 1 by lia. apply pow2_add. }
  assert (pow2 (ln - ld + 1) == 2 * pow2 (ln - ld)) as E3.
  { replace (ln - ld + 1)%Z with (1 + (ln - ld))%Z by lia. rewrite pow2_add.
    unfold pow2 at 1. rewrite Qpower_1_r. reflexivity. }
  assert (pow2 (ln - ld - 1 + 1) == pow2 (ln - ld)) as E4.
  { replace (ln - ld - 1 + 1)%Z with (ln - ld)%Z by lia. reflexivity. }
  pose proof (pow2_pos (ln - ld - 1)) as Pk1.
  (* the value lies strictly between 2^(k-1) and 2^(k+1) *)
  assert (n # d < 2 * pow2 (ln - ld)) as Hup.
  { rewrite Hnd. apply Qlt_shift_div_r; [exact HD|]. nra. }
  assert (pow2 (ln - ld - 1) < n # d) as Hlo.
  { rewrite Hnd. apply Qlt_shift_div_l; [exact HD|]. nra. }
  destruct (Qle_bool (pow2 (ln - ld)) (n # d)) eqn:E.
  - apply Qle_bool_iff in E. split; [exact E|]. rewrite E3. exact Hup.
  - split; [apply Qlt_le_weak; exact Hlo|]. rewrite E4.
    apply Qnot_le_lt. intros H. apply Qle_bool_iff in H. congruence.
Qed.

Lemma exponent_mono x y : 0 < x -> x <= y -> (exponent x <= exponent y)%Z.
Proof.
  intros Hx Hxy. assert (0 < y) as Hy by lra.
  destruct (exponent_spec x Hx) as [H1 _]. destruct (exponent_spec y Hy) as [_ H2].
  assert (pow2 (exponent x) < pow2 (exponent y + 1)) as H by lra.
  apply pow2_lt_inv in H. lia.
Qed.

Lemma exponent_unique q e : pow2 e <= q -> q < pow2 (e + 1) -> exponent q = e.
Proof.
  intros H1 H2. pose proof (pow2_pos e) as Pe. assert (0 < q) as Hq by lra.
  destruct (exponent_spec q Hq) as [H3 H4].
  assert (pow2 e < pow2 (exponent q + 1)) as A by lra.
  assert (pow2 (exponent q) < pow2 (e + 1)) as B by lra.
  apply pow2_lt_inv in A, B. lia.
Qed.

(** *** Rounding to 53 bits *)

Lemma scaled_bounds q :
  0 < q ->
  pow2 52 <= q / pow2 (exponent q - 52) /\ q / pow2 (exponent q - 52) <= pow2 53.
Proof.
  intros Hq. destruct (exponent_spec q Hq) as [H1 H2].
  pose proof (pow2_pos (exponent q - 52)) as Pu.
  assert (pow2 (exponent q) == pow2 52 * pow2 (exponent q - 52)) as E1.
  { replace (exponent q) with (52 + (exponent q - 52))%Z at 1 by lia. apply pow2_add. }
  assert (pow2 (exponent q + 1) == pow2 53 * pow2 (exponent q - 52)) as E2.
  { replace (exponent q + 1)%Z with (53 + (exponent q - 52))%Z by lia. apply pow2_add. }
  split.
  - apply Qle_shift_div_l; [exact Pu|]. lra.
  - apply Qle_shift_div_r; [exact Pu|]. lra.
Qed.

Lemma roundPos_bounds q :
  0 < q -> pow2 (exponent q) <= roundPos q /\ roundPos q <= pow2 (exponent q + 1).
Proof.
  intros Hq. destruct (scaled_bounds q Hq) as [H1 H2]. unfold roundPos.
  set (u := pow2 (exponent q - 52)) in *. pose proof (pow2_pos (exponent q - 52)) as Pu.
  fold u in Pu.
  assert (pow2 (exponent q) == pow2 52 * u) as E1.
  { unfold u. replace (exponent q) with (52 + (exponent q - 52))%Z at 1 by lia.
    apply pow2_add. }
  assert (pow2 (exponent q + 1) == pow2 53 * u) as E2.
  { unfold u. replace (exponent q + 1)%Z with (53 + (exponent q - 52))%Z by lia.
    apply pow2_add. }
  rewrite <- (pow2_Z 52) in H1, E1 by lia. rewrite <- (pow2_Z 53) in H2, E2 by lia.
  apply roundEven_mono in H1, H2. rewrite roundEven_int in H1, H2.
  rewrite Zle_Qle in H1, H2. rewrite E1, E2. split; nra.
Qed.

Lemma roundPos_mono x y : 0 < x -> x <= y -> roundPos x <= roundPos y.
Proof.
  intros Hx Hxy. assert (0 < y) as Hy by lra.
  pose proof (exponent_mono x y Hx Hxy) as He.
  destruct (Z.eq_dec (exponent x) (exponent y)) as [E|E].
  - unfold roundPos. rewrite E. set (u := pow2 (exponent y - 52)).
    pose proof (pow2_pos (exponent y - 52)) as Pu. fold u in Pu.
    assert (x / u <= y / u) as H.
    { apply Qle_shift_div_l; [exact Pu|].
      unfold Qdiv. rewrite <- Qmult_assoc, (Qmult_comm (/ u)), Qmult_inv_r; lra. }
    apply roundEven_mono in H. rewrite Zle_Qle in H. nra.
  - destruct (roundPos_bounds x Hx) as [_ H1]. destruct (roundPos_bounds y Hy) as [H2 _].
    pose proof (pow2_le (exponent x + 1) (exponent y) ltac:(lia)). lra.
Qed.

Lemma roundPos_pos q : 0 < q -> 0 < roundPos q.
Proof.
  intros Hq. destruct (roundPos_bounds q Hq) as [H _].
  pose proof (pow2_pos (exponent q)). lra.
Qed.

Lemma roundPos_proper x y : x == y -> 0 < x -> roundPos x == roundPos y.
Proof.
  intros E Hx. assert (0 < y) as Hy by lra.
  apply Qle_antisym; apply roundPos_mono; lra.
Qed.

(** *** Rounding any rational *)

Lemma nearest_eq x y : x == y -> nearest x = nearest y.
Proof. intros E. unfold nearest. by rewrite (Qred_complete _ _ E). Qed.

Lemma Qnum_sign q : match Qnum q with
                    | Z0 => q == 0 | Zpos _ => 0 < q | Zneg _ => q < 0 end.
Proof. destruct q as [[|p|p] d]; unfold Qeq, Qlt; simpl; lia. Qed.

Lemma nearest_pos q : 0 < q -> nearest q == roundPos q.
Proof.
  intros Hq. unfold nearest. pose proof (Qnum_sign (Qred q)) as H.
  pose proof (Qred_correct q) as E.
  destruct (Qnum (Qred q)); [lra| |lra].
  apply roundPos_proper; [exact E|lra].
Qed.

Lemma nearest_0 q : q == 0 -> nearest q == 0.
Proof.
  intros Hq. unfold nearest. pose proof (Qnum_sign (Qred q)) as H.
  pose proof (Qred_correct q) as E.
  destruct (Qnum (Qred q)); [reflexivity|lra|lra].
Qed.

Lemma nearest_neg q : q < 0 -> nearest q < 0.
Proof.
  intros Hq. unfold nearest. pose proof (Qnum_sign (Qred q)) as H.
  pose proof (Qred_correct q) as E.
  destruct (Qnum (Qred q)); [lra|lra|].
  assert (0 < roundPos (- Qred q)) by (apply roundPos_pos; lra). lra.
Qed.

Lemma nearest_nonneg q : 0 <= q -> 0 <= nearest q.
Proof.
  intros Hq. destruct (Qlt_le_dec 0 q) as [H|H].
  - rewrite (nearest_pos q H). apply Qlt_le_weak, roundPos_pos, H.
  - rewrite (nearest_0 q); lra.
Qed.

Lemma nearest_mono x y : 0 <= x -> x <= y -> nearest x <= nearest y.
Proof.
  intros Hx Hxy. destruct (Qlt_le_dec 0 x) as [H|H].
  - rewrite (nearest_pos x H), (nearest_pos y) by lra. by apply roundPos_mono.
  - rewrite (nearest_0 x) by lra. apply nearest_nonneg. lra.
Qed.

Lemma round_nearest q : round q == nearest q.
Proof. apply Qred_correct. Qed.

Lemma round_eq x y : x == y -> round x = round y.
Proof. intros E. unfold round. by rewrite (nearest_eq _ _ E). Qed.

Lemma round_0 q : q == 0 -> round q == 0.
Proof. intros Hq. rewrite round_nearest. by apply nearest_0. Qed.

Lemma round_nonneg q : 0 <= q -> 0 <= round q.
Proof. intros Hq. rewrite round_nearest. by apply nearest_nonneg. Qed.

Lemma round_mono x y : 0 <= x -> x <= y -> round x <= round y.
Proof. intros Hx Hxy. rewrite !round_nearest. by apply nearest_mono. Qed.

(** Rounding keeps the sign: a difference of two numbers is positive
    exactly when the first is the greater. *)
Lemma round_pos_iff q : 0 < round q <-> 0 < q.
Proof.
  rewrite round_nearest. split.
  - intros H. apply Qnot_le_lt. intros Hq.
    destruct (Qlt_le_dec q 0) as [Hn|Hn].
    + pose proof (nearest_neg q Hn). lra.
    + rewrite (nearest_0 q) in H by lra. lra.
  - intros H. rewrite (nearest_pos q H). by apply roundPos_pos.
Qed.

Lemma sub_pos_iff x y : 0 < sub x y <-> y < x.
Proof. unfold sub. rewrite round_pos_iff. split; intros H; lra. Qed.

(** *** The operations *)

Lemma add_eq x x' y y' : x == x' -> y == y' -> add x y = add x' y'.
Proof. intros Ex Ey. apply round_eq. by rewrite Ex, Ey. Qed.

Lemma mul_eq x x' y y' : x == x' -> y == y' -> mul x y = mul x' y'.
Proof. intros Ex Ey. apply round_eq. by rewrite Ex, Ey. Qed.

Lemma add_mono x x' y : 0 <= x -> 0 <= y -> x <= x' -> add x y <= add x' y.
Proof. intros Hx Hy Hxx. apply round_mono; lra. Qed.

Lemma mul_mono x y y' : 0 <= x -> 0 <= y -> y <= y' -> mul x y <= mul x y'.
Proof. intros Hx Hy Hyy. apply round_mono; nra. Qed.

Lemma add_nonneg x y : 0 <= x -> 0 <= y -> 0 <= add x y.
Proof. intros Hx Hy. apply round_nonneg. lra. Qed.

Lemma mul_nonneg x y : 0 <= x -> 0 <= y -> 0 <= mul x y.
Proof. intros Hx Hy. apply round_nonneg. nra. Qed.

(** *** Some values, as JavaScript prints them *)

(** [0.6 + 0.3] is [0.8999999999999999], below [0.9]. *)
Lemma add_06_03 : add (lit (6 # 10)) (lit (3 # 10)) < lit (9 # 10).
Proof. vm_compute. reflexivity. Qed.

(** [0.5 + 0.3] is [0.8] and [0.85 + 0.15] is [1]. *)
Lemma add_05_03 : add (lit (5 # 10)) (lit (3 # 10)) = lit (8 # 10).
Proof. vm_compute. reflexivity. Qed.

Lemma add_085_015 : add (lit (85 # 100)) (lit (15 # 100)) = 1.
Proof. vm_compute. reflexivity. Qed.

(** [0.85 * (13 / 17) + 0.15] is [0.7999999999999999], below [0.8]. *)
Lemma containment_13_17 :
  add (mul (lit (85 # 100)) (div 13 17)) (lit (15 # 100)) < lit (8 # 10).
Proof. vm_compute. reflexivity. Qed.

(** [Math.round(23 / 40 * 100)] is [57]: the product is
    [57.49999999999999]. *)
Lemma mathRound_23_40 : mathRound (mul (div 23 40) 100) = 57%Z.
Proof. vm_compute. reflexivity. Qed.

End DoubleProofs.

(** * Properties of the matcher *)

Module MatchingProofs.
Import Matching.

(** ** Sorting *)

Section SortFacts.
Context {A : Type} (key : A -> Q).

(** The comparator puts [y] after [x] exactly when the key of [x] is the
    greater. *)
Lemma compareDesc_test x y :
  Qgt_bool (compareDesc key y x) 0 = Qgt_bool (key x) (key y).
Proof.
  unfold Qgt_bool, compareDesc.
  destruct (Qle_bool (key x) (key y)) eqn:E; cbn [negb].
  - apply Qle_bool_iff in E. apply negb_false_iff, Qle_bool_iff.
    apply Qnot_lt_le. intros H.
    apply (proj1 (DoubleProofs.sub_pos_iff _ _)) in H.
    by apply (Qlt_not_le _ _ H).
  - apply negb_true_iff. destruct (Qle_bool _ 0) eqn:E'; [|done].
    apply Qle_bool_iff in E'. exfalso.
    assert (key y < key x)%Q as Hlt.
    { apply Qnot_le_lt. intros H. apply Qle_bool_iff in H. congruence. }
    apply (proj2 (DoubleProofs.sub_pos_iff _ _)) in Hlt.
    by apply (Qlt_not_le _ _ Hlt).
Qed.

Lemma insertDesc_perm x l : insertDesc key x l ≡ₚ x :: l.
Proof.
  induction l as [|y r IH]; simpl; [done|].
  destruct (Qgt_bool _ _); [done|].
  rewrite IH. apply perm_swap.
Qed.

Lemma sortDesc_perm l : sortDesc key l ≡ₚ l.
Proof.
  unfold sortDesc.
  enough (forall acc, fold_left (fun acc x => insertDesc key x acc) l acc ≡ₚ acc ++ l)
    as H by apply H.
  induction l as [|x r IH]; intros acc; simpl.
  - by rewrite app_nil_r.
  - rewrite IH, insertDesc_perm. simpl. apply Permutation_middle.
Qed.

Lemma insertDesc_sorted x l :
  StronglySorted (geKey key) l -> StronglySorted (geKey key) (insertDesc key x l).
Proof.
  induction 1 as [|y r Hr IH Hy]; simpl.
  - repeat constructor.
  - rewrite compareDesc_test.
    unfold Qgt_bool. destruct (Qle_bool (key x) (key y)) eqn:E; simpl.
    + apply Qle_bool_iff in E. constructor; [exact IH|].
      rewrite (insertDesc_perm x r). constructor; [exact E|exact Hy].
    + assert (key y < key x)%Q as Hlt.
      { apply Qnot_le_lt. intros H. apply Qle_bool_iff in H. congruence. }
      constructor; [by constructor|].
      constructor; [by apply Qlt_le_weak|].
      eapply Forall_impl; [exact Hy|]. intros z Hz. unfold geKey in *.
      eapply Qle_trans; [exact Hz|by apply Qlt_le_weak].
Qed.

Lemma sortDesc_sorted l : StronglySorted (geKey key) (sortDesc key l).
Proof.
  unfold sortDesc.
  enough (forall acc, StronglySorted (geKey key) acc ->
            StronglySorted (geKey key) (fold_left (fun acc x => insertDesc key x acc) l acc))
    as H by (apply H; constructor).
  induction l as [|x r IH]; intros acc Hacc; simpl; [done|].
  apply IH, insertDesc_sorted, Hacc.
Qed.

Lemma sorted_take n l : StronglySorted (geKey key) l -> StronglySorted (geKey key) (take n l).
Proof.
  intros H. revert n. induction H as [|y r Hr IH Hy]; intros [|n]; simpl;
    try constructor; [apply IH|].
  rewrite Forall_forall in Hy. apply Forall_forall. intros z Hz.
  apply Hy. by apply (subseteq_take n r).
Qed.

Lemma sorted_descending l : StronglySorted (geKey key) l -> descending key l.
Proof.
  induction 1 as [|y r Hr IH Hy]; intros i j a b Hij Hi Hj.
  - by rewrite lookup_nil in Hi.
  - destruct j as [|j]; [lia|]. simpl in Hj.
    destruct i as [|i]; simpl in Hi.
    + injection Hi as <-. rewrite Forall_forall in Hy.
      apply Hy. by eapply list_elem_of_lookup_2.
    + eapply (IH i j); [lia|done..].
Qed.
End SortFacts.

(** ** Keyword overlap is the Jaccard similarity *)

Lemma ratio_zero n : ratio 0 n = 0%Q.
Proof.
  unfold ratio, Double.div. rewrite (DoubleProofs.round_eq _ 0); [reflexivity|].
  apply Qmult_0_l.
Qed.

Lemma overlap_size (k1 k2 : gset string) :
  length (List.filter (fun kw => bool_decide (kw ∈ k2)) (elements k1))
  = size (k1 ∩ k2).
Proof.
  unfold size, set_size. simpl. apply Permutation_length.
  apply NoDup_Permutation.
  - apply NoDup_ListNoDup, List.NoDup_filter, NoDup_ListNoDup, NoDup_elements.
  - apply NoDup_elements.
  - intros x. rewrite list_elem_of_In, filter_In, <- list_elem_of_In.
    rewrite !elem_of_elements, elem_of_intersection, bool_decide_eq_true.
    done.
Qed.

Lemma keywordOverlapScore_jaccard a b :
  keywordOverlapScore a b = similarity a b.
Proof.
  unfold keywordOverlapScore, similarity, jaccard.
  destruct ((size (extractKeywords a) =? 0) || (size (extractKeywords b) =? 0)) eqn:E.
  - assert (extractKeywords a ∩ extractKeywords b = ∅) as ->.
    { apply orb_true_iff in E as [E|E]; apply Nat.eqb_eq, size_empty_inv in E;
        apply leibniz_equiv in E; rewrite E;
        [apply intersection_empty_l_L|apply intersection_empty_r_L]. }
    rewrite size_empty. symmetry. apply ratio_zero.
  - by rewrite overlap_size.
Qed.

(** ** The loop of [findMatches] *)

Lemma findMatches_body_app s d ns acc t :
  findMatches_body s d ns acc t = acc ++ findMatches_body s d ns [] t.
Proof.
  unfold findMatches_body, push.
  repeat match goal with
         | |- context [if ?b then _ else _] => destruct b
         | |- context [match ?o with Some _ => _ | None => _ end] => destruct o
         end; simpl; by rewrite ?app_nil_r.
Qed.

Lemma findMatches_candidates_flat s ts d :
  findMatches_candidates s ts d
  = flat_map (findMatches_body s d (normalizeText s) []) ts.
Proof.
  unfold findMatches_candidates.
  enough (forall acc,
    fold_left (findMatches_body s d (normalizeText s)) ts acc
    = acc ++ flat_map (findMatches_body s d (normalizeText s) []) ts) as H
    by apply H.
  induction ts as [|t r IH]; intros acc; simpl.
  - by rewrite app_nil_r.
  - rewrite IH, findMatches_body_app, <- app_assoc. done.
Qed.

Ltac fires := eexists; split; [reflexivity|]; unfold carries; cbn [fst snd];
  repeat split; reflexivity.

(** Stages 3 and 4, which the source reaches from two places. *)
Lemma stage34_rules s d t :
  let stage (_ : unit) :=
    let nameKeywordScore := keywordOverlapScore s (mt_name t) in
    if Qge_bool nameKeywordScore (Double.lit (4 # 10)) then
      [mkCandidate (mt_gid t) (mt_name t)
         (Qmin (Double.lit (9 # 10))
               (Double.add nameKeywordScore (Double.lit (3 # 10)))) fuzzy
         (Some (percent nameKeywordScore +:+ "% keyword match in name"))]
    else
      match d, mt_description t with
      | Some sd, Some td =>
          if truthy (Some sd) && truthy (Some td) then
            let descKeywordScore := keywordOverlapScore sd td in
            if Qge_bool descKeywordScore (Double.lit (3 # 10)) then
              [mkCandidate (mt_gid t) (mt_name t)
                 (Qmin (Double.lit (8 # 10))
                       (Double.add descKeywordScore (Double.lit (2 # 10))))
                 description
                 (Some (percent descKeywordScore +:+ "% description similarity"))]
            else
              let crossScore := Qmax (keywordOverlapScore s td)
                                     (keywordOverlapScore (mt_name t) sd) in
              if Qge_bool crossScore (Double.lit (3 # 10)) then
                [mkCandidate (mt_gid t) (mt_name t)
                   (Qmin (Double.lit (75 # 100))
                         (Double.add crossScore (Double.lit (15 # 100))))
                   description
                   (Some "Name found in description")]
              else []
          else []
      | _, _ => []
      end in
  match firstFiring [rule_name_keywords s t; rule_description s d t] with
  | Some v => exists c, stage tt = [c] /\ carries c (t, v)
  | None => stage tt = []
  end.
Proof.
  cbv zeta. unfold firstFiring, rule_name_keywords, rule_description, present.
  rewrite !keywordOverlapScore_jaccard.
  destruct (Qge_bool (similarity s (mt_name t)) _); [fires|].
  destruct d as [sd|], (mt_description t) as [td|];
    try (cbn [truthy andb]; rewrite ?andb_false_r; done).
  destruct (truthy (Some sd) && truthy (Some td)); [|done].
  cbn [default from_option id]. rewrite !keywordOverlapScore_jaccard.
  destruct (Qge_bool (similarity sd td) _); [fires|].
  destruct (Qge_bool _ _); [fires|done].
Qed.

(** What one iteration pushes, against the rule list. *)
Lemma findMatches_body_rules s d t :
  match spec_verdict s d t with
  | Some v => exists c, findMatches_body s d (normalizeText s) [] t = [c]
                        /\ carries c (t, v)
  | None => findMatches_body s d (normalizeText s) [] t = []
  end.
Proof.
  pose proof (stage34_rules s d t) as H34. cbv zeta in H34.
  unfold spec_verdict, findMatches_body, push.
  cbn [firstFiring]. unfold rule_exact at 1.
  destruct (String.eqb_spec (normalizeText s) (normalizeText (mt_name t))) as [He|He].
  { rewrite bool_decide_eq_true_2 by done. fires. }
  rewrite bool_decide_eq_false_2 by done.
  unfold rule_containment at 1. cbv zeta.
  destruct (includes _ _ || includes _ _); cbn [andb app].
  - destruct (Qgt_bool _ _); [fires|]. exact H34.
  - exact H34.
Qed.

Lemma candidate_from_rule s d ts c :
  c ∈ findMatches_candidates s ts d ->
  exists t v, t ∈ ts /\ spec_verdict s d t = Some v /\ carries c (t, v).
Proof.
  rewrite findMatches_candidates_flat, list_elem_of_In, in_flat_map.
  intros (t & Ht & Hc). apply list_elem_of_In in Ht.
  pose proof (findMatches_body_rules s d t) as H.
  destruct (spec_verdict s d t) as [v|] eqn:E.
  - destruct H as (c' & Hb & Hcar). rewrite Hb in Hc.
    destruct Hc as [<-|[]]. by exists t, v.
  - rewrite H in Hc. destruct Hc.
Qed.

(** C5.  For every target record the scorer tries the four rules of the
    specification in order and the first that fires decides the candidate:
    exact normalised-name equality (confidence 1, "exact"), containment with
    length ratio above 0.5 (0.85 × ratio + 0.15, "fuzzy"), name-keyword
    Jaccard similarity at least 0.4 (min(0.9, similarity + 0.3), "fuzzy"),
    and, when both descriptions are present, description similarity at least
    0.3 (min(0.8, similarity + 0.2)) or else the cross check with the same
    floor (min(0.75, similarity + 0.15)), both "description".  The ratios,
    products and sums are those of JavaScript numbers, each rounded to a
    double.  A target on which no rule fires contributes no candidate; the
    candidates are then filtered by the threshold, sorted and cut to
    five. *)
Theorem findMatches_first_rule_wins (sourceName : string)
    (sourceDescription : option string) (targetTasks : list MatchableTask)
    (threshold : Q) :
  Forall2 carries
    (findMatches_candidates sourceName targetTasks sourceDescription)
    (omap (fun t => pair t <$> spec_verdict sourceName sourceDescription t)
          targetTasks)
  /\ findMatches sourceName targetTasks threshold sourceDescription
     = take 5 (sortDesc confidence
         (List.filter (fun c => Qge_bool (confidence c) threshold)
            (findMatches_candidates sourceName targetTasks sourceDescription))).
Proof.
  split; [|reflexivity].
  rewrite findMatches_candidates_flat.
  induction targetTasks as [|t r IH]; simpl; [constructor|].
  pose proof (findMatches_body_rules sourceName sourceDescription t) as H.
  destruct (spec_verdict sourceName sourceDescription t) as [v|]; simpl.
  - destruct H as (c & -> & Hc). simpl. by constructor.
  - by rewrite H.
Qed.

(** ** Bounds on the returned candidates *)

Lemma quotient_nonneg a b :
  (0 <= inject_Z (Z.of_nat a) / inject_Z (Z.of_nat b))%Q.
Proof.
  destruct b as [|b].
  - unfold Qdiv. simpl. rewrite Qmult_0_r. apply Qle_refl.
  - apply Qle_shift_div_l.
    + change 0%Q with (inject_Z 0). rewrite <- Zlt_Qlt. lia.
    + rewrite Qmult_0_l. change 0%Q with (inject_Z 0). rewrite <- Zle_Qle. lia.
Qed.

Lemma quotient_le_1 a b :
  a <= b -> (inject_Z (Z.of_nat a) / inject_Z (Z.of_nat b) <= 1)%Q.
Proof.
  intros Hab. destruct b as [|b].
  - unfold Qdiv. simpl. rewrite Qmult_0_r. done.
  - apply Qle_shift_div_r.
    + change 0%Q with (inject_Z 0). rewrite <- Zlt_Qlt. lia.
    + rewrite Qmult_1_l. rewrite <- Zle_Qle. lia.
Qed.

Lemma ratio_nonneg a b : (0 <= ratio a b)%Q.
Proof. apply DoubleProofs.round_nonneg, quotient_nonneg. Qed.

Lemma ratio_le_1 a b : a <= b -> (ratio a b <= 1)%Q.
Proof.
  intros Hab. change 1%Q with (Double.round 1).
  apply DoubleProofs.round_mono; [apply quotient_nonneg|by apply quotient_le_1].
Qed.

(** The containment formula never exceeds [0.85 * 1 + 0.15], which is 1. *)
Lemma containment_le_1 r :
  (0 <= r)%Q -> (r <= 1)%Q ->
  (Double.add (Double.mul (Double.lit (85 # 100)) r) (Double.lit (15 # 100)) <= 1)%Q.
Proof.
  intros H0 H1.
  assert (0 <= Double.lit (85 # 100))%Q as Hl by (vm_compute; discriminate).
  assert (0 <= Double.lit (15 # 100))%Q as Hk by (vm_compute; discriminate).
  eapply Qle_trans.
  - apply DoubleProofs.add_mono; [by apply DoubleProofs.mul_nonneg|exact Hk|].
    apply DoubleProofs.mul_mono; [exact Hl|exact H0|exact H1].
  - vm_compute. discriminate.
Qed.

Lemma spec_verdict_le_1 s d t v :
  spec_verdict s d t = Some v -> (v_confidence v <= 1)%Q.
Proof.
  unfold spec_verdict, firstFiring, rule_exact, rule_containment,
    rule_name_keywords, rule_description.
  assert (forall x, (Qmin (Double.lit (9 # 10)) x <= 1)%Q) as H9.
  { intros x. eapply Qle_trans; [apply Q.le_min_l|vm_compute; discriminate]. }
  assert (forall x, (Qmin (Double.lit (8 # 10)) x <= 1)%Q) as H8.
  { intros x. eapply Qle_trans; [apply Q.le_min_l|vm_compute; discriminate]. }
  assert (forall x, (Qmin (Double.lit (75 # 100)) x <= 1)%Q) as H75.
  { intros x. eapply Qle_trans; [apply Q.le_min_l|vm_compute; discriminate]. }
  set (r := ratio _ _).
  assert (Double.add (Double.mul (Double.lit (85 # 100)) r)
                     (Double.lit (15 # 100)) <= 1)%Q as Hc.
  { apply containment_le_1; [apply ratio_nonneg|apply ratio_le_1; lia]. }
  repeat match goal with
         | |- context [if ?b then _ else _] => destruct b
         end; intros [= <-]; simpl; auto using Qle_refl.
Qed.

Lemma candidates_le_1 s d ts c :
  c ∈ findMatches_candidates s ts d -> (confidence c <= 1)%Q.
Proof.
  intros (t & v & _ & Hv & _ & _ & Hq & _)%candidate_from_rule.
  simpl in Hq. rewrite Hq. by eapply spec_verdict_le_1.
Qed.

Lemma findMatches_subset s ts th d c :
  c ∈ findMatches s ts th d ->
  c ∈ findMatches_candidates s ts d /\ Qge_bool (confidence c) th = true.
Proof.
  unfold findMatches. intros Hc.
  apply (subseteq_take 5) in Hc. rewrite sortDesc_perm in Hc.
  apply list_elem_of_In, filter_In in Hc as [Hc Hth].
  by apply list_elem_of_In in Hc.
Qed.

(** C6.  For every input the list returned by the scorer has at most five
    candidates, is sorted by descending confidence, and every candidate in it
    has a confidence between the caller's threshold and 1: rounding to a
    double never lifts a confidence above 1. *)
Theorem findMatches_bounds (sourceName : string) (targetTasks : list MatchableTask)
    (threshold : Q) (sourceDescription : option string) :
  let result := findMatches sourceName targetTasks threshold sourceDescription in
  length result <= 5
  /\ descending confidence result
  /\ forall c, c ∈ result -> (threshold <= confidence c /\ confidence c <= 1)%Q.
Proof.
  cbv zeta. split; [|split].
  - unfold findMatches. rewrite length_take. lia.
  - apply sorted_descending, sorted_take, sortDesc_sorted.
  - intros c Hc. apply findMatches_subset in Hc as [Hc Hth]. split.
    + by apply Qle_bool_iff.
    + by eapply candidates_le_1.
Qed.

(** The scorer computes as JavaScript does.  With a similarity of 3/5 the
    name-keyword rule gives [0.6 + 0.3], which is [0.8999999999999999]: the
    target with similarity 2/3, capped at [0.9], comes first although it is
    the later one.  With a length ratio of 13/17 the containment rule gives
    [0.7999999999999999], which does not pass a threshold of [0.8].
    [Math.round(23 / 40 * 100)] is 57.  And the best match among the two
    targets of the first example is the later one. *)
Lemma findMatches_rounds :
  (fun c => (gid c, matchReason c))
    <$> findMatches "alpha bravo charlie delta" alphaTargets
          (Double.lit (6 # 10)) None
  = [("b", Some "67% keyword match in name");
     ("a", Some "60% keyword match in name")]
  /\ findMatches "abcdefghijklm" [mkMatchable "t1" "abcdefghijklm xyz" None]
       (Double.lit (8 # 10)) None = []
  /\ percent (ratio 23 40) = "57"
  /\ gid <$> getBestMatch fuseNothing "alpha bravo charlie delta" alphaTargets
               (Double.lit (6 # 10)) None = Some "b".
Proof. repeat split; vm_compute; reflexivity. Qed.

(** C3 (as amended).  For the source name "Fix login bug" and the targets
    "Fix login bug", "Update login page", "Bug: login crash" without
    descriptions, and any threshold up to 0.8 (so in the whole 0.5-0.7 band),
    the scorer returns three candidates: "Fix login bug" with confidence 1
    and method "exact", then "Update login page" and "Bug: login crash", both
    by the name-keyword rule with confidence 0.8 and method "fuzzy".  "update"
    is a stop word and "fix", "bug" are too short, so each of the two shares
    the one keyword "login" out of two with the source; [0.5 + 0.3] is the
    double [0.8]. *)
Theorem login_example_scores (threshold : Q) :
  (threshold <= Double.lit (8 # 10))%Q ->
  (fun c => (name c, matchMethod c, Qred (confidence c)))
    <$> findMatches "Fix login bug" loginTargets threshold None
  = [("Fix login bug", exact, 1%Q);
     ("Update login page", fuzzy, Double.lit (8 # 10));
     ("Bug: login crash", fuzzy, Double.lit (8 # 10))].
Proof.
  intros Hth. unfold findMatches.
  assert (findMatches_candidates "Fix login bug" loginTargets None
          = [mkCandidate "a1" "Fix login bug" 1 exact (Some "Exact name match");
             mkCandidate "a2" "Update login page" (Double.lit (8 # 10)) fuzzy
               (Some "50% keyword match in name");
             mkCandidate "a3" "Bug: login crash" (Double.lit (8 # 10)) fuzzy
               (Some "50% keyword match in name")]) as ->
    by (vm_compute; reflexivity).
  assert (Qge_bool 1 threshold = true) as H1.
  { apply Qle_bool_iff. eapply Qle_trans; [exact Hth|]. vm_compute. discriminate. }
  assert (Qge_bool (Double.lit (8 # 10)) threshold = true) as H2.
  { apply Qle_bool_iff. exact Hth. }
  cbn [List.filter confidence]. rewrite H1, H2. vm_compute. reflexivity.
Qed.

Lemma login_example_scores_witness :
  (Double.lit (6 # 10) <= Double.lit (8 # 10))%Q /\
  (fun c => (name c, matchMethod c, Qred (confidence c)))
    <$> findMatches "Fix login bug" loginTargets (Double.lit (6 # 10)) None
  = [("Fix login bug", exact, 1%Q);
     ("Update login page", fuzzy, Double.lit (8 # 10));
     ("Bug: login crash", fuzzy, Double.lit (8 # 10))].
Proof.
  split.
  - vm_compute. discriminate.
  - apply (login_example_scores (Double.lit (6 # 10))). vm_compute. discriminate.
Defined.

(** "Update login page" is not omitted: at both ends of the 0.5-0.7 band it
    is returned with confidence 0.8. *)
Lemma login_example_update_page_returned :
  (fun c => (name c, Qred (confidence c)))
    <$> findMatches "Fix login bug" loginTargets (Double.lit (5 # 10)) None
  = [("Fix login bug", 1%Q); ("Update login page", Double.lit (8 # 10));
     ("Bug: login crash", Double.lit (8 # 10))]
  /\ (fun c => (name c, Qred (confidence c)))
       <$> findMatches "Fix login bug" loginTargets (Double.lit (7 # 10)) None
     = [("Fix login bug", 1%Q); ("Update login page", Double.lit (8 # 10));
        ("Bug: login crash", Double.lit (8 # 10))].
Proof. split; vm_compute; reflexivity. Qed.

(** ** Greedy assignment *)

Lemma candidate_origin s d ts c :
  c ∈ findMatches_candidates s ts d -> exists t, t ∈ ts /\ gid c = mt_gid t.
Proof.
  intros (t & v & Ht & _ & Hg & _)%candidate_from_rule. eauto.
Qed.

Lemma headAbove_elem l m c : headAbove l m = Some c -> c ∈ l.
Proof.
  destruct l as [|x r]; simpl; [done|].
  destruct (Qge_bool _ _); [|done]. intros [= ->]. by left.
Qed.

Section Greedy.
Variable fuse : FuseSearch.
Hypothesis fuse_ok : fuse_sound fuse.

Lemma fuzzySearch_origin q ts th c :
  c ∈ fuzzySearch fuse q ts th -> exists t, t ∈ ts /\ gid c = mt_gid t.
Proof.
  unfold fuzzySearch. intros Hc.
  apply list_elem_of_In, in_map_iff in Hc as (r & <- & Hr).
  apply list_elem_of_In, (subseteq_take 5), fuse_ok in Hr. eauto.
Qed.

Lemma getBestMatch_origin s ts m d c :
  getBestMatch fuse s ts m d = Some c -> exists t, t ∈ ts /\ gid c = mt_gid t.
Proof.
  unfold getBestMatch. destruct (headAbove (findMatches _ _ _ _) _) eqn:E.
  - intros [= ->]. apply headAbove_elem, findMatches_subset in E as [E _].
    by eapply candidate_origin.
  - intros H. apply headAbove_elem in H. by eapply fuzzySearch_origin.
Qed.

(** One iteration either leaves the state alone, or pushes a suggestion
    for this source whose target was not yet used. *)
Lemma autoMatch_body_step matchable linkedP minC sugs used p :
  let st' := autoMatch_body fuse matchable linkedP minC (sugs, used) p in
  st' = (sugs, used)
  \/ exists sm, st' = (sugs ++ [sm], {[asanaTaskGid sm]} ∪ used)
                /\ planeTaskId sm = pt_id p /\ asanaTaskGid sm ∉ used.
Proof.
  cbv zeta. unfold autoMatch_body.
  destruct (bool_decide _); [by left|].
  destruct (length _ =? 0); [by left|].
  destruct (getBestMatch _ _ _ _ _) as [c|] eqn:E; [|by left].
  right.
  exists (mkSuggestion (pt_id p) (pt_name p) (gid c) (name c) (confidence c)
            (matchMethod c) (reasonOr (matchReason c))).
  split; [reflexivity|]. simpl. split; [done|].
  apply getBestMatch_origin in E as (t & Ht & ->).
  apply list_elem_of_In, filter_In in Ht as [_ Ht].
  apply negb_true_iff, bool_decide_eq_false in Ht. done.
Qed.

Lemma autoMatch_loop matchable linkedP minC ps sugs used :
  NoDup (asanaTaskGid <$> sugs) ->
  (forall sm, sm ∈ sugs -> asanaTaskGid sm ∈ used) ->
  let st' := fold_left (autoMatch_body fuse matchable linkedP minC) ps (sugs, used) in
  NoDup (asanaTaskGid <$> st'.1)
  /\ exists ids, planeTaskId <$> st'.1 = (planeTaskId <$> sugs) ++ ids
                 /\ ids `sublist_of` (pt_id <$> ps).
Proof.
  cbv zeta. revert sugs used.
  induction ps as [|p ps IH]; intros sugs used Hnd Hused; cbn [fold_left fst].
  - split; [done|]. exists []. by rewrite app_nil_r.
  - destruct (autoMatch_body_step matchable linkedP minC sugs used p)
      as [->|(sm & -> & Hid & Hfresh)].
    + destruct (IH sugs used Hnd Hused) as (H1 & ids & H2 & H3).
      split; [done|]. exists ids. split; [done|]. by apply sublist_cons.
    + destruct (IH (sugs ++ [sm]) ({[asanaTaskGid sm]} ∪ used))
        as (H1 & ids & H2 & H3).
      * rewrite fmap_app. apply NoDup_app. split; [done|]. split.
        -- intros g Hg [->|[]%elem_of_nil]%elem_of_cons.
           apply list_elem_of_fmap in Hg as (sm' & Heq & Hin).
           apply Hfresh. rewrite Heq. by apply Hused.
        -- apply NoDup_singleton.
      * intros sm' [Hin| ->%list_elem_of_singleton]%elem_of_app.
        -- apply elem_of_union_r. by apply Hused.
        -- apply elem_of_union_l. by apply elem_of_singleton.
      * split; [done|]. exists (pt_id p :: ids). split.
        -- rewrite H2, fmap_app, <- app_assoc. simpl. by rewrite Hid.
        -- by apply sublist_skip.
Qed.
End Greedy.

(** C2 (as amended).  For every input, whatever the sizes of the two lists,
    the list returned by [autoMatchAllTasks] never holds two suggestions with
    the same target identifier; and it never holds two suggestions with the
    same source identifier when no two source records of the input share
    their identifier.  Fuse.js is only assumed to return items of the
    collection it searches. *)
Theorem autoMatchAllTasks_distinct (fuse : FuseSearch)
    (planeTasks : list PlaneTask) (asanaTasks : list AsanaTask)
    (alreadyLinkedPlaneIds alreadyLinkedAsanaGids : gset string)
    (minConfidence : Q) :
  fuse_sound fuse ->
  let result := autoMatchAllTasks fuse planeTasks asanaTasks
                  alreadyLinkedPlaneIds alreadyLinkedAsanaGids minConfidence in
  NoDup (asanaTaskGid <$> result)
  /\ (NoDup (pt_id <$> planeTasks) -> NoDup (planeTaskId <$> result)).
Proof.
  intros Hfuse. cbv zeta. unfold autoMatchAllTasks.
  match goal with
  | |- context [fold_left (autoMatch_body fuse ?m ?lp ?mc) ?ps (?s0, ?u0)] =>
      destruct (autoMatch_loop fuse Hfuse m lp mc ps s0 u0)
        as (H1 & ids & H2 & H3);
      [constructor | by intros ? ?%elem_of_nil | ];
      destruct (fold_left (autoMatch_body fuse m lp mc) ps (s0, u0))
        as [suggestions used]
  end.
  simpl in *. split.
  - by rewrite sortDesc_perm.
  - intros Hnd. rewrite sortDesc_perm, H2. by eapply sublist_NoDup.
Qed.

Lemma fuseEverything_sound : fuse_sound fuseEverything.
Proof.
  intros coll th q r Hr. unfold fuseEverything in Hr.
  by apply list_elem_of_fmap in Hr as (t & -> & Ht).
Defined.

Lemma autoMatchAllTasks_distinct_witness :
  fuse_sound fuseEverything
  /\ NoDup (pt_id <$> somePlaneTasks)
  /\ NoDup (asanaTaskGid <$> autoMatchAllTasks fuseEverything somePlaneTasks
                               twinAsanaTasks ∅ ∅ (Double.lit (6 # 10)))
  /\ NoDup (planeTaskId <$> autoMatchAllTasks fuseEverything somePlaneTasks
                              twinAsanaTasks ∅ ∅ (Double.lit (6 # 10))).
Proof.
  assert (NoDup (pt_id <$> somePlaneTasks)) as Hnd.
  { unfold somePlaneTasks. simpl. apply NoDup_cons. split.
    - intros [=]%list_elem_of_singleton.
    - apply NoDup_singleton. }
  split; [exact fuseEverything_sound|]. split; [exact Hnd|].
  destruct (autoMatchAllTasks_distinct fuseEverything somePlaneTasks twinAsanaTasks
              ∅ ∅ (Double.lit (6 # 10)) fuseEverything_sound) as [H1 H2].
  split; [exact H1|exact (H2 Hnd)].
Defined.

(** Two source records that share the identifier "p1" are both matched, to
    the targets "a1" and "a2": the result holds the source "p1" twice. *)
Lemma autoMatchAllTasks_twin_sources :
  let result := autoMatchAllTasks fuseNothing twinPlaneTasks twinAsanaTasks
                  ∅ ∅ (Double.lit (6 # 10)) in
  planeTaskId <$> result = ["p1"; "p1"]
  /\ asanaTaskGid <$> result = ["a1"; "a2"]
  /\ ~ NoDup (planeTaskId <$> result).
Proof.
  cbv zeta.
  assert (planeTaskId <$> autoMatchAllTasks fuseNothing twinPlaneTasks
            twinAsanaTasks ∅ ∅ (Double.lit (6 # 10)) = ["p1"; "p1"]) as E
    by (vm_compute; reflexivity).
  split; [exact E|]. split; [vm_compute; reflexivity|].
  rewrite E. intros H. apply NoDup_cons in H as [H _]. apply H. by left.
Qed.

End MatchingProofs.

(** * Properties of change detection *)

Module ChangesProofs.
Import Changes.

(** ** The batched fetcher *)

Section FetchFacts.
Variable remote : Remote.
Variable projectId : string.
Variable onlyModified : option OnlyModified.

Local Abbreviation batchAt l i :=
  (flat_map (fetches onlyModified) (take BATCH_SIZE (drop i l))).

Lemma fetchLoop_exit fuel l i st :
  length l <= i -> fetchLoop remote projectId onlyModified fuel l i st = st.
Proof.
  intros Hi. destruct fuel; simpl; [done|].
  by rewrite (proj2 (Nat.ltb_ge _ _) Hi).
Qed.

(** A proof rule for the loop: [P] holds at the loop head, [Q] at the exit.
    With at least [length l - i] units of fuel the loop leaves through its
    exit test. *)
Lemma fetchLoop_rule (l : list Task) (P : nat -> FetchState -> Prop)
    (Q : FetchState -> Prop) :
  (forall i st, P i st -> length l <= i -> Q st) ->
  (forall i st, P i st -> i < length l -> i + BATCH_SIZE < length l ->
     P (i + BATCH_SIZE)
       (delay BATCH_DELAY (awaitAll remote projectId i (batchAt l i) st))) ->
  (forall i st, P i st -> i < length l -> length l <= i + BATCH_SIZE ->
     Q (awaitAll remote projectId i (batchAt l i) st)) ->
  forall fuel i st, length l <= i + fuel -> P i st ->
    Q (fetchLoop remote projectId onlyModified fuel l i st).
Proof.
  intros Hexit Hstep Hlast. induction fuel as [|fuel IH]; intros i st Hfuel HP.
  - simpl. apply (Hexit i); [done|lia].
  - cbn [fetchLoop]. destruct (Nat.ltb_spec i (length l)) as [Hi|Hi].
    + destruct (Nat.ltb_spec (i + BATCH_SIZE) (length l)) as [Hn|Hn].
      * apply IH; [unfold BATCH_SIZE in *; lia|by apply Hstep].
      * rewrite fetchLoop_exit by done. by apply Hlast.
    + by apply (Hexit i).
Qed.

Lemma settle_plane ps st x :
  planeComments (fold_left (settle remote projectId) ps st) !! x
  = if decide ((plane, x) ∈ ps) then Some (planeCount remote projectId x) else planeComments st !! x.
Proof.
  revert st. induction ps as [|[src y] ps IH]; intros st; cbn [fold_left].
  - by rewrite decide_False by apply not_elem_of_nil.
  - rewrite IH. destruct (decide ((plane, x) ∈ ps)) as [Hin|Hin].
    + rewrite decide_True; [done|by right].
    + destruct src; unfold settle; simpl.
      * destruct (decide (y = x)) as [->|Hne].
        -- rewrite decide_True by left. by rewrite lookup_insert_eq.
        -- rewrite lookup_insert_ne by done.
           rewrite decide_False; [done|].
           intros [[= ?]|?]%elem_of_cons; congruence.
      * rewrite decide_False; [done|].
        intros [[= ?]|?]%elem_of_cons; congruence.
Qed.

Lemma settle_asana ps st x :
  asanaComments (fold_left (settle remote projectId) ps st) !! x
  = if decide ((asana, x) ∈ ps) then Some (asanaCount remote x) else asanaComments st !! x.
Proof.
  revert st. induction ps as [|[src y] ps IH]; intros st; cbn [fold_left].
  - by rewrite decide_False by apply not_elem_of_nil.
  - rewrite IH. destruct (decide ((asana, x) ∈ ps)) as [Hin|Hin].
    + rewrite decide_True; [done|by right].
    + destruct src; unfold settle; simpl.
      * rewrite decide_False; [done|].
        intros [[= ?]|?]%elem_of_cons; congruence.
      * destruct (decide (y = x)) as [->|Hne].
        -- rewrite decide_True by left. by rewrite lookup_insert_eq.
        -- rewrite lookup_insert_ne by done.
           rewrite decide_False; [done|].
           intros [[= ?]|?]%elem_of_cons; congruence.
Qed.

Lemma awaitAll_countsFor l i st :
  countsFor remote projectId onlyModified (take i l) st ->
  countsFor remote projectId onlyModified (take (i + BATCH_SIZE) l)
            (awaitAll remote projectId i (batchAt l i) st).
Proof.
  intros (Hp & Ha & Hr). unfold countsFor.
  rewrite <- take_take_drop, flat_map_app.
  unfold awaitAll. cbn [planeComments asanaComments requests].
  split; [|split].
  - intros x. rewrite settle_plane, Hp.
    repeat case_decide; try done; set_solver.
  - intros x. rewrite settle_asana, Ha.
    repeat case_decide; try done; set_solver.
  - rewrite fmap_app, Hr. f_equal. rewrite <- list_fmap_compose.
    rewrite <- (list_fmap_id (batchAt l i)) at 2.
    apply list_fmap_ext. by intros _ [src x] _.
Qed.

Lemma fetch_countsFor (tasks : list Task) :
  countsFor remote projectId onlyModified (tasksToFetch onlyModified tasks)
            (fetchCommentCountsBatched remote projectId onlyModified tasks).
Proof.
  unfold fetchCommentCountsBatched. set (l := tasksToFetch onlyModified tasks).
  apply (fetchLoop_rule l (fun i st => countsFor remote projectId onlyModified (take i l) st)).
  - intros i st H Hi. by rewrite take_ge in H.
  - intros i st H _ _. apply awaitAll_countsFor in H.
    destruct H as (Hp & Ha & Hr). by split; [|split].
  - intros i st H _ Hi. apply awaitAll_countsFor in H.
    by rewrite take_ge in H.
  - lia.
  - split; [|split]; simpl; try done; intros x;
      rewrite lookup_empty; by rewrite decide_False by apply not_elem_of_nil.
Qed.

(** Which promises a task list gives rise to. *)
Lemma wanted_spec o sel :
  wanted o sel = true <->
  exists x, o = Some x /\ x <> "" /\
            match sel with Some ids => x ∈ ids | None => True end.
Proof.
  unfold wanted, truthy. destruct o as [x|]; simpl.
  - destruct (String.eqb_spec x "") as [->|Hne]; simpl.
    + split; [done|]. intros (y & [= <-] & H & _). done.
    + destruct sel as [ids|].
      * rewrite bool_decide_eq_true. naive_solver.
      * naive_solver.
  - split; [done|]. by intros (y & [=] & _).
Qed.

Lemma fetches_plane t x :
  (plane, x) ∈ fetches onlyModified t <->
  wanted (t_planeIssueId t) (planeIds <$> onlyModified) = true
  /\ t_planeIssueId t = Some x.
Proof.
  unfold fetches. rewrite elem_of_app.
  destruct (wanted (t_planeIssueId t) _) eqn:Ep,
           (wanted (t_asanaTaskGid t) _) eqn:Ea;
    rewrite ?list_elem_of_singleton, ?elem_of_nil;
    apply wanted_spec in Ep as (y & Hy & _) || clear Ep;
    try rewrite Hy; simpl; naive_solver.
Qed.

Lemma fetches_asana t x :
  (asana, x) ∈ fetches onlyModified t <->
  wanted (t_asanaTaskGid t) (asanaIds <$> onlyModified) = true
  /\ t_asanaTaskGid t = Some x.
Proof.
  unfold fetches. rewrite elem_of_app.
  destruct (wanted (t_planeIssueId t) _) eqn:Ep,
           (wanted (t_asanaTaskGid t) _) eqn:Ea;
    rewrite ?list_elem_of_singleton, ?elem_of_nil;
    apply wanted_spec in Ea as (y & Hy & _) || clear Ea;
    try rewrite Hy; simpl; naive_solver.
Qed.

Lemma wanted_inSet o (om : OnlyModified) (proj : OnlyModified -> gset string) :
  wanted o (proj <$> Some om) = inSet o (proj om).
Proof. done. Qed.

Lemma tasksToFetch_wanted tasks t :
  t ∈ tasks ->
  wanted (t_planeIssueId t) (planeIds <$> onlyModified) = true
  \/ wanted (t_asanaTaskGid t) (asanaIds <$> onlyModified) = true ->
  t ∈ tasksToFetch onlyModified tasks.
Proof.
  intros Ht Hw. unfold tasksToFetch. destruct onlyModified as [om|]; [|done].
  apply list_elem_of_In, filter_In. split; [by apply list_elem_of_In|].
  rewrite !wanted_inSet in Hw. apply orb_true_iff. done.
Qed.

Lemma tasksToFetch_subset tasks t :
  t ∈ tasksToFetch onlyModified tasks -> t ∈ tasks.
Proof.
  unfold tasksToFetch. destruct onlyModified; [|done].
  intros H. apply list_elem_of_In, filter_In in H as [H _].
  by apply list_elem_of_In.
Qed.

Lemma promised_plane tasks x :
  (plane, x) ∈ flat_map (fetches onlyModified) (tasksToFetch onlyModified tasks)
  <-> exists t, t ∈ tasks /\ t_planeIssueId t = Some x
                /\ wanted (t_planeIssueId t) (planeIds <$> onlyModified) = true.
Proof.
  rewrite list_elem_of_In, in_flat_map. split.
  - intros (t & Ht & Hx). apply list_elem_of_In, fetches_plane in Hx as [Hw Hx].
    apply list_elem_of_In, tasksToFetch_subset in Ht. eauto.
  - intros (t & Ht & Hx & Hw). exists t. split.
    + apply list_elem_of_In, tasksToFetch_wanted; auto.
    + by apply list_elem_of_In, fetches_plane.
Qed.

Lemma promised_asana tasks x :
  (asana, x) ∈ flat_map (fetches onlyModified) (tasksToFetch onlyModified tasks)
  <-> exists t, t ∈ tasks /\ t_asanaTaskGid t = Some x
                /\ wanted (t_asanaTaskGid t) (asanaIds <$> onlyModified) = true.
Proof.
  rewrite list_elem_of_In, in_flat_map. split.
  - intros (t & Ht & Hx). apply list_elem_of_In, fetches_asana in Hx as [Hw Hx].
    apply list_elem_of_In, tasksToFetch_subset in Ht. eauto.
  - intros (t & Ht & Hx & Hw). exists t. split.
    + apply list_elem_of_In, tasksToFetch_wanted; auto.
    + by apply list_elem_of_In, fetches_asana.
Qed.

(** ** Failure isolation *)

Lemma fetch_plane_lookup tasks x c :
  planeComments (fetchCommentCountsBatched remote projectId onlyModified tasks) !! x
  = Some c
  <-> (exists t, t ∈ tasks /\ t_planeIssueId t = Some x
                 /\ wanted (t_planeIssueId t) (planeIds <$> onlyModified) = true)
      /\ c = planeCount remote projectId x.
Proof.
  destruct (fetch_countsFor tasks) as (Hp & _ & _). rewrite Hp.
  rewrite <- promised_plane. case_decide; naive_solver.
Qed.

Lemma fetch_asana_lookup tasks x c :
  asanaComments (fetchCommentCountsBatched remote projectId onlyModified tasks) !! x
  = Some c
  <-> (exists t, t ∈ tasks /\ t_asanaTaskGid t = Some x
                 /\ wanted (t_asanaTaskGid t) (asanaIds <$> onlyModified) = true)
      /\ c = asanaCount remote x.
Proof.
  destruct (fetch_countsFor tasks) as (_ & Ha & _). rewrite Ha.
  rewrite <- promised_asana. case_decide; naive_solver.
Qed.

Lemma fetch_requested tasks src x :
  requested src x (fetchCommentCountsBatched remote projectId onlyModified tasks)
  <-> (src, x) ∈ flat_map (fetches onlyModified) (tasksToFetch onlyModified tasks).
Proof.
  destruct (fetch_countsFor tasks) as (_ & _ & Hr). rewrite <- Hr.
  unfold requested. rewrite list_elem_of_fmap. split.
  - intros (r & Hin & <- & <-). eauto.
  - intros (r & [= -> ->] & Hin). eauto.
Qed.

(** ** Pacing of the batches *)

Lemma filter_none {A} (P : A -> Prop) `{forall x, Decision (P x)} (l : list A) :
  (forall x, x ∈ l -> ~ P x) -> filter P l = [].
Proof.
  induction l as [|a l IH]; intros Hl; [done|].
  rewrite filter_cons, decide_False by (apply Hl; left).
  apply IH. intros x Hx. apply Hl. by right.
Qed.

Lemma fetches_length t : length (fetches onlyModified t) <= 2.
Proof.
  unfold fetches. rewrite length_app.
  destruct (wanted _ _), (wanted _ _); simpl; lia.
Qed.

Lemma batch_length (batch : list Task) :
  length (flat_map (fetches onlyModified) batch) <= 2 * length batch.
Proof.
  induction batch as [|t b IH]; simpl; [lia|].
  rewrite length_app. pose proof (fetches_length t). lia.
Qed.

Lemma batch_side_length (mk : Source * string -> Request) (j : nat)
    (src : Source) (batch : list Task) :
  (forall p, rq_source (mk p) = p.1) ->
  length (filter (fun r => rq_batch r = j /\ rq_source r = src)
                 (mk <$> flat_map (fetches onlyModified) batch))
  <= length batch.
Proof.
  intros Hmk. induction batch as [|t b IH]; simpl; [done|].
  rewrite fmap_app, filter_app, length_app.
  enough (length (filter (fun r => rq_batch r = j /\ rq_source r = src)
                         (mk <$> fetches onlyModified t)) <= 1) by lia.
  unfold fetches.
  destruct (wanted _ _), (wanted _ _); simpl;
    rewrite ?filter_cons, ?filter_nil; repeat case_decide; simpl; try lia.
  destruct_and!. rewrite !Hmk in *. simpl in *. congruence.
Qed.

Lemma awaitAll_paced l i st :
  rested i st -> paced (requests st) ->
  paced (requests (awaitAll remote projectId i (batchAt l i) st)).
Proof.
  intros Hrest (Hall & Hside & Hdur & Hsame & Hseq).
  unfold awaitAll. cbn [requests].
  set (mk := fun p : Source * string =>
               mkRequest i p.1 p.2 (clock st) (clock st + latency remote p)).
  set (batch := take BATCH_SIZE (drop i l)).
  assert (length batch <= 3) as Hb
    by (unfold batch, BATCH_SIZE; rewrite length_take; lia).
  assert (forall r, r ∈ mk <$> flat_map (fetches onlyModified) batch ->
            rq_batch r = i /\ rq_start r = clock st /\ rq_start r <= rq_settle r)
    as Hnew.
  { intros r (p & -> & _)%list_elem_of_fmap. simpl. lia. }
  split; [|split; [|split; [|split]]].
  - intros j. rewrite filter_app, length_app. destruct (decide (j = i)) as [->|Hj].
    + rewrite (filter_none _ (requests st)); simpl.
      * etrans; [apply length_filter|]. rewrite length_fmap.
        etrans; [apply batch_length|]. unfold BATCH_SIZE. lia.
      * intros r Hr. apply Hrest in Hr. lia.
    + rewrite (filter_none _ (mk <$> _)).
      * simpl. rewrite Nat.add_0_r. apply Hall.
      * intros r Hr. apply Hnew in Hr. lia.
  - intros j src. rewrite filter_app, length_app.
    destruct (decide (j = i)) as [->|Hj].
    + rewrite (filter_none _ (requests st)); simpl.
      * etrans; [by apply batch_side_length|]. unfold BATCH_SIZE. lia.
      * intros r Hr. apply Hrest in Hr. lia.
    + rewrite (filter_none _ (mk <$> _)).
      * simpl. rewrite Nat.add_0_r. apply Hside.
      * intros r Hr. apply Hnew in Hr. lia.
  - intros r [Hr|Hr]%elem_of_app; [by apply Hdur|]. apply Hnew in Hr. tauto.
  - intros r1 r2 [H1|H1]%elem_of_app [H2|H2]%elem_of_app Heq.
    + by apply Hsame.
    + apply Hrest in H1. apply Hnew in H2. lia.
    + apply Hrest in H2. apply Hnew in H1. lia.
    + apply Hnew in H1, H2. lia.
  - intros r1 r2 [H1|H1]%elem_of_app [H2|H2]%elem_of_app Hlt.
    + by apply Hseq.
    + apply Hrest in H1. apply Hnew in H2. lia.
    + apply Hrest in H2. apply Hnew in H1. lia.
    + apply Hnew in H1, H2. lia.
Qed.

Lemma awaitAll_rested l i st :
  rested i st ->
  rested (i + BATCH_SIZE)
         (delay BATCH_DELAY (awaitAll remote projectId i (batchAt l i) st)).
Proof.
  intros Hrest r. unfold delay, awaitAll, BATCH_SIZE. cbn [requests clock].
  intros [Hr|Hr]%elem_of_app.
  - apply Hrest in Hr. lia.
  - apply list_elem_of_fmap in Hr as (p & -> & Hp). simpl.
    assert (latency remote p <= max_list (latency remote <$> batchAt l i)).
    { apply max_list_elem_of_le. by apply list_elem_of_fmap_2. }
    unfold BATCH_SIZE in *. lia.
Qed.

Lemma fetch_paced tasks :
  paced (requests (fetchCommentCountsBatched remote projectId onlyModified tasks)).
Proof.
  unfold fetchCommentCountsBatched. set (l := tasksToFetch onlyModified tasks).
  apply (fetchLoop_rule l (fun i st => rested i st /\ paced (requests st))).
  - by intros i st [_ H] _.
  - intros i st [Hr Hp] _ _. split.
    + by apply awaitAll_rested.
    + unfold delay. cbn [requests]. by apply awaitAll_paced.
  - intros i st [Hr Hp] _ _. by apply awaitAll_paced.
  - lia.
  - split.
    + by intros r ?%elem_of_nil.
    + unfold paced. simpl. repeat split; intros; try lia;
        match goal with H : _ ∈ [] |- _ => by apply elem_of_nil in H end.
Qed.

End FetchFacts.

(** C9.  A failed fetch never aborts the batch or the call: every
    identifier the fetcher has to fetch ends up in the result, with the
    length of the list on success and with 0 when its own request failed,
    whatever happens to the requests of the other identifiers.  Called with
    an empty pair list the fetcher issues no request and returns two empty
    mappings. *)
Theorem fetch_failure_isolated (remote : Remote) (projectId : string)
    (onlyModified : option OnlyModified) (tasks : list Task) :
  let result := fetchCommentCountsBatched remote projectId onlyModified tasks in
  (forall t x, t ∈ tasks -> t_planeIssueId t = Some x ->
     wanted (t_planeIssueId t) (planeIds <$> onlyModified) = true ->
     planeComments result !! x
     = Some (match listComments remote projectId x with
             | Some n => n
             | None => 0
             end))
  /\ (forall t x, t ∈ tasks -> t_asanaTaskGid t = Some x ->
        wanted (t_asanaTaskGid t) (asanaIds <$> onlyModified) = true ->
        asanaComments result !! x
        = Some (match listTaskStories remote x with
                | Some n => n
                | None => 0
                end))
  /\ fetchCommentCountsBatched remote projectId onlyModified []
     = mkFetchState ∅ ∅ 0 [].
Proof.
  cbv zeta. split; [|split].
  - intros t x Ht Hx Hw. apply fetch_plane_lookup. split; [eauto|].
    unfold planeCount. by destruct (listComments _ _ _).
  - intros t x Ht Hx Hw. apply fetch_asana_lookup. split; [eauto|].
    unfold asanaCount. by destruct (listTaskStories _ _).
  - unfold fetchCommentCountsBatched, tasksToFetch. by destruct onlyModified.
Qed.

Lemma fetch_failure_isolated_witness :
  let result := fetchCommentCountsBatched demoRemote "proj" None fourPairs in
  listComments demoRemote "proj" "i1" = None
  /\ planeComments result !! "i1" = Some 0
  /\ planeComments result !! "i2" = Some 4
  /\ listTaskStories demoRemote "g2" = None
  /\ asanaComments result !! "g2" = Some 0
  /\ asanaComments result !! "g1" = Some 2.
Proof.
  cbv zeta.
  destruct (fetch_failure_isolated demoRemote "proj" None fourPairs) as (Hp & Ha & _).
  split; [reflexivity|]. split.
  { apply (Hp (mkTask (Some "i1") (Some "g1")) "i1"); [by left|done..]. }
  split.
  { apply (Hp (mkTask (Some "i2") (Some "g2")) "i2"); [by right; left|done..]. }
  split; [reflexivity|]. split.
  { apply (Ha (mkTask (Some "i2") (Some "g2")) "g2"); [by right; left|done..]. }
  apply (Ha (mkTask (Some "i1") (Some "g1")) "g1"); [by left|done..].
Defined.

(** C4 (as amended).  A batch holds at most 3 pairs and issues a request per
    side of a pair, so at most 3 requests per remote system and at most 6 in
    all, which start together.  Batches run strictly one after the other
    with the fixed delay of 1500 ms between them: a request of a later batch
    never starts before every request of an earlier batch has settled and
    the delay has elapsed after that. *)
Theorem fetch_batches_paced (remote : Remote) (projectId : string)
    (onlyModified : option OnlyModified) (tasks : list Task) :
  let reqs := requests (fetchCommentCountsBatched remote projectId
                          onlyModified tasks) in
  (forall i, length (filter (fun r => rq_batch r = i) reqs) <= 6)
  /\ (forall i src,
        length (filter (fun r => rq_batch r = i /\ rq_source r = src) reqs) <= 3)
  /\ (forall r1 r2, r1 ∈ reqs -> r2 ∈ reqs -> rq_batch r1 = rq_batch r2 ->
        rq_start r1 = rq_start r2)
  /\ (forall r1 r2, r1 ∈ reqs -> r2 ∈ reqs -> rq_batch r1 < rq_batch r2 ->
        rq_start r1 <= rq_settle r1 /\ rq_settle r1 + 1500 <= rq_start r2).
Proof.
  cbv zeta.
  destruct (fetch_paced remote projectId onlyModified tasks)
    as (Hall & Hside & Hdur & Hsame & Hseq).
  split; [exact Hall|]. split; [exact Hside|]. split; [exact Hsame|].
  intros r1 r2 H1 H2 Hlt. split; [by apply Hdur|]. by apply Hseq.
Qed.

Lemma fetch_batches_paced_witness :
  let reqs := requests (fetchCommentCountsBatched demoRemote "proj" None fourPairs) in
  let first := mkRequest 0 asana "g1" 0 400 in
  let later := mkRequest 3 plane "i4" 1900 2150 in
  first ∈ reqs /\ later ∈ reqs /\ rq_batch first < rq_batch later
  /\ rq_start first <= rq_settle first
  /\ rq_settle first + 1500 <= rq_start later.
Proof.
  cbv zeta.
  assert (mkRequest 0 asana "g1" 0 400
            ∈ requests (fetchCommentCountsBatched demoRemote "proj" None fourPairs))
    as H1 by (vm_compute; right; left).
  assert (mkRequest 3 plane "i4" 1900 2150
            ∈ requests (fetchCommentCountsBatched demoRemote "proj" None fourPairs))
    as H2 by (vm_compute; do 6 right; left).
  assert (rq_batch (mkRequest 0 asana "g1" 0 400)
          < rq_batch (mkRequest 3 plane "i4" 1900 2150)) as Hlt by (simpl; lia).
  split; [exact H1|]. split; [exact H2|]. split; [exact Hlt|].
  destruct (fetch_batches_paced demoRemote "proj" None fourPairs) as (_ & _ & _ & H).
  exact (H _ _ H1 H2 Hlt).
Defined.

(** The first batch of three fully linked pairs issues six concurrent
    requests, not three. *)
Lemma fetch_first_batch_six_requests :
  length (filter (fun r => rq_batch r = 0)
            (requests (fetchCommentCountsBatched demoRemote "proj" None fourPairs)))
  = 6.
Proof. vm_compute. reflexivity. Qed.

(** ** The first pass of the detection *)

Section FirstPass.
Variable remote : Remote.
Variable planeIssueMap : gmap string PlaneIssue.
Variable asanaTaskMap : gmap string AsanaTask.

Local Abbreviation body := (firstPass_body planeIssueMap asanaTaskMap).
Local Abbreviation trackedBy := (tracked planeIssueMap asanaTaskMap).

Lemma truthy_Some o : truthy o = true -> exists x, o = Some x /\ x <> "".
Proof.
  destruct o as [x|]; simpl; [|done]. intros H. exists x. split; [done|].
  intros ->. done.
Qed.


Lemma firstPass_body_plane st tm x :
  x ∈ (body st tm).1 <->
  x ∈ st.1 \/ (tm_planeIssueId tm = Some x /\ exists issue task snap,
                 trackedBy tm issue task snap /\ planeModified issue snap = true).
Proof.
  unfold firstPass_body, tracked.
  destruct (truthy (tm_planeIssueId tm)) eqn:Ep; simpl; [|naive_solver].
  destruct (truthy (tm_asanaTaskGid tm)) eqn:Ea; simpl; [|naive_solver].
  apply truthy_Some in Ep as (p & Hp & _). rewrite Hp. simpl.
  destruct (planeIssueMap !! p) as [issue|]; [|naive_solver].
  destruct (asanaTaskMap !! _) as [task|]; [|naive_solver].
  destruct (tm_snapshot tm) as [snap|]; [|naive_solver].
  destruct (planeModified issue snap) eqn:Em,
    (bool_decide_reflect (asanaCommentsCount snap <> None)); simpl;
    rewrite ?elem_of_union, ?elem_of_singleton;
    (split;
     [ intros; destruct_or?; simplify_eq;
       first [by left | right; split; [done|]; by exists issue, task, snap]
     | intros [?|(? & ? & ? & ? & (_ & _ & ? & ? & ?) & ?)]; simplify_eq;
       first [by left | by right | congruence | tauto] ]).
Qed.

Lemma firstPass_body_asana st tm x :
  x ∈ (body st tm).2 <->
  x ∈ st.2 \/ (tm_asanaTaskGid tm = Some x /\ exists issue task snap,
                 trackedBy tm issue task snap /\ asanaCommentsCount snap <> None).
Proof.
  unfold firstPass_body, tracked.
  destruct (truthy (tm_planeIssueId tm)) eqn:Ep; simpl; [|naive_solver].
  destruct (truthy (tm_asanaTaskGid tm)) eqn:Ea; simpl; [|naive_solver].
  apply truthy_Some in Ea as (g & Hg & _). rewrite Hg. simpl.
  destruct (planeIssueMap !! _) as [issue|]; [|naive_solver].
  destruct (asanaTaskMap !! g) as [task|]; [|naive_solver].
  destruct (tm_snapshot tm) as [snap|]; [|naive_solver].
  destruct (planeModified issue snap) eqn:Em,
    (bool_decide_reflect (asanaCommentsCount snap <> None)); simpl;
    rewrite ?elem_of_union, ?elem_of_singleton;
    (split;
     [ intros; destruct_or?; simplify_eq;
       first [by left | right; split; [done|]; by exists issue, task, snap]
     | intros [?|(? & ? & ? & ? & (_ & _ & ? & ? & ?) & ?)]; simplify_eq;
       first [by left | by right | congruence | tauto] ]).
Qed.

Lemma firstPass_plane tms x :
  x ∈ (firstPass planeIssueMap asanaTaskMap tms).1 <->
  exists tm issue task snap,
    tm ∈ tms /\ tm_planeIssueId tm = Some x
    /\ trackedBy tm issue task snap /\ planeModified issue snap = true.
Proof.
  unfold firstPass.
  enough (forall st, x ∈ (fold_left body tms st).1 <->
            x ∈ st.1 \/ exists tm issue task snap,
              tm ∈ tms /\ tm_planeIssueId tm = Some x
              /\ trackedBy tm issue task snap /\ planeModified issue snap = true)
    as H by (rewrite H; simpl; rewrite elem_of_empty; naive_solver).
  induction tms as [|tm tms IH]; intros st; cbn [fold_left].
  - split; [auto|]. intros [H|(tm & ? & ? & ? & []%elem_of_nil & _)]. done.
  - rewrite IH, firstPass_body_plane. split.
    + intros [[H|(Hx & i & t & sn & H)]|(tm' & i & t & sn & Hin & H)]; [by left|..];
        right; [exists tm|exists tm']; exists i, t, sn;
        (split; [by constructor|done]).
    + intros [H|(tm' & i & t & sn & [->|Hin]%elem_of_cons & Hx & H)]; [by do 2 left|..].
      * left. right. split; [done|]. by exists i, t, sn.
      * right. by exists tm', i, t, sn.
Qed.

Lemma firstPass_asana tms x :
  x ∈ (firstPass planeIssueMap asanaTaskMap tms).2 <->
  exists tm issue task snap,
    tm ∈ tms /\ tm_asanaTaskGid tm = Some x
    /\ trackedBy tm issue task snap /\ asanaCommentsCount snap <> None.
Proof.
  unfold firstPass.
  enough (forall st, x ∈ (fold_left body tms st).2 <->
            x ∈ st.2 \/ exists tm issue task snap,
              tm ∈ tms /\ tm_asanaTaskGid tm = Some x
              /\ trackedBy tm issue task snap /\ asanaCommentsCount snap <> None)
    as H by (rewrite H; simpl; rewrite elem_of_empty; naive_solver).
  induction tms as [|tm tms IH]; intros st; cbn [fold_left].
  - split; [auto|]. intros [H|(tm & ? & ? & ? & []%elem_of_nil & _)]. done.
  - rewrite IH, firstPass_body_asana. split.
    + intros [[H|(Hx & i & t & sn & H)]|(tm' & i & t & sn & Hin & H)]; [by left|..];
        right; [exists tm|exists tm']; exists i, t, sn;
        (split; [by constructor|done]).
    + intros [H|(tm' & i & t & sn & [->|Hin]%elem_of_cons & Hx & H)]; [by do 2 left|..].
      * left. right. split; [done|]. by exists i, t, sn.
      * right. by exists tm', i, t, sn.
Qed.

(** What [fetchModified] asks for and what it brings back. *)
Lemma fetchModified_plane projectId tms x :
  (requested plane x (fetchModified remote planeIssueMap asanaTaskMap projectId tms)
   <-> x ∈ (firstPass planeIssueMap asanaTaskMap tms).1)
  /\ (forall c,
        planeComments (fetchModified remote planeIssueMap asanaTaskMap projectId tms)
          !! x = Some c
        <-> x ∈ (firstPass planeIssueMap asanaTaskMap tms).1
            /\ c = planeCount remote projectId x).
Proof.
  pose proof (firstPass_plane tms x) as Hfp. unfold fetchModified.
  destruct (firstPass planeIssueMap asanaTaskMap tms) as [mp ai]. simpl in *.
  assert ((exists t, t ∈ toTask <$> tms /\ t_planeIssueId t = Some x
             /\ wanted (t_planeIssueId t)
                  (planeIds <$> Some (mkOnlyModified mp ai)) = true)
          <-> x ∈ mp) as Hw.
  { split.
    - intros (t & _ & Hx & (y & Hy & _ & Hin)%wanted_spec). simpl in Hin. congruence.
    - intros Hin. destruct (proj1 Hfp Hin) as (tm & i & t & sn & Htm & Hx & Htr & _).
      exists (toTask tm). split; [by apply list_elem_of_fmap_2|]. split; [done|].
      apply wanted_spec. exists x. simpl. split; [done|]. split; [|done].
      destruct Htr as (Hp & _). rewrite Hx in Hp.
      by apply truthy_Some in Hp as (? & [= <-] & ?). }
  destruct ((0 <? size mp) || (0 <? size ai)) eqn:E.
  - split.
    + by rewrite fetch_requested, promised_plane.
    + intros c. rewrite fetch_plane_lookup. by rewrite Hw.
  - apply orb_false_iff in E as [E _]. apply Nat.ltb_ge in E.
    assert (mp = ∅) as -> by (apply leibniz_equiv, size_empty_inv; lia).
    split.
    + split; [by intros (r & []%elem_of_nil & _)|by intros ?%elem_of_empty].
    + intros c. simpl. rewrite lookup_empty. split; [done|].
      by intros [?%elem_of_empty _].
Qed.

Lemma fetchModified_asana projectId tms x :
  (requested asana x (fetchModified remote planeIssueMap asanaTaskMap projectId tms)
   <-> x ∈ (firstPass planeIssueMap asanaTaskMap tms).2)
  /\ (forall c,
        asanaComments (fetchModified remote planeIssueMap asanaTaskMap projectId tms)
          !! x = Some c
        <-> x ∈ (firstPass planeIssueMap asanaTaskMap tms).2
            /\ c = asanaCount remote x).
Proof.
  pose proof (firstPass_asana tms x) as Hfp. unfold fetchModified.
  destruct (firstPass planeIssueMap asanaTaskMap tms) as [mp ai]. simpl in *.
  assert ((exists t, t ∈ toTask <$> tms /\ t_asanaTaskGid t = Some x
             /\ wanted (t_asanaTaskGid t)
                  (asanaIds <$> Some (mkOnlyModified mp ai)) = true)
          <-> x ∈ ai) as Hw.
  { split.
    - intros (t & _ & Hx & (y & Hy & _ & Hin)%wanted_spec). simpl in Hin. congruence.
    - intros Hin. destruct (proj1 Hfp Hin) as (tm & i & t & sn & Htm & Hx & Htr & _).
      exists (toTask tm). split; [by apply list_elem_of_fmap_2|]. split; [done|].
      apply wanted_spec. exists x. simpl. split; [done|]. split; [|done].
      destruct Htr as (_ & Hg & _). rewrite Hx in Hg.
      by apply truthy_Some in Hg as (? & [= <-] & ?). }
  destruct ((0 <? size mp) || (0 <? size ai)) eqn:E.
  - split.
    + by rewrite fetch_requested, promised_asana.
    + intros c. rewrite fetch_asana_lookup. by rewrite Hw.
  - apply orb_false_iff in E as [_ E]. apply Nat.ltb_ge in E.
    assert (ai = ∅) as -> by (apply leibniz_equiv, size_empty_inv; lia).
    split.
    + split; [by intros (r & []%elem_of_nil & _)|by intros ?%elem_of_empty].
    + intros c. simpl. rewrite lookup_empty. split; [done|].
      by intros [?%elem_of_empty _].
Qed.

End FirstPass.


(** ** The linked pairs of a mapping *)

Lemma filter_sublist {A} (f : A -> bool) (l : list A) : List.filter f l `sublist_of` l.
Proof.
  induction l as [|a l IH]; simpl; [done|].
  destruct (f a); [by apply sublist_skip|by apply sublist_cons].
Qed.

Lemma findLinked_ids db m : tm_id <$> findLinked db m
  = (List.filter (isLinkedRow m) (map_to_list (taskMapping db))).*1.
Proof. unfold findLinked. rewrite <- list_fmap_compose. done. Qed.

Lemma findLinked_NoDup db m : NoDup (tm_id <$> findLinked db m).
Proof.
  rewrite findLinked_ids.
  apply (sublist_NoDup _ ((map_to_list (taskMapping db)).*1)).
  - apply NoDup_fst_map_to_list.
  - apply fmap_sublist, filter_sublist.
Qed.

Lemma findLinked_snapshot db m tm :
  tm ∈ findLinked db m -> tm_snapshot tm = taskSnapshot db !! tm_id tm.
Proof. unfold findLinked. by intros (kv & -> & _)%list_elem_of_fmap. Qed.

(** The same rows are linked after the snapshot table has changed; only the
    attached snapshots differ. *)
Lemma findLinked_same_rows db db' m tm' :
  taskMapping db' = taskMapping db -> tm' ∈ findLinked db' m ->
  exists tm, tm ∈ findLinked db m /\ tm_id tm = tm_id tm'
             /\ tm_planeIssueId tm = tm_planeIssueId tm'
             /\ tm_asanaTaskGid tm = tm_asanaTaskGid tm'.
Proof.
  unfold findLinked. intros -> (kv & -> & Hkv)%list_elem_of_fmap.
  eexists. split; [by eapply list_elem_of_fmap_2|done].
Qed.

Lemma findLinked_length db db' m :
  taskMapping db' = taskMapping db ->
  length (findLinked db' m) = length (findLinked db m).
Proof. unfold findLinked. intros ->. by rewrite !length_fmap. Qed.

Lemma NoDup_fmap_eq {A B} (f : A -> B) (l : list A) x y :
  NoDup (f <$> l) -> x ∈ l -> y ∈ l -> f x = f y -> x = y.
Proof.
  induction l as [|a l IH]; simpl; [by intros _ ?%elem_of_nil|].
  intros [Ha Hnd]%NoDup_cons [->|Hx]%elem_of_cons [->|Hy]%elem_of_cons Heq;
    [done|..|by apply IH].
  - exfalso. apply Ha. rewrite Heq. by apply list_elem_of_fmap_2.
  - exfalso. apply Ha. rewrite <- Heq. by apply list_elem_of_fmap_2.
Qed.

Lemma find_unique (tms : list LinkedTask) tm :
  NoDup (tm_id <$> tms) -> tm ∈ tms ->
  List.find (fun t => String.eqb (tm_id t) (tm_id tm)) tms = Some tm.
Proof.
  intros Hnd Hin. destruct (List.find _ tms) as [t|] eqn:E.
  - apply find_some in E as [Ht E]. apply String.eqb_eq in E.
    f_equal. eapply NoDup_fmap_eq; [exact Hnd|by apply list_elem_of_In|done..].
  - eapply find_none in E; [|by apply list_elem_of_In].
    by rewrite String.eqb_refl in E.
Qed.

Lemma distinct_elem (xs : list string) x : x ∈ distinct xs <-> x ∈ xs.
Proof.
  unfold distinct.
  enough (forall acc, x ∈ fold_left (fun acc x => if bool_decide (x ∈ acc)
                                        then acc else acc ++ [x]) xs acc
                      <-> x ∈ acc \/ x ∈ xs) as H.
  { rewrite H. split; [by intros [?%elem_of_nil|]|auto]. }
  induction xs as [|y xs IH]; intros acc; cbn [fold_left].
  - split; [auto|by intros [|?%elem_of_nil]].
  - rewrite IH, elem_of_cons. case_bool_decide as Hy.
    + split; [intros [?|?]; auto|intros [?|[->|?]]; auto].
    + rewrite elem_of_app, list_elem_of_singleton. tauto.
Qed.

(** ** The second pass and the snapshot update *)

Section DetectFacts.
Variable remote : Remote.
Variable planeIssueMap : gmap string PlaneIssue.
Variable asanaTaskMap : gmap string AsanaTask.
Variable commentCounts : FetchState.

Local Abbreviation detect := (detect_body remote planeIssueMap asanaTaskMap commentCounts).
Local Abbreviation row tm := (detect ([], [], 0) tm).
Local Abbreviation trackedBy := (tracked planeIssueMap asanaTaskMap).
Local Abbreviation stamp tm planeIssue asanaTask :=
  (mkChange (tm_id tm) (tm_planeIssueId tm) (Some (pi_name planeIssue))
            (tm_asanaTaskGid tm) (Some (at_name asanaTask))).

Lemma detect_body_app pc ac mc tm :
  detect (pc, ac, mc) tm
  = (pc ++ (row tm).1.1, ac ++ (row tm).1.2, mc + (row tm).2).
Proof.
  unfold detect_body.
  repeat match goal with
         | |- context [if ?b then _ else _] => destruct b
         | |- context [match ?o with Some _ => _ | None => _ end] => destruct o
         end; simpl; rewrite ?app_nil_r; f_equal; lia.
Qed.

Lemma detect_fold tms pc ac mc :
  exists n,
    fold_left detect tms (pc, ac, mc)
    = (pc ++ flat_map (fun tm => (row tm).1.1) tms,
       ac ++ flat_map (fun tm => (row tm).1.2) tms, n).
Proof.
  revert pc ac mc. induction tms as [|tm tms IH]; intros pc ac mc; cbn [fold_left].
  - exists mc. by rewrite !app_nil_r.
  - rewrite detect_body_app. destruct (IH (pc ++ (row tm).1.1)
      (ac ++ (row tm).1.2) (mc + (row tm).2)) as [n ->].
    exists n. simpl. by rewrite !app_assoc.
Qed.

(** The three shapes of what one pair contributes. *)
Lemma row_cases tm :
  (row tm).1 = ([], [])
  \/ (exists planeIssue asanaTask snapshot,
        trackedBy tm planeIssue asanaTask snapshot
        /\ (row tm).1
           = (planeDiff commentCounts (stamp tm planeIssue asanaTask)
                        tm planeIssue snapshot,
              asanaDiff commentCounts (stamp tm planeIssue asanaTask)
                        tm asanaTask snapshot))
  \/ (tm_snapshot tm = None
      /\ truthy (tm_planeIssueId tm) = true /\ truthy (tm_asanaTaskGid tm) = true
      /\ is_Some (planeIssueMap !! orEmpty (tm_planeIssueId tm))
      /\ is_Some (asanaTaskMap !! orEmpty (tm_asanaTaskGid tm))
      /\ exists c, (row tm).1 = ([c], []) /\ field c = "new"
                   /\ taskMappingId c = tm_id tm).
Proof.
  unfold detect_body, tracked.
  destruct (truthy (tm_planeIssueId tm)); simpl; [|by left].
  destruct (truthy (tm_asanaTaskGid tm)); simpl; [|by left].
  destruct (planeIssueMap !! _) as [issue|]; [|by left].
  destruct (asanaTaskMap !! _) as [task|]; [|by left].
  destruct (tm_snapshot tm) as [snap|].
  - right. left. by exists issue, task, snap.
  - right. right. repeat (split; [done|]). eexists. by split.
Qed.

Lemma row_tracked tm planeIssue asanaTask snapshot :
  trackedBy tm planeIssue asanaTask snapshot ->
  (row tm).1
  = (planeDiff commentCounts (stamp tm planeIssue asanaTask) tm planeIssue snapshot,
     asanaDiff commentCounts (stamp tm planeIssue asanaTask) tm asanaTask snapshot).
Proof.
  intros (Hp & Ha & Hi & Ht & Hs). unfold detect_body.
  by rewrite Hp, Ha, Hi, Ht, Hs.
Qed.

Lemma planeDiff_fields mk tm planeIssue snapshot c :
  c ∈ planeDiff commentCounts mk tm planeIssue snapshot ->
  exists f o n s t, c = mk f o n s t /\ f <> "new".
Proof.
  unfold planeDiff. rewrite !elem_of_app.
  repeat match goal with
         | |- context [if ?b then _ else _] => destruct b
         | |- context [match ?o with Some _ => _ | None => _ end] => destruct o
         end;
    rewrite ?list_elem_of_singleton, ?elem_of_nil;
    intros H; destruct_or?; try done; subst; do 5 eexists; by split.
Qed.

Lemma asanaDiff_fields mk tm asanaTask snapshot c :
  c ∈ asanaDiff commentCounts mk tm asanaTask snapshot ->
  exists f o n s t, c = mk f o n s t /\ f <> "new".
Proof.
  unfold asanaDiff. rewrite !elem_of_app.
  repeat match goal with
         | |- context [if ?b then _ else _] => destruct b
         | |- context [match ?o with Some _ => _ | None => _ end] => destruct o
         end;
    rewrite ?list_elem_of_singleton, ?elem_of_nil;
    intros H; destruct_or?; try done; subst; do 5 eexists; by split.
Qed.

(** A reported change belongs to one pair; when it is not a "new" entry that
    pair is tracked and its two diffs hold the change. *)
Lemma row_change tm c :
  c ∈ (row tm).1.1 ++ (row tm).1.2 ->
  taskMappingId c = tm_id tm
  /\ (field c <> "new" ->
      exists planeIssue asanaTask snapshot,
        trackedBy tm planeIssue asanaTask snapshot
        /\ (row tm).1
           = (planeDiff commentCounts (stamp tm planeIssue asanaTask)
                        tm planeIssue snapshot,
              asanaDiff commentCounts (stamp tm planeIssue asanaTask)
                        tm asanaTask snapshot)).
Proof.
  destruct (row_cases tm)
    as [E|[(i & t & sn & Htr & E)|(Hs & _ & _ & _ & _ & c' & E & Hf & Hid)]];
    rewrite E; simpl.
  - by intros ?%elem_of_nil.
  - intros [Hc|Hc]%elem_of_app.
    + apply planeDiff_fields in Hc as (f & o & n & s' & t' & -> & Hf). simpl.
      split; [done|]. intros _. by exists i, t, sn.
    + apply asanaDiff_fields in Hc as (f & o & n & s' & t' & -> & Hf). simpl.
      split; [done|]. intros _. by exists i, t, sn.
  - intros ->%list_elem_of_singleton. by split.
Qed.

Lemma tracked_nonnew tm planeIssue asanaTask snapshot c :
  c ∈ planeDiff commentCounts (stamp tm planeIssue asanaTask) tm planeIssue snapshot
      ++ asanaDiff commentCounts (stamp tm planeIssue asanaTask) tm asanaTask snapshot ->
  field c <> "new" /\ taskMappingId c = tm_id tm.
Proof.
  intros [Hc|Hc]%elem_of_app.
  - by apply planeDiff_fields in Hc as (f & o & n & s' & t' & -> & Hf).
  - by apply asanaDiff_fields in Hc as (f & o & n & s' & t' & -> & Hf).
Qed.

(** The snapshot update touches the key it is called for and no other. *)
Lemma update_body_other tms snaps taskId k :
  k <> taskId ->
  update_body planeIssueMap asanaTaskMap commentCounts tms snaps taskId !! k
  = snaps !! k.
Proof.
  intros Hk. unfold update_body.
  repeat match goal with
         | |- context [if ?b then _ else _] => destruct b
         | |- context [match ?o with Some _ => _ | None => _ end] => destruct o
         end; try done.
  by rewrite lookup_insert_ne.
Qed.

Lemma update_fold_other tms ids snaps k :
  k ∉ ids ->
  fold_left (update_body planeIssueMap asanaTaskMap commentCounts tms) ids snaps !! k
  = snaps !! k.
Proof.
  revert snaps. induction ids as [|i ids IH]; intros snaps Hk; cbn [fold_left].
  - done.
  - apply not_elem_of_cons in Hk as [Hne Hk].
    rewrite IH by done. by apply update_body_other.
Qed.

Lemma update_body_tracked tms snaps tm planeIssue asanaTask snapshot :
  NoDup (tm_id <$> tms) -> tm ∈ tms ->
  trackedBy tm planeIssue asanaTask snapshot ->
  update_body planeIssueMap asanaTaskMap commentCounts tms snaps (tm_id tm)
  = <[tm_id tm :=
        snapshotOf planeIssue asanaTask
          (countOr (planeComments commentCounts !! orEmpty (tm_planeIssueId tm))
                   (Some snapshot) planeCommentsCount)
          (countOr (asanaComments commentCounts !! orEmpty (tm_asanaTaskGid tm))
                   (Some snapshot) asanaCommentsCount)]> snaps.
Proof.
  intros Hnd Hin (Hp & Ha & Hi & Ht & Hs). unfold update_body.
  rewrite (find_unique tms tm Hnd Hin), Hp, Ha, Hi, Ht, Hs. done.
Qed.

Lemma update_fold_tracked tms ids snaps tm planeIssue asanaTask snapshot :
  NoDup (tm_id <$> tms) -> tm ∈ tms ->
  trackedBy tm planeIssue asanaTask snapshot ->
  tm_id tm ∈ ids ->
  fold_left (update_body planeIssueMap asanaTaskMap commentCounts tms) ids snaps
    !! tm_id tm
  = Some (snapshotOf planeIssue asanaTask
            (countOr (planeComments commentCounts !! orEmpty (tm_planeIssueId tm))
                     (Some snapshot) planeCommentsCount)
            (countOr (asanaComments commentCounts !! orEmpty (tm_asanaTaskGid tm))
                     (Some snapshot) asanaCommentsCount)).
Proof.
  intros Hnd Hin Htr. revert snaps.
  induction ids as [|i ids IH]; intros snaps Hk; cbn [fold_left].
  - by apply elem_of_nil in Hk.
  - destruct (decide (tm_id tm ∈ ids)) as [Hids|Hids]; [by apply IH|].
    apply elem_of_cons in Hk as [<-|Hk]; [|done].
    rewrite update_fold_other by done.
    rewrite (update_body_tracked tms snaps tm _ _ _ Hnd Hin Htr).
    by rewrite lookup_insert_eq.
Qed.

End DetectFacts.

(** ** One detection pass *)

Section OnePass.
Variable remote : Remote.
Variable db : DB.
Variable mappingId : string.
Variable mapping : ProjectMapping.
Variable tms : list LinkedTask.
Variable planeIssues : list PlaneIssue.
Variable asanaTasks : list AsanaTask.

Hypothesis tms_ids : NoDup (tm_id <$> tms).
Hypothesis tms_snapshots :
  forall tm, tm ∈ tms -> tm_snapshot tm = taskSnapshot db !! tm_id tm.

Local Abbreviation pm := (mapBy pi_id planeIssues).
Local Abbreviation am := (mapBy at_gid asanaTasks).
Local Abbreviation cc := (fetchModified remote pm am (planeProjectId mapping) tms).
Local Abbreviation row tm := (detect_body remote pm am cc ([], [], 0) tm).
Local Abbreviation rowChanges tm := ((row tm).1.1 ++ (row tm).1.2).
Local Abbreviation pcs := (flat_map (fun tm => (row tm).1.1) tms).
Local Abbreviation acs := (flat_map (fun tm => (row tm).1.2) tms).
Local Abbreviation nonNew :=
  (List.filter (fun c => negb (String.eqb (field c) "new")) (pcs ++ acs)).
Local Abbreviation result :=
  (detectChanges remote db mappingId mapping tms planeIssues asanaTasks).
Local Abbreviation refreshed tm planeIssue asanaTask snapshot :=
  (snapshotOf planeIssue asanaTask
     (countOr (planeComments cc !! orEmpty (tm_planeIssueId tm))
              (Some snapshot) planeCommentsCount)
     (countOr (asanaComments cc !! orEmpty (tm_asanaTaskGid tm))
              (Some snapshot) asanaCommentsCount)).

Lemma detectChanges_unfold :
  planeChanges result.1 = pcs /\ asanaChanges result.1 = acs
  /\ result.2
     = if 0 <? length nonNew then
         mkDB (projectMapping db) (taskMapping db)
           (fold_left (update_body pm am cc tms)
                      (distinct (taskMappingId <$> nonNew)) (taskSnapshot db))
           (changeLog db ++ (mkChangeLogRow mappingId <$> nonNew))
       else db.
Proof.
  unfold detectChanges.
  destruct (detect_fold remote pm am cc tms [] [] 0) as [n E].
  rewrite E. simpl. done.
Qed.

Lemma reported_rows c :
  c ∈ pcs ++ acs <-> exists tm, tm ∈ tms /\ c ∈ rowChanges tm.
Proof.
  rewrite elem_of_app, !list_elem_of_In, !in_flat_map.
  setoid_rewrite elem_of_app. setoid_rewrite list_elem_of_In. naive_solver.
Qed.

Lemma nonNew_elem c :
  c ∈ nonNew <-> c ∈ pcs ++ acs /\ field c <> "new".
Proof.
  rewrite list_elem_of_In, filter_In, <- list_elem_of_In, negb_true_iff.
  by rewrite String.eqb_neq.
Qed.

Lemma changed_ids k :
  k ∈ distinct (taskMappingId <$> nonNew) <->
  exists tm c, tm ∈ tms /\ tm_id tm = k /\ c ∈ rowChanges tm /\ field c <> "new".
Proof.
  rewrite distinct_elem, list_elem_of_fmap. split.
  - intros (c & -> & (Hc & Hf)%nonNew_elem).
    apply reported_rows in Hc as (tm & Htm & Hc).
    exists tm, c. destruct (row_change remote pm am cc tm c Hc) as [Hid _]. done.
  - intros (tm & c & Htm & <- & Hc & Hf). exists c.
    destruct (row_change remote pm am cc tm c Hc) as [Hid _].
    split; [done|]. apply nonNew_elem. split; [|done].
    apply reported_rows. eauto.
Qed.

Lemma nonNew_nil_rows :
  length nonNew = 0 -> forall tm c, tm ∈ tms -> c ∈ rowChanges tm -> field c = "new".
Proof.
  intros Hlen tm c Htm Hc. apply nil_length_inv in Hlen.
  destruct (decide (field c = "new")) as [|Hf]; [done|].
  assert (c ∈ nonNew) as Hin.
  { apply nonNew_elem. split; [|done]. apply reported_rows. eauto. }
  rewrite Hlen in Hin. by apply elem_of_nil in Hin.
Qed.

(** After the pass a pair either reported nothing but "new" entries and kept
    its snapshot, or is tracked and had its snapshot refreshed. *)
Lemma snapshot_after tm :
  tm ∈ tms ->
  ((forall c, c ∈ rowChanges tm -> field c = "new")
   /\ taskSnapshot result.2 !! tm_id tm = taskSnapshot db !! tm_id tm)
  \/ (exists planeIssue asanaTask snapshot,
        tracked pm am tm planeIssue asanaTask snapshot
        /\ taskSnapshot result.2 !! tm_id tm
           = Some (refreshed tm planeIssue asanaTask snapshot)).
Proof.
  intros Htm. destruct detectChanges_unfold as (_ & _ & ->).
  destruct (0 <? length nonNew) eqn:E.
  - cbn [taskSnapshot].
    destruct (decide (tm_id tm ∈ distinct (taskMappingId <$> nonNew))) as [Hin|Hin].
    + right. apply changed_ids in Hin as (tm' & c & Htm' & Hid & Hc & Hf).
      assert (tm' = tm) as -> by (by eapply NoDup_fmap_eq).
      destruct (row_change remote pm am cc tm c Hc) as [_ Hrow].
      destruct (Hrow Hf) as (i & t & sn & Htr & _).
      exists i, t, sn. split; [done|].
      apply update_fold_tracked; [done..|].
      apply changed_ids. by exists tm, c.
    + left. split; [|by apply update_fold_other].
      intros c Hc. destruct (decide (field c = "new")) as [|Hf]; [done|].
      exfalso. apply Hin, changed_ids. by exists tm, c.
  - left. apply Nat.ltb_ge in E. split; [|done].
    intros c Hc. eapply nonNew_nil_rows; [lia|done..].
Qed.

(** A key without snapshot is left without snapshot. *)
Lemma no_snapshot_created k :
  taskSnapshot db !! k = None -> taskSnapshot result.2 !! k = None.
Proof.
  intros Hk. destruct detectChanges_unfold as (_ & _ & ->).
  destruct (0 <? length nonNew); [|done]. cbn [taskSnapshot].
  rewrite update_fold_other; [done|].
  intros (tm & c & Htm & <- & Hc & Hf)%changed_ids.
  destruct (row_change remote pm am cc tm c Hc) as [_ Hrow].
  destruct (Hrow Hf) as (i & t & sn & (_ & _ & _ & _ & Hs) & _).
  rewrite tms_snapshots in Hs by done. congruence.
Qed.

Lemma unsnapshotted_only_new k c :
  taskSnapshot db !! k = None ->
  c ∈ planeChanges result.1 ++ asanaChanges result.1 ->
  taskMappingId c = k -> field c = "new".
Proof.
  intros Hk Hc Hid. destruct detectChanges_unfold as (Hp & Ha & _).
  rewrite Hp, Ha in Hc. apply reported_rows in Hc as (tm & Htm & Hc).
  destruct (row_change remote pm am cc tm c Hc) as [Hid' Hrow].
  destruct (decide (field c = "new")) as [|Hf]; [done|].
  destruct (Hrow Hf) as (i & t & sn & (_ & _ & _ & _ & Hs) & _).
  rewrite tms_snapshots in Hs by done. congruence.
Qed.

Lemma log_after :
  exists rows, changeLog result.2 = changeLog db ++ rows
    /\ forall r, r ∈ rows ->
         field (log_change r) <> "new"
         /\ log_change r ∈ planeChanges result.1 ++ asanaChanges result.1.
Proof.
  destruct detectChanges_unfold as (-> & -> & ->).
  destruct (0 <? length nonNew).
  - eexists. split; [reflexivity|].
    intros r (c & -> & Hc)%list_elem_of_fmap. simpl.
    apply nonNew_elem in Hc. tauto.
  - exists []. split; [by rewrite app_nil_r|]. by intros r ?%elem_of_nil.
Qed.

Lemma tables_after :
  projectMapping result.2 = projectMapping db
  /\ taskMapping result.2 = taskMapping db.
Proof.
  destruct detectChanges_unfold as (_ & _ & ->). by destruct (0 <? length nonNew).
Qed.

End OnePass.

(** ** When a pair reports nothing *)

Lemma push_if_nil {A B} `{EqDecision A} (x y : A) (c : B) (rest : list B) :
  (if bool_decide (x <> y) then [c] else []) ++ rest = [] <-> x = y /\ rest = [].
Proof.
  case_bool_decide as H; simpl.
  - split; [done|]. by intros [? _].
  - split; [by intros ->|by intros [_ ->]].
Qed.

Lemma push_count_nil {B} (fetched : option nat) (stored : option nat) (c : nat -> B) :
  match fetched with
  | Some n => if bool_decide (stored <> Some n) then [c n] else []
  | None => []
  end = []
  <-> forall n, fetched = Some n -> stored = Some n.
Proof.
  destruct fetched as [n|]; [|by split].
  case_bool_decide as H.
  - split; [done|]. intros Hn. by specialize (Hn n eq_refl).
  - split; [by intros _ ? [= <-]|done].
Qed.

Lemma planeDiff_nil cc mk tm planeIssue s :
  planeDiff cc mk tm planeIssue s = [] <->
  planeName s = Some (pi_name planeIssue)
  /\ orEmpty (planeDescription s) = orEmpty (description_stripped planeIssue)
  /\ planeState s = orNull (state_detail_name planeIssue)
  /\ (forall c, planeComments cc !! orEmpty (tm_planeIssueId tm) = Some c ->
        planeCommentsCount s = Some c).
Proof.
  unfold planeDiff. cbv zeta.
  rewrite !push_if_nil.
  rewrite (push_count_nil _ _
             (fun n => mk "comments" (Some (commentsText (planeCommentsCount s)))
                          (Some (commentsText (Some n))) plane
                          (updated_at planeIssue))).
  done.
Qed.

Lemma asanaDiff_nil cc mk tm asanaTask s :
  asanaDiff cc mk tm asanaTask s = [] <->
  asanaName s = Some (at_name asanaTask)
  /\ orEmpty (asanaDescription s) = orEmpty (notes asanaTask)
  /\ asanaCompleted s = Some (completed asanaTask)
  /\ (forall c, asanaComments cc !! orEmpty (tm_asanaTaskGid tm) = Some c ->
        asanaCommentsCount s = Some c).
Proof.
  unfold asanaDiff. cbv zeta.
  rewrite !push_if_nil.
  rewrite (push_count_nil _ _
             (fun n => mk "comments" (Some (commentsText (asanaCommentsCount s)))
                          (Some (commentsText (Some n))) asana
                          (modified_at asanaTask))).
  done.
Qed.

Lemma flat_map_nil {A B} (f : A -> list B) (l : list A) :
  (forall x, x ∈ l -> f x = []) -> flat_map f l = [].
Proof.
  induction l as [|a l IH]; intros H; simpl; [done|].
  rewrite (H a) by left. apply IH. intros x Hx. apply H. by right.
Qed.

Lemma orEmpty_Some o x : o = Some x -> orEmpty o = x.
Proof. by intros ->. Qed.

(** ** Taking snapshots *)

Section TakeSnapshot.
Variable planeIssueMap : gmap string PlaneIssue.
Variable asanaTaskMap : gmap string AsanaTask.
Variable commentCounts : FetchState.

Local Abbreviation snap := (snapshot_body planeIssueMap asanaTaskMap commentCounts).

Lemma snapshot_body_other st tm k :
  k <> tm_id tm -> (snap st tm).1.1 !! k = st.1.1 !! k.
Proof.
  intros Hk. destruct st as [[snaps n] mc]. unfold snapshot_body.
  repeat match goal with
         | |- context [if ?b then _ else _] => destruct b
         | |- context [match ?o with Some _ => _ | None => _ end] => destruct o
         end; simpl; try done.
  by rewrite lookup_insert_ne.
Qed.

Lemma snapshot_fold_other tms st k :
  k ∉ tm_id <$> tms -> (fold_left snap tms st).1.1 !! k = st.1.1 !! k.
Proof.
  revert st. induction tms as [|tm tms IH]; intros st Hk; cbn [fold_left]; [done|].
  rewrite fmap_cons in Hk. apply not_elem_of_cons in Hk as [Hne Hk].
  rewrite IH by done. by apply snapshot_body_other.
Qed.

Lemma snapshot_fold_fresh tms st tm planeIssue asanaTask :
  NoDup (tm_id <$> tms) -> tm ∈ tms ->
  truthy (tm_planeIssueId tm) = true -> truthy (tm_asanaTaskGid tm) = true ->
  planeIssueMap !! orEmpty (tm_planeIssueId tm) = Some planeIssue ->
  asanaTaskMap !! orEmpty (tm_asanaTaskGid tm) = Some asanaTask ->
  (fold_left snap tms st).1.1 !! tm_id tm
  = Some (snapshotOf planeIssue asanaTask
            (default 0 (planeComments commentCounts !! orEmpty (tm_planeIssueId tm)))
            (default 0 (asanaComments commentCounts !! orEmpty (tm_asanaTaskGid tm)))).
Proof.
  intros Hnd Hin Hp Ha Hi Ht. revert st Hnd Hin.
  induction tms as [|a tms IH]; intros st Hnd Hin; [by apply elem_of_nil in Hin|].
  cbn [fold_left]. rewrite fmap_cons in Hnd. apply NoDup_cons in Hnd as [Hfresh Hnd].
  apply elem_of_cons in Hin as [<-|Hin]; [|by apply IH].
  rewrite snapshot_fold_other by done.
  destruct st as [[snaps n] mc]. unfold snapshot_body.
  rewrite Hp, Ha, Hi, Ht. simpl. by rewrite lookup_insert_eq.
Qed.

End TakeSnapshot.

Section RoundTrip.
Variables first second : Remote.
Variable db : DB.
Variable mappingId : string.
Variable mapping : ProjectMapping.
Variable planeIssues : list PlaneIssue.
Variable asanaTasks : list AsanaTask.

Hypothesis same : sameRemoteData first second.

Local Abbreviation tms := (findLinked db mappingId).
Local Abbreviation pm := (mapBy pi_id planeIssues).
Local Abbreviation am := (mapBy at_gid asanaTasks).
Local Abbreviation db1 :=
  (takeSnapshot first db mapping tms planeIssues asanaTasks).2.
Local Abbreviation tms1 := (findLinked db1 mappingId).
Local Abbreviation cc1 :=
  (fetchCommentCountsBatched first (planeProjectId mapping) None (toTask <$> tms)).
Local Abbreviation cc2 := (fetchModified second pm am (planeProjectId mapping) tms1).

Lemma takeSnapshot_tables :
  projectMapping db1 = projectMapping db /\ taskMapping db1 = taskMapping db
  /\ taskSnapshot db1
     = (fold_left (snapshot_body pm am cc1) tms (taskSnapshot db, 0, 0)).1.1.
Proof.
  unfold takeSnapshot.
  by destruct (fold_left _ _ _) as [[snaps n] mc].
Qed.

Lemma takeSnapshot_fresh tm planeIssue asanaTask :
  tm ∈ tms ->
  truthy (tm_planeIssueId tm) = true -> truthy (tm_asanaTaskGid tm) = true ->
  pm !! orEmpty (tm_planeIssueId tm) = Some planeIssue ->
  am !! orEmpty (tm_asanaTaskGid tm) = Some asanaTask ->
  taskSnapshot db1 !! tm_id tm
  = Some (snapshotOf planeIssue asanaTask
            (planeCount first (planeProjectId mapping) (orEmpty (tm_planeIssueId tm)))
            (asanaCount first (orEmpty (tm_asanaTaskGid tm)))).
Proof.
  intros Htm Hp Ha Hi Ht. destruct takeSnapshot_tables as (_ & _ & ->).
  rewrite (snapshot_fold_fresh pm am cc1 tms _ tm planeIssue asanaTask)
    by (done || apply findLinked_NoDup).
  destruct (truthy_Some _ Hp) as (x & Hx & Hxne).
  destruct (truthy_Some _ Ha) as (g & Hg & Hgne).
  rewrite (orEmpty_Some _ _ Hx), (orEmpty_Some _ _ Hg).
  assert (planeComments cc1 !! x = Some (planeCount first (planeProjectId mapping) x))
    as ->.
  { apply fetch_plane_lookup. split; [|done]. exists (toTask tm).
    split; [by apply list_elem_of_fmap_2|]. split; [done|].
    apply wanted_spec. by exists x. }
  assert (asanaComments cc1 !! g = Some (asanaCount first g)) as ->.
  { apply fetch_asana_lookup. split; [|done]. exists (toTask tm).
    split; [by apply list_elem_of_fmap_2|]. split; [done|].
    apply wanted_spec. by exists g. }
  done.
Qed.

(** Right after the snapshot no pair has anything to report. *)
Lemma fresh_row tm1 :
  tm1 ∈ tms1 -> (detect_body second pm am cc2 ([], [], 0) tm1).1 = ([], []).
Proof.
  intros Htm1. destruct takeSnapshot_tables as (_ & Htab & _).
  destruct same as (_ & _ & Hpc & Hac).
  destruct (findLinked_same_rows db db1 mappingId tm1 Htab Htm1)
    as (tm & Htm & Hid & Hpid & Hgid).
  pose proof (findLinked_snapshot db1 mappingId tm1 Htm1) as Hsnap.
  destruct (row_cases second pm am cc2 tm1)
    as [E|[(i & t & sn & Htr & E)|(Hs & Hp & Ha & [i Hi] & [t Ht] & _)]]; [done|..].
  - destruct Htr as (Hp & Ha & Hi & Ht & Hs). rewrite E.
    rewrite Hsnap, <- Hid in Hs.
    rewrite (takeSnapshot_fresh tm i t) in Hs by (done || congruence).
    injection Hs as <-.
    f_equal.
    + apply planeDiff_nil. repeat split; try done.
      intros c Hc. simpl. f_equal.
      apply (fetchModified_plane second pm am) in Hc as [_ ->].
      by rewrite Hpid, Hpc.
    + apply asanaDiff_nil. repeat split; try done.
      intros c Hc. simpl. f_equal.
      apply (fetchModified_asana second pm am) in Hc as [_ ->].
      by rewrite Hgid, Hac.
  - rewrite Hsnap, <- Hid in Hs.
    rewrite (takeSnapshot_fresh tm i t) in Hs by (done || congruence). done.
Qed.

Lemma detect_after_snapshot :
  let body := (detectChanges second db1 mappingId mapping tms1
                             planeIssues asanaTasks).1 in
  planeChanges body = [] /\ asanaChanges body = [].
Proof.
  cbv zeta.
  destruct (detectChanges_unfold second db1 mappingId mapping tms1
              planeIssues asanaTasks) as (-> & -> & _).
  split; apply flat_map_nil; intros tm Htm; by rewrite (fresh_row tm Htm).
Qed.

End RoundTrip.

Lemma laterRemote_same : sameRemoteData demoRemote laterRemote.
Proof.
  repeat split; intros; unfold planeCount, asanaCount; simpl;
    by destruct (String.eqb _ _).
Defined.

(** C7 (as amended).  Round trip: [POST] (take snapshot) followed at once by
    [GET] (detect changes), nothing being edited in between and both
    receiving the same listings and the same count for the comment request
    of every record (a request that fails counting as 0), reports no change
    record at all, so none for any fully linked pair; and when the snapshot
    request succeeded the detection request succeeds too, with both change
    lists empty. *)
Theorem snapshot_then_detect (first second : Remote) (db : DB)
    (mappingId : string) :
  sameRemoteData first second ->
  let db1 := (POST first db mappingId).2 in
  reported (GET second db1 mappingId).1 = []
  /\ forall sbody, (POST first db mappingId).1 = Ok sbody ->
       exists body, (GET second db1 mappingId).1 = Ok body
                    /\ planeChanges body = [] /\ asanaChanges body = [].
Proof.
  intros Hsame. pose proof Hsame as (Hli & Hlt & _ & _).
  cbv zeta. unfold POST.
  destruct (projectMapping db !! mappingId) as [mapping|] eqn:Em; simpl;
    [|by unfold GET; rewrite Em].
  destruct (listIssues first (planeProjectId mapping)) as [planeIssues|] eqn:Ei;
    simpl; [|unfold GET; rewrite Em, Hli, Ei; split; [|done];
             by destruct (length _ =? 0)].
  destruct (listTasks first _ _) as [asanaTasks|] eqn:Et; simpl;
    [|unfold GET; rewrite Em, Hli, Hlt, Ei, Et; split; [|done];
      by destruct (length _ =? 0)].
  pose proof (takeSnapshot_tables first db mappingId mapping planeIssues asanaTasks)
    as (Hpm & _ & _).
  pose proof (detect_after_snapshot first second db mappingId mapping
                planeIssues asanaTasks Hsame) as Hnil. cbv zeta in Hnil.
  destruct (takeSnapshot first db mapping _ planeIssues asanaTasks)
    as [sbody db1]. simpl in *.
  unfold GET. rewrite Hpm, Em.
  destruct (length (findLinked db1 mappingId) =? 0).
  { split; [done|]. intros _ _. eexists. by split. }
  rewrite Hli, Hlt, Ei, Et.
  destruct (detectChanges second db1 mappingId mapping _ planeIssues asanaTasks)
    as [body db2]. simpl in *. destruct Hnil as [Hp Ha].
  split; [by rewrite Hp, Ha|]. intros _ _. by exists body.
Qed.

Lemma snapshot_then_detect_witness :
  let db1 := (POST demoRemote demoDB "m").2 in
  sameRemoteData demoRemote laterRemote
  /\ (POST demoRemote demoDB "m").1
     = Ok (mkSnapshotResult "Created/updated 2 snapshots" 2 0)
  /\ exists body, (GET laterRemote db1 "m").1 = Ok body
                  /\ planeChanges body = [] /\ asanaChanges body = [].
Proof.
  cbv zeta. split; [exact laterRemote_same|].
  assert ((POST demoRemote demoDB "m").1
          = Ok (mkSnapshotResult "Created/updated 2 snapshots" 2 0)) as H
    by (vm_compute; reflexivity).
  split; [exact H|].
  exact (proj2 (snapshot_then_detect demoRemote laterRemote demoDB "m"
                  laterRemote_same) _ H).
Defined.

(** The request for the stories of "g2" fails while the snapshot is taken,
    so the snapshot of the pair "tm2" records 0 stories; the detection that
    follows gets the 2 stories and reports a change of the comment count,
    although nothing was edited. *)
Lemma snapshot_then_detect_after_failed_request :
  let db1 := (POST demoRemote demoDB "m").2 in
  listIssues steadyRemote = listIssues demoRemote
  /\ listTasks steadyRemote = listTasks demoRemote
  /\ (fun c => (taskMappingId c, source c, field c, oldValue c, newValue c))
       <$> reported (GET steadyRemote db1 "m").1
     = [("tm2", asana, "comments", Some "0 comments", Some "2 comments")].
Proof. cbv zeta. split; [done|]. split; [done|]. vm_compute. reflexivity. Qed.

(** ** Two detection passes in a row *)

Lemma all_new_nil (l : list Change) :
  (forall c, c ∈ l -> field c <> "new") -> (forall c, c ∈ l -> field c = "new") ->
  l = [].
Proof.
  destruct l as [|c l]; [done|]. intros H1 H2.
  exfalso. apply (H1 c); [by left|]. apply H2. by left.
Qed.

Section TwoPasses.
Variables first second : Remote.
Variable db : DB.
Variable mappingId : string.
Variable mapping : ProjectMapping.
Variable planeIssues : list PlaneIssue.
Variable asanaTasks : list AsanaTask.

Hypothesis same : sameRemoteData first second.
Hypothesis baselines : baselinesRecorded db.

Local Abbreviation tms := (findLinked db mappingId).
Local Abbreviation pm := (mapBy pi_id planeIssues).
Local Abbreviation am := (mapBy at_gid asanaTasks).
Local Abbreviation db1 :=
  (detectChanges first db mappingId mapping tms planeIssues asanaTasks).2.
Local Abbreviation tms1 := (findLinked db1 mappingId).
Local Abbreviation cc1 := (fetchModified first pm am (planeProjectId mapping) tms).
Local Abbreviation cc2 := (fetchModified second pm am (planeProjectId mapping) tms1).
Local Abbreviation row1 tm := (detect_body first pm am cc1 ([], [], 0) tm).
Local Abbreviation row2 tm := (detect_body second pm am cc2 ([], [], 0) tm).

(** A pair tracked in the second pass was tracked in the first one, and its
    snapshot is either the one of the first pass, which then found nothing
    to report for the pair, or the one the first pass wrote. *)
Lemma second_pass_pair tm1 planeIssue asanaTask s1 :
  tm1 ∈ tms1 -> tracked pm am tm1 planeIssue asanaTask s1 ->
  exists tm s,
    tm ∈ tms /\ tm_planeIssueId tm = tm_planeIssueId tm1
    /\ tm_asanaTaskGid tm = tm_asanaTaskGid tm1
    /\ tracked pm am tm planeIssue asanaTask s
    /\ ((s1 = s /\ planeDiff cc1 (mkChange "" None None None None) tm planeIssue s = []
         /\ asanaDiff cc1 (mkChange "" None None None None) tm asanaTask s = [])
        \/ s1 = snapshotOf planeIssue asanaTask
                  (countOr (planeComments cc1 !! orEmpty (tm_planeIssueId tm))
                           (Some s) planeCommentsCount)
                  (countOr (asanaComments cc1 !! orEmpty (tm_asanaTaskGid tm))
                           (Some s) asanaCommentsCount)).
Proof.
  intros Htm1 (Hp & Ha & Hi & Ht & Hs).
  destruct (tables_after first db mappingId mapping tms planeIssues asanaTasks)
    as [_ Htab].
  destruct (findLinked_same_rows db db1 mappingId tm1 Htab Htm1)
    as (tm & Htm & Hid & Hpid & Hgid).
  rewrite (findLinked_snapshot db1 mappingId tm1 Htm1), <- Hid in Hs.
  pose proof (findLinked_snapshot db mappingId tm Htm) as Hsnap.
  destruct (snapshot_after first db mappingId mapping tms planeIssues asanaTasks
              (findLinked_NoDup db mappingId) tm Htm)
    as [[Hnew Hkeep]|(i & t & s & Htr & Hfresh)].
  - rewrite Hkeep, <- Hsnap in Hs. exists tm, s1.
    assert (tracked pm am tm planeIssue asanaTask s1) as Htr
      by (unfold tracked; rewrite Hpid, Hgid; done).
    repeat (split; [done|]). left. split; [done|].
    rewrite (row_tracked first pm am cc1 tm _ _ _ Htr) in Hnew. simpl in Hnew.
    assert (planeDiff cc1 (mkChange (tm_id tm) (tm_planeIssueId tm)
                             (Some (pi_name planeIssue)) (tm_asanaTaskGid tm)
                             (Some (at_name asanaTask))) tm planeIssue s1 = []
            /\ asanaDiff cc1 (mkChange (tm_id tm) (tm_planeIssueId tm)
                                (Some (pi_name planeIssue)) (tm_asanaTaskGid tm)
                                (Some (at_name asanaTask))) tm asanaTask s1 = [])
      as [Hpn Han].
    { apply app_eq_nil, all_new_nil; [|done].
      intros c Hc. by apply (tracked_nonnew cc1 tm planeIssue asanaTask s1). }
    split.
    + apply planeDiff_nil. by apply planeDiff_nil in Hpn.
    + apply asanaDiff_nil. by apply asanaDiff_nil in Han.
  - exists tm, s. destruct Htr as (Hp' & Ha' & Hi' & Ht' & Hs').
    rewrite Hpid in Hi'. rewrite Hgid in Ht'.
    assert (i = planeIssue) as -> by congruence.
    assert (t = asanaTask) as -> by congruence.
    repeat (split; [done|]).
    split; [unfold tracked; rewrite Hpid, Hgid; repeat split; assumption|].
    right. congruence.
Qed.

Lemma second_pass_plane x :
  x ∈ (firstPass pm am tms1).1 -> x ∈ (firstPass pm am tms).1.
Proof.
  rewrite !firstPass_plane. intros (tm1 & i & t & s1 & Htm1 & Hx & Htr & Hmod).
  destruct (second_pass_pair tm1 i t s1 Htm1 Htr)
    as (tm & s & Htm & Hpid & Hgid & Htr' & [(-> & _)| ->]);
    exists tm, i, t, s; (split; [done|]); (split; [congruence|]); (split; [done|]).
  - done.
  - unfold planeModified in *. simpl in Hmod.
    destruct (updated_at i) as [l|]; [|done].
    by rewrite Z.ltb_irrefl in Hmod.
Qed.

Lemma second_pass_asana x :
  x ∈ (firstPass pm am tms1).2 -> x ∈ (firstPass pm am tms).2.
Proof.
  rewrite !firstPass_asana. intros (tm1 & i & t & s1 & Htm1 & Hx & Htr & Hcnt).
  destruct (second_pass_pair tm1 i t s1 Htm1 Htr)
    as (tm & s & Htm & Hpid & Hgid & Htr' & [(-> & _)| ->]);
    exists tm, i, t, s; (split; [done|]); (split; [congruence|]); (split; [done|]).
  - done.
  - destruct Htr' as (_ & _ & _ & _ & Hs).
    rewrite (findLinked_snapshot db mappingId tm Htm) in Hs.
    by eapply baselines.
Qed.

Lemma second_counts_plane x c :
  planeComments cc2 !! x = Some c -> planeComments cc1 !! x = Some c.
Proof.
  intros [Hin ->]%(fetchModified_plane second pm am).
  apply (fetchModified_plane first pm am). split; [by apply second_pass_plane|].
  apply same.
Qed.

Lemma second_counts_asana x c :
  asanaComments cc2 !! x = Some c -> asanaComments cc1 !! x = Some c.
Proof.
  intros [Hin ->]%(fetchModified_asana second pm am).
  apply (fetchModified_asana first pm am). split; [by apply second_pass_asana|].
  apply same.
Qed.

(** In the second pass a tracked pair has nothing to report. *)
Lemma second_row_tracked tm1 planeIssue asanaTask s1 :
  tm1 ∈ tms1 -> tracked pm am tm1 planeIssue asanaTask s1 ->
  (row2 tm1).1 = ([], []).
Proof.
  intros Htm1 Htr. rewrite (row_tracked second pm am cc2 tm1 _ _ _ Htr).
  destruct (second_pass_pair tm1 planeIssue asanaTask s1 Htm1 Htr)
    as (tm & s & Htm & Hpid & Hgid & Htr' & [(-> & Hpn & Han)| ->]).
  - apply planeDiff_nil in Hpn as (H1 & H2 & H3 & H4).
    apply asanaDiff_nil in Han as (H5 & H6 & H7 & H8).
    f_equal.
    + apply planeDiff_nil. repeat (split; [done|]).
      intros c Hc%second_counts_plane. apply H4. by rewrite Hpid.
    + apply asanaDiff_nil. repeat (split; [done|]).
      intros c Hc%second_counts_asana. apply H8. by rewrite Hgid.
  - f_equal.
    + apply planeDiff_nil. repeat (split; [done|]).
      intros c Hc%second_counts_plane. simpl. rewrite Hpid, Hc. done.
    + apply asanaDiff_nil. repeat (split; [done|]).
      intros c Hc%second_counts_asana. simpl. rewrite Hgid, Hc. done.
Qed.

Lemma second_pass_reports c :
  let body := (detectChanges second db1 mappingId mapping tms1
                             planeIssues asanaTasks).1 in
  c ∈ planeChanges body ++ asanaChanges body ->
  field c = "new" /\ taskSnapshot db1 !! taskMappingId c = None.
Proof.
  cbv zeta.
  destruct (detectChanges_unfold second db1 mappingId mapping tms1
              planeIssues asanaTasks) as (-> & -> & _).
  intros (tm1 & Htm1 & Hc)%reported_rows.
  destruct (row_cases second pm am cc2 tm1)
    as [E|[(i & t & sn & Htr & _)|(Hs & _ & _ & _ & _ & c' & E & Hf & Hid)]].
  - rewrite E in Hc. by apply elem_of_nil in Hc.
  - rewrite (second_row_tracked tm1 i t sn Htm1 Htr) in Hc.
    by apply elem_of_nil in Hc.
  - rewrite E in Hc. simpl in Hc. apply list_elem_of_singleton in Hc as ->.
    split; [done|]. rewrite Hid.
    by rewrite <- (findLinked_snapshot db1 mappingId tm1 Htm1).
Qed.

Lemma second_pass_writes_nothing :
  (detectChanges second db1 mappingId mapping tms1 planeIssues asanaTasks).2 = db1.
Proof.
  pose proof second_pass_reports as Hrep. cbv zeta in Hrep.
  destruct (detectChanges_unfold second db1 mappingId mapping tms1
              planeIssues asanaTasks) as (Hp & Ha & ->).
  rewrite Hp, Ha in Hrep.
  match goal with
  | |- context [List.filter ?f ?l] =>
      assert (List.filter f l = []) as ->; [|done]
  end.
  match goal with
  | |- ?l = [] => destruct l as [|c rest] eqn:E; [done|]
  end.
  assert (In c (c :: rest)) as Hin by (by left). rewrite <- E in Hin.
  apply filter_In in Hin as [Hin Hf]. apply list_elem_of_In, Hrep in Hin as [Hn _].
  by rewrite Hn in Hf.
Qed.

End TwoPasses.

(** C1 (as amended).  Running [GET] twice in a row, nothing being edited and
    no snapshot being taken in between, and both runs receiving the same
    listings and the same count for the comment request of every record (a
    request that fails counting as 0), the second run reports no change
    record other than the synthetic "new" entries of the pairs that still
    have no snapshot; it appends nothing to the change log and writes no
    snapshot.  The stored snapshots are assumed to follow the schema, which
    declares the comment counts [NOT NULL]. *)
Theorem detect_twice (first second : Remote) (db : DB) (mappingId : string) :
  sameRemoteData first second ->
  baselinesRecorded db ->
  let db1 := (GET first db mappingId).2 in
  (forall c, c ∈ reported (GET second db1 mappingId).1 ->
     field c = "new" /\ taskSnapshot db1 !! taskMappingId c = None)
  /\ (GET second db1 mappingId).2 = db1.
Proof.
  intros Hsame Hbase. pose proof Hsame as (Hli & Hlt & _ & _). cbv zeta.
  destruct (GET first db mappingId) as [r1 d1] eqn:E1. simpl.
  unfold GET in E1.
  destruct (projectMapping db !! mappingId) as [mapping|] eqn:Em.
  2: { injection E1 as <- <-. unfold GET. rewrite Em. simpl.
       split; [by intros c ?%elem_of_nil|done]. }
  destruct (length (findLinked db mappingId) =? 0) eqn:El.
  { injection E1 as <- <-. unfold GET. rewrite Em, El. simpl.
    split; [by intros c ?%elem_of_nil|done]. }
  destruct (listIssues first (planeProjectId mapping)) as [planeIssues|] eqn:Ei.
  2: { injection E1 as <- <-. unfold GET. rewrite Em, El, Hli, Ei. simpl.
       split; [by intros c ?%elem_of_nil|done]. }
  destruct (listTasks first _ _) as [asanaTasks|] eqn:Et.
  2: { injection E1 as <- <-. unfold GET. rewrite Em, El, Hli, Hlt, Ei, Et. simpl.
       split; [by intros c ?%elem_of_nil|done]. }
  pose proof (tables_after first db mappingId mapping (findLinked db mappingId)
                planeIssues asanaTasks) as [Hpm Htm].
  pose proof (second_pass_reports first second db mappingId mapping planeIssues
                asanaTasks Hsame Hbase) as Hrep.
  pose proof (second_pass_writes_nothing first second db mappingId mapping
                planeIssues asanaTasks Hsame Hbase) as Hsame2.
  cbv zeta in Hrep.
  destruct (detectChanges first db mappingId mapping _ planeIssues asanaTasks)
    as [body db1]. simpl in *. injection E1 as <- <-.
  unfold GET.
  rewrite Hpm, Em, (findLinked_length db db1 mappingId Htm), El, Hli, Hlt, Ei, Et.
  destruct (detectChanges second db1 mappingId mapping _ planeIssues asanaTasks)
    as [body2 db2]. simpl in *.
  split; [exact Hrep|by rewrite Hsame2].
Qed.

Lemma demoDB_baselines : baselinesRecorded demoDB.
Proof.
  intros k s Hs. unfold demoDB in Hs. simpl in Hs.
  apply lookup_singleton_Some in Hs as [_ <-]. done.
Defined.

Lemma detect_twice_witness :
  let db1 := (GET demoRemote demoDB "m").2 in
  sameRemoteData demoRemote laterRemote
  /\ baselinesRecorded demoDB
  /\ length (changeLog db1) = 1
  /\ (forall c, c ∈ reported (GET laterRemote db1 "m").1 ->
        field c = "new" /\ taskSnapshot db1 !! taskMappingId c = None)
  /\ (GET laterRemote db1 "m").2 = db1.
Proof.
  cbv zeta. split; [exact laterRemote_same|]. split; [exact demoDB_baselines|].
  split; [vm_compute; reflexivity|].
  exact (detect_twice demoRemote laterRemote demoDB "m" laterRemote_same
           demoDB_baselines).
Defined.

(** The pair "tm2" has no snapshot: the second run reports its "new" entry
    again, so it does not report zero change records. *)
Lemma detect_twice_reports_new_again :
  let db1 := (GET demoRemote demoDB "m").2 in
  (fun c => (taskMappingId c, field c)) <$> reported (GET demoRemote db1 "m").1
  = [("tm2", "new")].
Proof. vm_compute. reflexivity. Qed.

(** A request that fails in one run only makes the second run report a
    change of the comment count, although nothing was edited: the request
    for the stories of "g1" fails in the first run, which records 0 stories
    for the pair "tm1"; the second run gets the 2 stories. *)
Lemma detect_twice_after_failed_request :
  let db1 := (GET g1DownRemote demoDB "m").2 in
  listIssues steadyRemote = listIssues g1DownRemote
  /\ listTasks steadyRemote = listTasks g1DownRemote
  /\ (fun c => (taskMappingId c, source c, field c, oldValue c, newValue c))
       <$> reported (GET steadyRemote db1 "m").1
     = [("tm2", plane, "new", None,
         Some "New linked task - click Take Snapshot to start tracking");
        ("tm1", asana, "comments", Some "0 comments", Some "2 comments")].
Proof. cbv zeta. split; [done|]. split; [done|]. vm_compute. reflexivity. Qed.

(** C10.  For a pair that has no stored snapshot, [GET] leaves the snapshot
    table without an entry for it, every change it reports for that pair is
    a "new" entry, and the rows it appends to the change log never have the
    field "new". *)
Theorem detect_leaves_unsnapshotted (remote : Remote) (db : DB)
    (mappingId k : string) :
  taskSnapshot db !! k = None ->
  taskSnapshot (GET remote db mappingId).2 !! k = None
  /\ (forall c, c ∈ reported (GET remote db mappingId).1 ->
        taskMappingId c = k -> field c = "new")
  /\ exists rows,
       changeLog (GET remote db mappingId).2 = changeLog db ++ rows
       /\ forall r, r ∈ rows -> field (log_change r) <> "new".
Proof.
  intros Hk. unfold GET.
  assert (exists rows : list ChangeLogRow, changeLog db = changeLog db ++ rows
            /\ forall r, r ∈ rows -> field (log_change r) <> "new") as Hsame.
  { exists []. split; [by rewrite app_nil_r|]. by intros r ?%elem_of_nil. }
  destruct (projectMapping db !! mappingId) as [mapping|]; simpl;
    [|by split; [|split; [intros c ?%elem_of_nil|]]].
  destruct (length (findLinked db mappingId) =? 0); simpl;
    [by split; [|split; [intros c ?%elem_of_nil|]]|].
  destruct (listIssues remote _) as [planeIssues|]; simpl;
    [|by split; [|split; [intros c ?%elem_of_nil|]]].
  destruct (listTasks remote _ _) as [asanaTasks|]; simpl;
    [|by split; [|split; [intros c ?%elem_of_nil|]]].
  pose proof (no_snapshot_created remote db mappingId mapping
                (findLinked db mappingId) planeIssues asanaTasks
                (findLinked_snapshot db mappingId) k Hk) as H1.
  pose proof (unsnapshotted_only_new remote db mappingId mapping
                (findLinked db mappingId) planeIssues asanaTasks
                (findLinked_snapshot db mappingId) k) as H2.
  destruct (log_after remote db mappingId mapping (findLinked db mappingId)
              planeIssues asanaTasks) as (rows & H3 & H4).
  destruct (detectChanges remote db mappingId mapping _ planeIssues asanaTasks)
    as [body db']. simpl in *.
  split; [done|]. split; [by intros c Hc Hid; apply (H2 c)|].
  exists rows. split; [done|]. intros r Hr. by apply H4.
Qed.

Lemma detect_leaves_unsnapshotted_witness :
  taskSnapshot demoDB !! "tm2" = None
  /\ taskSnapshot (GET demoRemote demoDB "m").2 !! "tm2" = None
  /\ (field <$> filter (fun c => taskMappingId c = "tm2")
                  (reported (GET demoRemote demoDB "m").1)) = ["new"]
  /\ (forall c, c ∈ reported (GET demoRemote demoDB "m").1 ->
        taskMappingId c = "tm2" -> field c = "new")
  /\ exists rows,
       changeLog (GET demoRemote demoDB "m").2 = changeLog demoDB ++ rows
       /\ forall r, r ∈ rows -> field (log_change r) <> "new".
Proof.
  assert (taskSnapshot demoDB !! "tm2" = None) as Hk by (vm_compute; reflexivity).
  split; [exact Hk|].
  destruct (detect_leaves_unsnapshotted demoRemote demoDB "m" "tm2" Hk)
    as (H1 & H2 & H3).
  split; [exact H1|]. split; [vm_compute; reflexivity|].
  split; [exact H2|exact H3].
Defined.

End ChangesProofs.

(** * Further properties of the matcher *)

Module MatchingMore.
Import Matching MoreInputs MatchingProofs.

(** ** Keyword overlap *)

Lemma ratio_same n : 0 < n -> ratio n n = 1%Q.
Proof.
  intros Hn. unfold ratio, Double.div.
  rewrite (DoubleProofs.round_eq _ 1); [reflexivity|].
  apply Qmult_inv_r.
  change 0%Q with (inject_Z 0). rewrite inject_Z_injective. lia.
Qed.

(** X2.  The keyword overlap of two texts does not depend on their order,
    lies between 0 and 1, and is 1 when the two texts have the same keywords
    and at least one. *)
Theorem keywordOverlapScore_symmetric_bounded (text1 text2 : string) :
  (keywordOverlapScore text1 text2 == keywordOverlapScore text2 text1)%Q
  /\ (0 <= keywordOverlapScore text1 text2)%Q
  /\ (keywordOverlapScore text1 text2 <= 1)%Q
  /\ (extractKeywords text1 = extractKeywords text2 ->
      extractKeywords text1 <> ∅ ->
      (keywordOverlapScore text1 text2 == 1)%Q).
Proof.
  rewrite !keywordOverlapScore_jaccard. unfold similarity, jaccard.
  split; [|split; [|split]].
  - rewrite (comm_L (∩) (extractKeywords text1)),
      (comm_L (∪) (extractKeywords text1)). reflexivity.
  - apply ratio_nonneg.
  - apply ratio_le_1, subseteq_size. set_solver.
  - intros <- Hne. rewrite (idemp_L (∩)), (idemp_L (∪)).
    rewrite ratio_same; [reflexivity|].
    destruct (size (extractKeywords text1)) eqn:E; [|lia].
    apply size_empty_inv, leibniz_equiv in E. done.
Qed.

Lemma keywordOverlapScore_symmetric_bounded_witness :
  extractKeywords "Fix the LOGIN page!" = extractKeywords "login-page fix"
  /\ extractKeywords "Fix the LOGIN page!" <> ∅
  /\ (keywordOverlapScore "Fix the LOGIN page!" "login-page fix" == 1)%Q.
Proof.
  assert (extractKeywords "Fix the LOGIN page!" = extractKeywords "login-page fix")
    as H1 by (vm_compute; reflexivity).
  assert (extractKeywords "Fix the LOGIN page!" <> ∅) as H2.
  { intros H. assert (size (extractKeywords "Fix the LOGIN page!") = 0) as Hs
      by (by rewrite H). vm_compute in Hs. discriminate Hs. }
  split; [exact H1|]. split; [exact H2|].
  exact (proj2 (proj2 (proj2 (keywordOverlapScore_symmetric_bounded
                                "Fix the LOGIN page!" "login-page fix"))) H1 H2).
Defined.

(** ** What the scorer returns *)

Lemma candidates_sublist s d ts :
  (fun c => (gid c, name c)) <$> findMatches_candidates s ts d
  `sublist_of` (fun t => (mt_gid t, mt_name t)) <$> ts.
Proof.
  rewrite findMatches_candidates_flat.
  induction ts as [|t ts IH]; simpl; [done|].
  pose proof (findMatches_body_rules s d t) as H.
  destruct (spec_verdict s d t) as [v|].
  - destruct H as (c & -> & Hg & Hn & _). simpl in *. rewrite Hg, Hn.
    by apply sublist_skip.
  - rewrite H. simpl. by apply sublist_cons.
Qed.

(** X3.  The scorer invents nothing and repeats nothing: the identifiers and
    names of the candidates it returns form a sub-multiset of those of the
    target records, so each target record gives at most one candidate. *)
Theorem findMatches_from_targets (sourceName : string)
    (targetTasks : list MatchableTask) (threshold : Q)
    (sourceDescription : option string) :
  (fun c => (gid c, name c))
    <$> findMatches sourceName targetTasks threshold sourceDescription
  ⊆+ (fun t => (mt_gid t, mt_name t)) <$> targetTasks.
Proof.
  unfold findMatches.
  etrans; [|apply sublist_submseteq, (candidates_sublist sourceName sourceDescription)].
  apply fmap_submseteq.
  etrans; [apply sublist_submseteq, sublist_take|].
  etrans; [apply Permutation_submseteq, sortDesc_perm|].
  apply sublist_submseteq, ChangesProofs.filter_sublist.
Qed.

Lemma prefix_length t s :
  String.prefix t s = true ->
  String.length t <= String.length s
  /\ (String.length t = String.length s -> t = s).
Proof.
  revert s. induction t as [|a t IH]; intros s; simpl.
  - intros _. split; [lia|]. by destruct s.
  - destruct s as [|b s]; [done|]. simpl.
    destruct (ascii_dec a b) as [->|]; [|done].
    intros [H1 H2]%IH. split; [lia|]. intros [= H]. by rewrite (H2 H).
Qed.

Lemma includes_length s t :
  includes s t = true ->
  String.length t <= String.length s
  /\ (String.length t = String.length s -> t = s).
Proof.
  induction s as [|c r IH]; cbn [includes].
  - rewrite orb_false_r. apply prefix_length.
  - intros [H|H]%orb_true_iff; [by apply prefix_length in H|]. simpl.
    apply IH in H as [H _]. split; lia.
Qed.

(** Of two different texts one of which contains the other, one is
    strictly shorter. *)
Lemma includes_shorter s t :
  s <> t -> includes s t || includes t s = true ->
  Nat.min (String.length s) (String.length t)
  < Nat.max (String.length s) (String.length t).
Proof.
  intros Hne [H|H]%orb_true_iff; apply includes_length in H as [H1 H2].
  - destruct (decide (String.length t = String.length s)) as [E|E];
      [by rewrite (H2 E) in Hne|lia].
  - destruct (decide (String.length s = String.length t)) as [E|E];
      [by rewrite (H2 E) in Hne|lia].
Qed.

(** Normalising never lengthens a text. *)
Lemma collapseSpaces_length b s :
  String.length (collapseSpaces b s) <= String.length s.
Proof.
  revert b. induction s as [|c r IH]; intros b; simpl; [done|].
  pose proof (IH true). pose proof (IH false).
  destruct (isSpace c); [destruct b|]; simpl; lia.
Qed.

Lemma trimStart_length s : String.length (trimStart s) <= String.length s.
Proof.
  induction s as [|c r IH]; simpl; [done|]. destruct (isSpace c); simpl; lia.
Qed.

Lemma trimEnd_length s : String.length (trimEnd s) <= String.length s.
Proof.
  induction s as [|c r IH]; simpl; [done|].
  destruct (trimEnd r); [destruct (isSpace c)|]; simpl in *; lia.
Qed.

Lemma toLowerCase_length s : String.length (toLowerCase s) = String.length s.
Proof. induction s as [|c r IH]; simpl; [done|]. by rewrite IH. Qed.

Lemma replacePunct_length s : String.length (replacePunct s) = String.length s.
Proof. induction s as [|c r IH]; simpl; [done|]. by rewrite IH. Qed.

Lemma normalizeText_length s :
  String.length (normalizeText s) <= String.length s.
Proof.
  unfold normalizeText, trim.
  etrans; [apply trimEnd_length|]. etrans; [apply trimStart_length|].
  etrans; [apply collapseSpaces_length|].
  by rewrite replacePunct_length, toLowerCase_length.
Qed.

Lemma jsString_normalizeText s : jsString s -> jsString (normalizeText s).
Proof. unfold jsString. pose proof (normalizeText_length s). lia. Qed.

(** The quotient of two different lengths of JavaScript strings is at most
    the greatest double below 1, and so is its rounding. *)
Lemma ratio_below_1 a b :
  a < b -> (Z.of_nat b < 2 ^ 53)%Z -> (ratio a b <= Double.belowOne)%Q.
Proof.
  intros Hab Hb.
  assert (Double.round Double.belowOne == Double.belowOne)%Q as <-
    by (vm_compute; reflexivity).
  apply DoubleProofs.round_mono; [apply quotient_nonneg|].
  apply Qle_shift_div_r.
  - change 0%Q with (inject_Z 0). rewrite <- Zlt_Qlt. lia.
  - assert (Double.belowOne == 9007199254740991 # 9007199254740992)%Q as ->
      by (vm_compute; reflexivity).
    unfold Qle. cbn [Qnum Qden Qmult inject_Z].
    change (2 ^ 53)%Z with 9007199254740992%Z in Hb. lia.
Qed.

(** Below a ratio of 1 the containment formula stays below 1. *)
Lemma containment_lt_1 r :
  (0 <= r)%Q -> (r <= Double.belowOne)%Q ->
  (Double.add (Double.mul (Double.lit (85 # 100)) r) (Double.lit (15 # 100)) < 1)%Q.
Proof.
  intros H0 H1.
  assert (0 <= Double.lit (85 # 100))%Q as Hl by (vm_compute; discriminate).
  assert (0 <= Double.lit (15 # 100))%Q as Hk by (vm_compute; discriminate).
  eapply Qle_lt_trans.
  - apply DoubleProofs.add_mono; [by apply DoubleProofs.mul_nonneg|exact Hk|].
    apply DoubleProofs.mul_mono; [exact Hl|exact H0|exact H1].
  - vm_compute. reflexivity.
Qed.

(** The verdict "exact" is the only one with confidence 1, and it is given
    only for equal normalised names. *)
Lemma spec_verdict_exact s d t v :
  jsString s -> jsString (mt_name t) ->
  spec_verdict s d t = Some v ->
  (v_method v = exact <-> (v_confidence v == 1)%Q)
  /\ (v_method v = exact -> normalizeText s = normalizeText (mt_name t)).
Proof.
  intros Hjs%jsString_normalizeText Hjt%jsString_normalizeText.
  unfold jsString in Hjs, Hjt.
  change (2 ^ 53)%Z with 9007199254740992%Z in Hjs, Hjt.
  unfold spec_verdict, firstFiring, rule_exact.
  case_bool_decide as Hex.
  { intros [= <-]. simpl. split; [|done]. split; [reflexivity|done]. }
  assert (forall b x, (b < 1)%Q -> ~ (Qmin b x == 1)%Q) as Hmin.
  { intros b x Hb H. pose proof (Q.le_min_l b x) as Hle. rewrite H in Hle.
    by apply Qle_not_lt in Hle. }
  unfold rule_containment, rule_name_keywords, rule_description. cbv zeta.
  set (r := ratio _ _).
  destruct ((includes _ _ || includes _ _) && Qgt_bool r _) eqn:Ec.
  { intros [= <-]. simpl. split; [|done]. split; [done|]. intros Hq. exfalso.
    apply andb_true_iff in Ec as [Hinc _].
    assert (r <= Double.belowOne)%Q as Hr.
    { apply ratio_below_1; [by apply includes_shorter|].
      change (2 ^ 53)%Z with 9007199254740992%Z. lia. }
    pose proof (containment_lt_1 r (ratio_nonneg _ _) Hr) as Hlt.
    rewrite Hq in Hlt. by apply Qlt_irrefl in Hlt. }
  repeat match goal with
         | |- context [if ?b then _ else _] => destruct b
         end; intros [= <-]; simpl;
    (split; [|done]); (split; [done|]); intros H; exfalso;
    (eapply Hmin; [|exact H]); vm_compute; reflexivity.
Qed.

Lemma confidence_one_exact s d ts c :
  jsString s -> Forall (fun t => jsString (mt_name t)) ts ->
  c ∈ findMatches_candidates s ts d ->
  (matchMethod c = exact <-> (confidence c == 1)%Q)
  /\ (matchMethod c = exact ->
      exists t, t ∈ ts /\ gid c = mt_gid t /\ name c = mt_name t
                /\ normalizeText s = normalizeText (mt_name t)).
Proof.
  intros Hjs Hjt Hc. apply candidate_from_rule in Hc
    as (t & v & Ht & Hv & Hg & Hn & Hq & Hm).
  rewrite Forall_forall in Hjt.
  simpl in *. apply spec_verdict_exact in Hv as [H1 H2]; [|done|by apply Hjt].
  rewrite Hm, Hq. split; [done|]. intros Hex. exists t. auto.
Qed.

(** X4.  The names being JavaScript strings, among the candidates the scorer
    returns the method is "exact" exactly for those with confidence 1, and
    an "exact" candidate always stands for a target whose normalised name
    equals the normalised source name. *)
Theorem findMatches_exact_iff_one (sourceName : string)
    (targetTasks : list MatchableTask) (threshold : Q)
    (sourceDescription : option string) (c : MatchCandidate) :
  jsString sourceName ->
  Forall (fun t => jsString (mt_name t)) targetTasks ->
  c ∈ findMatches sourceName targetTasks threshold sourceDescription ->
  (matchMethod c = exact <-> (confidence c == 1)%Q)
  /\ (matchMethod c = exact ->
      exists t, t ∈ targetTasks /\ gid c = mt_gid t /\ name c = mt_name t
                /\ normalizeText sourceName = normalizeText (mt_name t)).
Proof.
  intros Hjs Hjt [Hc _]%findMatches_subset.
  by apply (confidence_one_exact sourceName sourceDescription).
Qed.

Lemma findMatches_exact_iff_one_witness :
  let c := mkCandidate "a1" "Fix login bug" 1 exact (Some "Exact name match") in
  jsString "Fix login bug"
  /\ Forall (fun t => jsString (mt_name t)) loginTargets
  /\ c ∈ findMatches "Fix login bug" loginTargets (Double.lit (6 # 10)) None
  /\ (matchMethod c = exact <-> (confidence c == 1)%Q).
Proof.
  cbv zeta.
  assert (jsString "Fix login bug") as H1 by (vm_compute; reflexivity).
  assert (Forall (fun t => jsString (mt_name t)) loginTargets) as H2
    by (repeat constructor; vm_compute; reflexivity).
  assert (mkCandidate "a1" "Fix login bug" 1 exact (Some "Exact name match")
            ∈ findMatches "Fix login bug" loginTargets (Double.lit (6 # 10)) None)
    as H3 by (vm_compute; left).
  split; [exact H1|]. split; [exact H2|]. split; [exact H3|].
  exact (proj1 (findMatches_exact_iff_one _ _ _ _ _ H1 H2 H3)).
Defined.

(** ** Best match *)

Lemma headAbove_spec l m c :
  headAbove l m = Some c ->
  head l = Some c /\ Qge_bool (confidence c) m = true.
Proof.
  destruct l as [|x r]; simpl; [done|].
  destruct (Qge_bool (confidence x) m) eqn:E; [|done]. by intros [= <-].
Qed.

Lemma getBestMatch_threshold fuse s ts m d c :
  getBestMatch fuse s ts m d = Some c -> (m <= confidence c)%Q.
Proof.
  unfold getBestMatch. destruct (headAbove (findMatches _ _ _ _) _) eqn:E.
  - intros [= <-]. apply headAbove_spec in E as [_ E]. by apply Qle_bool_iff.
  - intros [_ E']%headAbove_spec. by apply Qle_bool_iff.
Qed.

Lemma sortDesc_head {A} (key : A -> Q) (l : list A) x :
  x ∈ l -> exists h, head (sortDesc key l) = Some h /\ (key x <= key h)%Q.
Proof.
  intros Hx. pose proof (sortDesc_sorted key l) as Hs.
  rewrite <- (sortDesc_perm key l) in Hx.
  destruct (sortDesc key l) as [|h r]; [by apply elem_of_nil in Hx|].
  exists h. split; [done|].
  apply StronglySorted_inv in Hs as [_ Hs]. rewrite Forall_forall in Hs.
  apply elem_of_cons in Hx as [->|Hx]; [apply Qle_refl|by apply Hs].
Qed.

(** X5.  The names being JavaScript strings, when some available target has
    the same normalised name as the source and the minimum confidence is at
    most 1, [getBestMatch] returns an exact match with confidence 1, whatever
    Fuse.js would answer: the fallback is not consulted. *)
Theorem getBestMatch_prefers_exact (fuse : FuseSearch) (sourceName : string)
    (targetTasks : list MatchableTask) (minConfidence : Q)
    (sourceDescription : option string) (t : MatchableTask) :
  jsString sourceName ->
  Forall (fun t => jsString (mt_name t)) targetTasks ->
  t ∈ targetTasks ->
  normalizeText sourceName = normalizeText (mt_name t) ->
  (minConfidence <= 1)%Q ->
  exists c t',
    getBestMatch fuse sourceName targetTasks minConfidence sourceDescription
    = Some c
    /\ matchMethod c = exact /\ (confidence c == 1)%Q
    /\ t' ∈ targetTasks /\ gid c = mt_gid t' /\ name c = mt_name t'
    /\ normalizeText sourceName = normalizeText (mt_name t').
Proof.
  intros Hjs Hjt Ht Hname Hmin.
  set (exactC := mkCandidate (mt_gid t) (mt_name t) 1 exact (Some "Exact name match")).
  assert (exactC ∈ findMatches_candidates sourceName targetTasks sourceDescription)
    as Hin.
  { rewrite findMatches_candidates_flat, list_elem_of_In, in_flat_map.
    exists t. split; [by apply list_elem_of_In|].
    unfold findMatches_body, push. rewrite Hname, String.eqb_refl. by left. }
  assert (exactC ∈ List.filter (fun c => Qge_bool (confidence c) minConfidence)
            (findMatches_candidates sourceName targetTasks sourceDescription))
    as Hfil.
  { apply list_elem_of_In, filter_In. split; [by apply list_elem_of_In|].
    by apply Qle_bool_iff. }
  destruct (sortDesc_head confidence _ _ Hfil) as (h & Hh & Hle).
  assert (head (findMatches sourceName targetTasks minConfidence sourceDescription)
          = Some h) as Hhead.
  { unfold findMatches. destruct (sortDesc confidence _); [done|].
    simpl in *. done. }
  assert (h ∈ findMatches sourceName targetTasks minConfidence sourceDescription)
    as Hmem by (by apply head_Some_elem_of).
  destruct (findMatches_subset _ _ _ _ _ Hmem) as [Hcand _].
  assert (confidence h == 1)%Q as Hone.
  { apply Qle_antisym; [by eapply candidates_le_1|exact Hle]. }
  destruct (confidence_one_exact _ _ _ _ Hjs Hjt Hcand) as [Hiff Htarget].
  destruct (Htarget (proj2 Hiff Hone)) as (t' & Ht' & Hg & Hn & Hnorm).
  exists h, t'. unfold getBestMatch, headAbove.
  destruct (findMatches sourceName targetTasks minConfidence sourceDescription)
    as [|x r]; [done|]. injection Hhead as ->.
  assert (Qge_bool (confidence h) minConfidence = true) as ->.
  { apply Qle_bool_iff. by rewrite Hone. }
  repeat split; try done. by apply Hiff.
Qed.

Lemma getBestMatch_prefers_exact_witness :
  jsString "ship it now"
  /\ Forall (fun t => jsString (mt_name t))
        [mkMatchable "a2" "Write release letters" None;
         mkMatchable "a3" "SHIP IT, NOW!" None]
  /\ mkMatchable "a3" "SHIP IT, NOW!" None
      ∈ [mkMatchable "a2" "Write release letters" None;
         mkMatchable "a3" "SHIP IT, NOW!" None]
  /\ normalizeText "ship it now" = normalizeText "SHIP IT, NOW!"
  /\ (Double.lit (6 # 10) <= 1)%Q
  /\ exists c t',
       getBestMatch MoreInputs.fusePerfect "ship it now"
         [mkMatchable "a2" "Write release letters" None;
          mkMatchable "a3" "SHIP IT, NOW!" None] (Double.lit (6 # 10)) None
       = Some c
       /\ matchMethod c = exact /\ (confidence c == 1)%Q
       /\ t' ∈ [mkMatchable "a2" "Write release letters" None;
                mkMatchable "a3" "SHIP IT, NOW!" None]
       /\ gid c = mt_gid t' /\ name c = mt_name t'
       /\ normalizeText "ship it now" = normalizeText (mt_name t').
Proof.
  assert (mkMatchable "a3" "SHIP IT, NOW!" None
            ∈ [mkMatchable "a2" "Write release letters" None;
               mkMatchable "a3" "SHIP IT, NOW!" None]) as H1 by (right; left).
  assert (normalizeText "ship it now" = normalizeText "SHIP IT, NOW!") as H2
    by (vm_compute; reflexivity).
  assert (Double.lit (6 # 10) <= 1)%Q as H3 by (vm_compute; discriminate).
  assert (jsString "ship it now") as H4 by (vm_compute; reflexivity).
  assert (Forall (fun t => jsString (mt_name t))
            [mkMatchable "a2" "Write release letters" None;
             mkMatchable "a3" "SHIP IT, NOW!" None]) as H5
    by (repeat constructor; vm_compute; reflexivity).
  split; [exact H4|]. split; [exact H5|].
  split; [exact H1|]. split; [exact H2|]. split; [exact H3|].
  exact (getBestMatch_prefers_exact MoreInputs.fusePerfect _ _ _ None _
           H4 H5 H1 H2 H3).
Defined.

(** X9.  A Fuse.js result with score 0 is thrown away.  [fuzzySearch] turns
    a score into the confidence [1 - (score || 1)], and the score 0, the best
    there is, is falsy like an absent score; so when the rules find nothing
    and the first Fuse.js result has score 0 or no score, its confidence is
    0 and [getBestMatch] returns nothing for any positive minimum
    confidence. *)
Theorem getBestMatch_drops_zero_score_hit (fuse : FuseSearch)
    (sourceName : string) (targetTasks : list MatchableTask) (minConfidence : Q)
    (sourceDescription : option string) (item : MatchableTask)
    (score : option Q) (rest : list (MatchableTask * option Q)) :
  (0 < minConfidence)%Q ->
  findMatches sourceName targetTasks minConfidence sourceDescription = [] ->
  fuse targetTasks (Double.sub 1 minConfidence) sourceName
  = (item, score) :: rest ->
  (score = None \/ exists x, score = Some x /\ (x == 0)%Q) ->
  (confidence <$> head (fuzzySearch fuse sourceName targetTasks minConfidence)
   = Some (Double.sub 1 1))
  /\ getBestMatch fuse sourceName targetTasks minConfidence sourceDescription
     = None.
Proof.
  intros Hpos Hnone Hfuse Hscore.
  assert (scoreOr1 score = 1%Q) as Hs.
  { destruct Hscore as [->|(x & -> & Hx)]; [done|]. simpl.
    by rewrite (proj2 (Qeq_bool_iff x 0) Hx). }
  unfold getBestMatch. rewrite Hnone. simpl.
  unfold fuzzySearch. rewrite Hfuse. simpl. rewrite Hs. split; [done|].
  change (Double.sub 1 1) with 0%Q.
  destruct (Qge_bool 0 minConfidence) eqn:E; [|done].
  apply Qle_bool_iff in E. exfalso. by apply (Qlt_not_le _ _ Hpos).
Qed.

Lemma getBestMatch_drops_zero_score_hit_witness :
  (0 < Double.lit (6 # 10))%Q
  /\ findMatches "Release letter" MoreInputs.releaseTargets
       (Double.lit (6 # 10)) None = []
  /\ MoreInputs.fusePerfect MoreInputs.releaseTargets
       (Double.sub 1 (Double.lit (6 # 10))) "Release letter"
     = (mkMatchable "a7" "Quarterly numbers" None, Some 0%Q) :: []
  /\ getBestMatch MoreInputs.fusePerfect "Release letter"
       MoreInputs.releaseTargets (Double.lit (6 # 10)) None = None.
Proof.
  assert (0 < Double.lit (6 # 10))%Q as H1 by (vm_compute; reflexivity).
  assert (findMatches "Release letter" MoreInputs.releaseTargets
            (Double.lit (6 # 10)) None = [])
    as H2 by (vm_compute; reflexivity).
  assert (MoreInputs.fusePerfect MoreInputs.releaseTargets
            (Double.sub 1 (Double.lit (6 # 10))) "Release letter"
          = (mkMatchable "a7" "Quarterly numbers" None, Some 0%Q) :: []) as H3
    by reflexivity.
  split; [exact H1|]. split; [exact H2|]. split; [exact H3|].
  refine (proj2 (getBestMatch_drops_zero_score_hit MoreInputs.fusePerfect
                   "Release letter" MoreInputs.releaseTargets
                   (Double.lit (6 # 10)) None _ _ _ H1 H2 H3 _)).
  right. exists 0%Q. split; reflexivity.
Defined.

(** ** The greedy pairing *)

Lemma getBestMatch_target fuse s ts m d c :
  fuse_sound fuse ->
  getBestMatch fuse s ts m d = Some c ->
  exists t, t ∈ ts /\ gid c = mt_gid t /\ name c = mt_name t.
Proof.
  intros Hfuse. unfold getBestMatch.
  destruct (headAbove (findMatches _ _ _ _) _) eqn:E.
  - intros [= ->]. apply headAbove_elem, findMatches_subset in E as [E _].
    apply candidate_from_rule in E as (t & v & Ht & _ & Hg & Hn & _). eauto.
  - intros H%headAbove_elem. unfold fuzzySearch in H.
    apply list_elem_of_In, in_map_iff in H as (r & <- & Hr).
    apply list_elem_of_In, (subseteq_take 5), Hfuse in Hr. eauto.
Qed.

Lemma suggestedFor_cons fuse matchable linkedP minC p ps sm :
  suggestedFor fuse matchable linkedP minC ps sm ->
  suggestedFor fuse matchable linkedP minC (p :: ps) sm.
Proof.
  intros (q & c & avail & Hq & H). exists q, c, avail. split; [by right|done].
Qed.

Lemma autoMatch_fold_trace fuse matchable linkedP minC ps sugs used :
  exists news,
    (fold_left (autoMatch_body fuse matchable linkedP minC) ps (sugs, used)).1
    = sugs ++ news
    /\ planeTaskId <$> news
       `sublist_of` pt_id <$> List.filter
                      (fun p => negb (bool_decide (pt_id p ∈ linkedP))) ps
    /\ Forall (suggestedFor fuse matchable linkedP minC ps) news.
Proof.
  revert sugs used.
  induction ps as [|p ps IH]; intros sugs used; cbn [fold_left List.filter].
  - exists []. by rewrite app_nil_r.
  - unfold autoMatch_body at 2.
    destruct (bool_decide (pt_id p ∈ linkedP)) eqn:Hl; cbn [negb].
    { destruct (IH sugs used) as (news & H1 & H2 & H3).
      exists news. split; [done|]. split; [done|].
      eapply Forall_impl; [exact H3|]. intros ?. apply suggestedFor_cons. }
    apply bool_decide_eq_false in Hl.
    destruct (length _ =? 0).
    { destruct (IH sugs used) as (news & H1 & H2 & H3).
      exists news. split; [done|]. split; [by apply sublist_cons|].
      eapply Forall_impl; [exact H3|]. intros ?. apply suggestedFor_cons. }
    destruct (getBestMatch _ _ _ _ _) as [c|] eqn:E.
    2:{ destruct (IH sugs used) as (news & H1 & H2 & H3).
        exists news. split; [done|]. split; [by apply sublist_cons|].
        eapply Forall_impl; [exact H3|]. intros ?. apply suggestedFor_cons. }
    match goal with
    | |- context [fold_left _ ps (sugs ++ [?sm], ?u)] =>
        destruct (IH (sugs ++ [sm]) u) as (news & H1 & H2 & H3);
        exists (sm :: news)
    end.
    split; [by rewrite H1, <- app_assoc|].
    split; [by apply sublist_skip|].
    constructor.
    + eexists p, c, _. split; [by left|]. split; [done|].
      split; [|split; [exact E|reflexivity]].
      intros t Ht. by apply list_elem_of_In, filter_In in Ht as [Ht%list_elem_of_In _].
    + eapply Forall_impl; [exact H3|]. intros ?. apply suggestedFor_cons.
Qed.

(** X6.  Every suggestion of [autoMatchAllTasks] is made for a source record
    of the input that was not linked yet and carries that record's name; its
    confidence is at least the minimum confidence; its reason is never the
    empty string; and, Fuse.js returning only items of its collection, its
    target is a record of the input that was not linked yet, under that
    record's name. *)
Theorem autoMatchAllTasks_wellformed (fuse : FuseSearch)
    (planeTasks : list PlaneTask) (asanaTasks : list AsanaTask)
    (alreadyLinkedPlaneIds alreadyLinkedAsanaGids : gset string)
    (minConfidence : Q) (sm : SuggestedMatch) :
  sm ∈ autoMatchAllTasks fuse planeTasks asanaTasks
         alreadyLinkedPlaneIds alreadyLinkedAsanaGids minConfidence ->
  (exists p, p ∈ planeTasks /\ (pt_id p ∉ alreadyLinkedPlaneIds)
             /\ planeTaskId sm = pt_id p /\ planeTaskName sm = pt_name p)
  /\ (minConfidence <= sm_confidence sm)%Q
  /\ sm_matchReason sm <> ""
  /\ (fuse_sound fuse ->
      exists a, a ∈ asanaTasks /\ (at_gid a ∉ alreadyLinkedAsanaGids)
                /\ asanaTaskGid sm = at_gid a /\ asanaTaskName sm = at_name a).
Proof.
  unfold autoMatchAllTasks.
  match goal with
  | |- context [fold_left (autoMatch_body fuse ?m ?lp ?mc) ?ps (?s0, ?u0)] =>
      destruct (autoMatch_fold_trace fuse m lp mc ps s0 u0) as (news & H1 & _ & H3);
      destruct (fold_left (autoMatch_body fuse m lp mc) ps (s0, u0)) as [sugs u]
  end.
  simpl in H1. subst sugs. rewrite sortDesc_perm. intros Hsm.
  rewrite Forall_forall in H3.
  destruct (H3 _ Hsm) as (p & c & avail & Hp & Hl & Havail & Hbest & ->).
  simpl. split; [by exists p|].
  split; [by eapply getBestMatch_threshold|].
  split.
  { unfold reasonOr. destruct (matchReason c) as [r|]; [|done].
    destruct (String.eqb r "") eqn:Er; [done|]. by apply String.eqb_neq. }
  intros Hfuse.
  destruct (getBestMatch_target _ _ _ _ _ _ Hfuse Hbest) as (t & Ht & Hg & Hn).
  apply Havail, list_elem_of_In, in_map_iff in Ht as (a & <- & Ha).
  apply filter_In in Ha as [Ha Hu].
  apply negb_true_iff, bool_decide_eq_false in Hu.
  exists a. by split; [apply list_elem_of_In|].
Qed.

Lemma autoMatchAllTasks_wellformed_witness :
  let result := autoMatchAllTasks MoreInputs.fusePerfect somePlaneTasks
                  MoreInputs.shipAsanaTasks ∅ {["a1"]} (Double.lit (6 # 10)) in
  let sm := mkSuggestion "p1" "Ship it now" "a3" "SHIP IT, NOW!" 1 exact
              "Exact name match" in
  sm ∈ result
  /\ (exists p, p ∈ somePlaneTasks /\ (pt_id p ∉ (∅ : gset string))
                /\ planeTaskId sm = pt_id p /\ planeTaskName sm = pt_name p)
  /\ (Double.lit (6 # 10) <= sm_confidence sm)%Q.
Proof.
  cbv zeta.
  assert (mkSuggestion "p1" "Ship it now" "a3" "SHIP IT, NOW!" 1 exact
            "Exact name match"
          ∈ autoMatchAllTasks MoreInputs.fusePerfect somePlaneTasks
              MoreInputs.shipAsanaTasks ∅ {["a1"]} (Double.lit (6 # 10))) as Hin.
  { vm_compute. left. }
  split; [exact Hin|].
  destruct (autoMatchAllTasks_wellformed _ _ _ _ _ _ _ Hin) as (H1 & H2 & _).
  split; [exact H1|exact H2].
Defined.

(** X7.  The list returned by [autoMatchAllTasks] is in order of confidence,
    highest first; it holds at most one suggestion per unlinked source
    record: the source identifiers of the suggestions, counted with their
    repetitions, are among those of the unlinked source records, so there is
    none when every source is linked; and, Fuse.js returning only items of
    its collection, at most one per unlinked target record, in the same
    sense. *)
Theorem autoMatchAllTasks_sorted_bounded (fuse : FuseSearch)
    (planeTasks : list PlaneTask) (asanaTasks : list AsanaTask)
    (alreadyLinkedPlaneIds alreadyLinkedAsanaGids : gset string)
    (minConfidence : Q) :
  let result := autoMatchAllTasks fuse planeTasks asanaTasks
                  alreadyLinkedPlaneIds alreadyLinkedAsanaGids minConfidence in
  descending sm_confidence result
  /\ planeTaskId <$> result
     ⊆+ pt_id <$> List.filter
                    (fun p => negb (bool_decide (pt_id p ∈ alreadyLinkedPlaneIds)))
                    planeTasks
  /\ (fuse_sound fuse ->
      asanaTaskGid <$> result
      ⊆+ at_gid <$> List.filter
                      (fun a => negb (bool_decide (at_gid a ∈ alreadyLinkedAsanaGids)))
                      asanaTasks).
Proof.
  cbv zeta. unfold autoMatchAllTasks.
  match goal with
  | |- context [fold_left (autoMatch_body fuse ?m ?lp ?mc) ?ps (?s0, ?u0)] =>
      destruct (autoMatch_fold_trace fuse m lp mc ps s0 u0) as (news & H1 & H2 & H3);
      pose proof (fun Hf => autoMatch_loop fuse Hf m lp mc ps s0 u0) as Hloop;
      destruct (fold_left (autoMatch_body fuse m lp mc) ps (s0, u0)) as [sugs u]
  end.
  simpl in H1, Hloop. subst sugs.
  split; [apply sorted_descending, sortDesc_sorted|].
  rewrite (sortDesc_perm sm_confidence news).
  split; [by apply sublist_submseteq|].
  intros Hfuse.
  destruct (Hloop Hfuse) as [Hnd _];
    [constructor | by intros ? ?%elem_of_nil |].
  apply NoDup_submseteq; [done|]. intros g (sm & -> & Hsm)%list_elem_of_fmap.
  rewrite Forall_forall in H3.
  destruct (H3 _ Hsm) as (p & c & avail & _ & _ & Havail & Hbest & ->).
  destruct (getBestMatch_target _ _ _ _ _ _ Hfuse Hbest) as (t & Ht & Hg & _).
  apply Havail, list_elem_of_In, in_map_iff in Ht as (a & <- & Ha).
  simpl. rewrite Hg. simpl. apply list_elem_of_fmap. exists a.
  split; [done|]. by apply list_elem_of_In.
Qed.

Lemma autoMatchAllTasks_sorted_bounded_witness :
  let result := autoMatchAllTasks fuseEverything somePlaneTasks twinAsanaTasks
                  ∅ {["a2"]} (Double.lit (6 # 10)) in
  fuse_sound fuseEverything
  /\ (planeTaskId <$> result, asanaTaskGid <$> result) = (["p1"], ["a1"])
  /\ asanaTaskGid <$> result
     ⊆+ at_gid <$> List.filter
                     (fun a => negb (bool_decide (at_gid a ∈ ({["a2"]} : gset string))))
                     twinAsanaTasks.
Proof.
  cbv zeta. split; [exact fuseEverything_sound|].
  split; [vm_compute; reflexivity|].
  exact (proj2 (proj2 (autoMatchAllTasks_sorted_bounded fuseEverything
                         somePlaneTasks twinAsanaTasks ∅ {["a2"]}
                         (Double.lit (6 # 10)))) fuseEverything_sound).
Defined.

(** ** The normaliser *)

(** A property of one code unit is settled by trying the 256 of them. *)
Ltac each_char c :=
  destruct c as [[] [] [] [] [] [] [] []]; vm_compute;
  try reflexivity; try discriminate; auto.

Lemma lowerChar_cases c :
  let l := lowerChar c in
  let d := if isWordChar l || isSpace l then l else " "%char in
  (isSpace d || isNormalChar d) = true.
Proof. each_char c. Qed.

Lemma normal_space c : isNormalChar c = true -> isSpace c = true -> c = " "%char.
Proof. each_char c. Qed.

Lemma normal_fixed c :
  isNormalChar c = true -> lowerChar c = c /\ (isWordChar c || isSpace c) = true.
Proof. each_char c. Qed.

Lemma nonspace_normal c :
  (isSpace c || isNormalChar c) = true -> isSpace c = false -> isNormalChar c = true.
Proof. intros H E. by rewrite E in H. Qed.

Lemma replacePunct_chars s :
  allChars (fun d => isSpace d || isNormalChar d) (replacePunct (toLowerCase s)) = true.
Proof.
  induction s as [|c r IH]; simpl; [done|].
  rewrite IH, andb_true_r. apply lowerChar_cases.
Qed.

Lemma collapse_chars b s :
  allChars (fun d => isSpace d || isNormalChar d) s = true ->
  allChars isNormalChar (collapseSpaces b s) = true
  /\ singleSpaced b (collapseSpaces b s) = true.
Proof.
  revert b. induction s as [|c r IH]; intros b; simpl; [done|].
  intros [Hc Hr]%andb_true_iff.
  destruct (isSpace c) eqn:Ec.
  - destruct b; [by apply IH|]. simpl. by apply IH.
  - simpl. rewrite Ec. simpl in Hc. rewrite Hc. by apply IH.
Qed.

Lemma singleSpaced_weaken b s : singleSpaced b s = true -> singleSpaced false s = true.
Proof.
  destruct s as [|c r]; simpl; [done|].
  destruct (isSpace c); [|done]. destruct b; simpl; [done|done].
Qed.

Lemma trimStart_keeps (p : ascii -> bool) b s :
  allChars p s = true -> singleSpaced b s = true ->
  allChars p (trimStart s) = true
  /\ singleSpaced false (trimStart s) = true.
Proof.
  revert b. induction s as [|c r IH]; intros b; simpl; [done|].
  intros [Hc Hr]%andb_true_iff.
  destruct (isSpace c) eqn:Ec.
  - intros [_ H]%andb_true_iff. by eapply IH.
  - intros H. simpl. by rewrite Ec, Hc, Hr.
Qed.

Lemma trimEnd_keeps (p : ascii -> bool) b s :
  allChars p s = true -> singleSpaced b s = true ->
  allChars p (trimEnd s) = true
  /\ singleSpaced b (trimEnd s) = true.
Proof.
  revert b. induction s as [|c r IH]; intros b; simpl; [done|].
  intros [Hc Hr]%andb_true_iff Hs.
  assert (exists b', singleSpaced b' r = true
            /\ (forall r', singleSpaced b' r' = true ->
                  singleSpaced b (String c r') = true)) as (b' & Hb' & Hback).
  { simpl. destruct (isSpace c).
    - apply andb_true_iff in Hs as [H1 H2]. exists true. split; [done|].
      intros r' ->. by rewrite H1.
    - exists false. by split. }
  destruct (IH b' Hr Hb') as [H1 H2].
  destruct (trimEnd r) as [|c' r'] eqn:E.
  - destruct (isSpace c) eqn:Ec; [done|]. simpl. by rewrite Hc, Ec.
  - split; [simpl; by rewrite Hc|]. by apply Hback.
Qed.

Lemma trimStart_trimStart s : trimStart (trimStart s) = trimStart s.
Proof.
  induction s as [|c r IH]; simpl; [done|].
  destruct (isSpace c) eqn:E; [done|]. simpl. by rewrite E.
Qed.

Lemma trimEnd_trimEnd s : trimEnd (trimEnd s) = trimEnd s.
Proof.
  induction s as [|c r IH]; simpl; [done|].
  destruct (trimEnd r) as [|c' r'] eqn:E.
  - destruct (isSpace c) eqn:Ec; [done|]. simpl. by rewrite Ec.
  - simpl in *. by rewrite IH.
Qed.

Lemma trimStart_trimEnd s : trimStart s = s -> trimStart (trimEnd s) = trimEnd s.
Proof.
  destruct s as [|c r]; [done|]. simpl.
  destruct (isSpace c) eqn:Ec.
  - intros H. exfalso.
    assert (forall t, String.length (trimStart t) <= String.length t) as Hlen.
    { induction t as [|x t IHt]; simpl; [done|]. destruct (isSpace x); simpl; lia. }
    specialize (Hlen r). rewrite H in Hlen. simpl in Hlen. lia.
  - intros _. destruct (trimEnd r); simpl; by rewrite Ec.
Qed.

Lemma trim_trim s : trim (trim s) = trim s.
Proof.
  unfold trim.
  rewrite (trimStart_trimEnd (trimStart s)) by apply trimStart_trimStart.
  apply trimEnd_trimEnd.
Qed.

Lemma normal_passes b s :
  allChars isNormalChar s = true -> singleSpaced b s = true ->
  toLowerCase s = s /\ replacePunct s = s /\ collapseSpaces b s = s.
Proof.
  revert b. induction s as [|c r IH]; intros b; simpl; [done|].
  intros [Hc Hr]%andb_true_iff Hs.
  destruct (normal_fixed c Hc) as [Hl Hw]. rewrite Hl, Hw.
  destruct (isSpace c) eqn:Ec.
  - apply andb_true_iff in Hs as [Hb Hs]. destruct b; [done|].
    destruct (IH true Hr Hs) as (-> & -> & ->).
    by rewrite (normal_space c Hc Ec).
  - by destruct (IH false Hr Hs) as (-> & -> & ->).
Qed.

Lemma normalizeText_tidy text :
  allChars isNormalChar (normalizeText text) = true
  /\ singleSpaced false (normalizeText text) = true.
Proof.
  unfold normalizeText, trim.
  destruct (collapse_chars false _ (replacePunct_chars text)) as [H1 H2].
  destruct (trimStart_keeps _ _ _ H1 H2) as [H3 H4].
  by apply trimEnd_keeps.
Qed.

(** X1.  [normalizeText] is idempotent: a normalised text is left as it is.
    Its result holds only lower-case letters, digits, underscores and single
    blanks, and has no blank at either end. *)
Theorem normalizeText_idempotent (text : string) :
  normalizeText (normalizeText text) = normalizeText text
  /\ allChars isNormalChar (normalizeText text) = true
  /\ singleSpaced false (normalizeText text) = true
  /\ trim (normalizeText text) = normalizeText text.
Proof.
  destruct (normalizeText_tidy text) as [Hc Hs].
  assert (trim (normalizeText text) = normalizeText text) as Ht.
  { unfold normalizeText at 1 2. apply trim_trim. }
  split; [|done].
  destruct (normal_passes _ _ Hc Hs) as (Hl & Hp & Hcol).
  unfold normalizeText at 1. by rewrite Hl, Hp, Hcol.
Qed.

Lemma extractKeywords_normalised s1 s2 :
  normalizeText s1 = normalizeText s2 -> extractKeywords s1 = extractKeywords s2.
Proof. unfold extractKeywords. by intros ->. Qed.

Lemma keywordOverlapScore_normalised_l s1 s2 t :
  normalizeText s1 = normalizeText s2 ->
  keywordOverlapScore s1 t = keywordOverlapScore s2 t.
Proof.
  intros H%extractKeywords_normalised. unfold keywordOverlapScore. by rewrite H.
Qed.

(** X8.  The scorer reads the source name only through its normalised form:
    two source names with the same normalised text (they differ in case,
    punctuation or spacing only) get the same candidates, with the same
    confidences, methods and reasons. *)
Theorem findMatches_source_spelling (sourceName1 sourceName2 : string)
    (targetTasks : list MatchableTask) (threshold : Q)
    (sourceDescription : option string) :
  normalizeText sourceName1 = normalizeText sourceName2 ->
  findMatches sourceName1 targetTasks threshold sourceDescription
  = findMatches sourceName2 targetTasks threshold sourceDescription.
Proof.
  intros Hn. unfold findMatches. do 3 f_equal.
  rewrite !findMatches_candidates_flat, <- Hn.
  apply flat_map_ext. intros t. unfold findMatches_body.
  rewrite (keywordOverlapScore_normalised_l _ _ (mt_name t) Hn).
  destruct (String.eqb _ _); [done|].
  destruct sourceDescription as [sd|], (mt_description t) as [td|]; try done.
  by rewrite (keywordOverlapScore_normalised_l _ _ td Hn).
Qed.

Lemma findMatches_source_spelling_witness :
  normalizeText "Fix: LOGIN  bug!" = normalizeText "fix login bug"
  /\ findMatches "Fix: LOGIN  bug!" loginTargets (Double.lit (6 # 10)) None
     = findMatches "fix login bug" loginTargets (Double.lit (6 # 10)) None.
Proof.
  assert (normalizeText "Fix: LOGIN  bug!" = normalizeText "fix login bug") as H
    by (vm_compute; reflexivity).
  split; [exact H|].
  exact (findMatches_source_spelling _ _ loginTargets (Double.lit (6 # 10)) None H).
Defined.

End MatchingMore.

(** * Further properties of change detection *)

Module ChangesMore.
Import Changes History ChangesProofs.

(** ** The batched fetcher *)

Lemma inSet_empty o : inSet o ∅ = false.
Proof.
  unfold inSet. rewrite andb_false_iff. right.
  apply bool_decide_eq_false, not_elem_of_empty.
Qed.

Lemma latency_bound (remote : Remote) (L : nat) (ps : list (Source * string)) :
  (forall x, planeLatency remote x <= L) ->
  (forall x, asanaLatency remote x <= L) ->
  max_list (latency remote <$> ps) <= L.
Proof.
  intros Hp Ha. induction ps as [|[[] x] ps IH]; [simpl; lia| |];
    rewrite fmap_cons; cbn [max_list]; unfold latency at 1; cbn [fst snd id].
  - specialize (Hp x). lia.
  - specialize (Ha x). lia.
Qed.

(** X10.  The fetcher records a count for exactly the identifiers it
    requests.  Each request is for a non-empty identifier of one of the
    tasks it was given; with a filter, it is for an identifier of the
    filter's set of that side, and with two empty sets the fetcher issues no
    request, waits for nothing and returns two empty mappings. *)
Theorem fetch_exactly_wanted (remote : Remote) (projectId : string)
    (onlyModified : option OnlyModified) (tasks : list Task) :
  let result := fetchCommentCountsBatched remote projectId onlyModified tasks in
  (forall x, is_Some (planeComments result !! x) <-> requested plane x result)
  /\ (forall x, is_Some (asanaComments result !! x) <-> requested asana x result)
  /\ (forall x, requested plane x result ->
        x <> ""
        /\ (exists t, t ∈ tasks /\ t_planeIssueId t = Some x)
        /\ forall om, onlyModified = Some om -> x ∈ planeIds om)
  /\ (forall x, requested asana x result ->
        x <> ""
        /\ (exists t, t ∈ tasks /\ t_asanaTaskGid t = Some x)
        /\ forall om, onlyModified = Some om -> x ∈ asanaIds om)
  /\ (forall om, onlyModified = Some om -> planeIds om = ∅ -> asanaIds om = ∅ ->
        result = emptyCounts).
Proof.
  cbv zeta. split; [|split; [|split; [|split]]].
  - intros x. rewrite fetch_requested, promised_plane. split.
    + intros [c Hc]. by apply fetch_plane_lookup in Hc as [H _].
    + intros H. eexists. apply fetch_plane_lookup. by split.
  - intros x. rewrite fetch_requested, promised_asana. split.
    + intros [c Hc]. by apply fetch_asana_lookup in Hc as [H _].
    + intros H. eexists. apply fetch_asana_lookup. by split.
  - intros x. rewrite fetch_requested, promised_plane.
    intros (t & Ht & Hx & Hw).
    apply wanted_spec in Hw as (y & Hy & Hne & Hsel).
    rewrite Hx in Hy. injection Hy as <-.
    split; [done|]. split; [by exists t|]. by intros om ->.
  - intros x. rewrite fetch_requested, promised_asana.
    intros (t & Ht & Hx & Hw).
    apply wanted_spec in Hw as (y & Hy & Hne & Hsel).
    rewrite Hx in Hy. injection Hy as <-.
    split; [done|]. split; [by exists t|]. by intros om ->.
  - intros om -> Hp Ha. unfold fetchCommentCountsBatched, tasksToFetch.
    rewrite Hp, Ha.
    assert (List.filter (fun t => inSet (t_planeIssueId t) ∅
                                  || inSet (t_asanaTaskGid t) ∅) tasks = []) as ->.
    { induction tasks as [|t ts IH]; simpl; [done|]. by rewrite !inSet_empty. }
    reflexivity.
Qed.

(** X11.  How long a call of the fetcher takes.  With [n] tasks to fetch
    there are [ceil(n / 3)] batches; the call waits 1500 ms between two
    batches and not after the last one, so it lasts at least 1500 ms times
    the number of batches less one, and at most that plus one latency
    bound per batch when no request takes longer than [L]. *)
Theorem fetch_duration (remote : Remote) (projectId : string)
    (onlyModified : option OnlyModified) (tasks : list Task) (L : nat) :
  (forall x, planeLatency remote x <= L) ->
  (forall x, asanaLatency remote x <= L) ->
  let batches := (length (tasksToFetch onlyModified tasks) + 2) / 3 in
  let result := fetchCommentCountsBatched remote projectId onlyModified tasks in
  1500 * (batches - 1) <= clock result
  /\ clock result <= batches * L + 1500 * (batches - 1).
Proof.
  intros Hp Ha. cbv zeta. unfold fetchCommentCountsBatched.
  set (l := tasksToFetch onlyModified tasks).
  set (nb := (length l + 2) / 3).
  apply (fetchLoop_rule remote projectId onlyModified l
           (fun i st => exists k, i = 3 * k
              /\ (i < length l \/ (length l = 0 /\ k = 0))
              /\ 1500 * k <= clock st /\ clock st <= k * L + 1500 * k)).
  - intros i st (k & -> & Hi & Hlo & Hhi) Hexit.
    destruct Hi as [Hi|[Hl ->]]; [lia|].
    subst nb. rewrite Hl. simpl in *. lia.
  - unfold BATCH_SIZE, BATCH_DELAY.
    intros i st (k & -> & _ & Hlo & Hhi) Hi Hnext.
    exists (S k). split; [lia|]. split; [left; lia|].
    unfold delay, awaitAll. cbn [clock].
    match goal with
    | |- context [max_list (latency remote <$> ?ps)] =>
        pose proof (latency_bound remote L ps Hp Ha)
    end. lia.
  - unfold BATCH_SIZE.
    intros i st (k & -> & _ & Hlo & Hhi) Hi Hlast.
    assert (nb = S k) as ->.
    { subst nb. symmetry.
      apply Nat.div_unique with (r := length l + 2 - 3 * S k); lia. }
    unfold awaitAll. cbn [clock].
    match goal with
    | |- context [max_list (latency remote <$> ?ps)] =>
        pose proof (latency_bound remote L ps Hp Ha)
    end. lia.
  - lia.
  - exists 0. split; [done|]. split; [|simpl; lia].
    destruct (length l) eqn:E; [by right|left; lia].
Qed.

Lemma fetch_duration_witness :
  let result := fetchCommentCountsBatched demoRemote "proj" None fourPairs in
  (forall x, planeLatency demoRemote x <= 400)
  /\ (forall x, asanaLatency demoRemote x <= 400)
  /\ (length (tasksToFetch None fourPairs) + 2) / 3 = 2
  /\ 1500 <= clock result /\ clock result <= 2300.
Proof.
  cbv zeta.
  assert (forall x, planeLatency demoRemote x <= 400) as H1 by (intros x; simpl; lia).
  assert (forall x, asanaLatency demoRemote x <= 400) as H2 by (intros x; simpl; lia).
  split; [exact H1|]. split; [exact H2|]. split; [reflexivity|].
  exact (fetch_duration demoRemote "proj" None fourPairs 400 H1 H2).
Defined.

(** ** One detection request *)

Lemma row_missing remote pm am cc tm :
  (detect_body remote pm am cc ([], [], 0) tm).2
  = if History.recordGone pm am tm then 1 else 0.
Proof.
  unfold detect_body, History.recordGone.
  destruct (truthy (tm_planeIssueId tm)); simpl; [|done].
  destruct (truthy (tm_asanaTaskGid tm)); simpl; [|done].
  destruct (pm !! _) as [issue|], (am !! _) as [task|]; simpl; try done.
  by destruct (tm_snapshot tm).
Qed.

Lemma row_gone_silent remote pm am cc tm :
  History.recordGone pm am tm = true ->
  (detect_body remote pm am cc ([], [], 0) tm).1 = ([], []).
Proof.
  unfold detect_body, History.recordGone.
  destruct (truthy (tm_planeIssueId tm)); simpl; [|done].
  destruct (truthy (tm_asanaTaskGid tm)); simpl; [|done].
  by destruct (pm !! _) as [issue|], (am !! _) as [task|].
Qed.

Lemma detect_missing_fold remote pm am cc l pc ac mc :
  (fold_left (detect_body remote pm am cc) l (pc, ac, mc)).2
  = mc + length (List.filter (History.recordGone pm am) l).
Proof.
  revert pc ac mc. induction l as [|tm l IH]; intros pc ac mc; cbn [fold_left].
  - simpl. lia.
  - rewrite detect_body_app, IH, row_missing. simpl.
    destruct (History.recordGone pm am tm); simpl; lia.
Qed.

Section DetectExact.
Variable remote : Remote.
Variable db : DB.
Variable mappingId : string.
Variable mapping : ProjectMapping.
Variable tms : list LinkedTask.
Variable planeIssues : list PlaneIssue.
Variable asanaTasks : list AsanaTask.

Hypothesis tms_ids : NoDup (tm_id <$> tms).

Local Abbreviation pm := (mapBy pi_id planeIssues).
Local Abbreviation am := (mapBy at_gid asanaTasks).
Local Abbreviation cc := (fetchModified remote pm am (planeProjectId mapping) tms).
Local Abbreviation row tm := (detect_body remote pm am cc ([], [], 0) tm).
Local Abbreviation result :=
  (detectChanges remote db mappingId mapping tms planeIssues asanaTasks).
Local Abbreviation changes :=
  (planeChanges result.1 ++ asanaChanges result.1).
Local Abbreviation notNew := (fun c : Change => negb (String.eqb (field c) "new")).

Lemma detect_log_exact :
  changeLog result.2
  = changeLog db ++ (mkChangeLogRow mappingId <$> List.filter notNew changes).
Proof.
  destruct (detectChanges_unfold remote db mappingId mapping tms
              planeIssues asanaTasks) as (-> & -> & ->).
  match goal with |- context [0 <? length ?l] => destruct l eqn:E end; simpl.
  - by rewrite app_nil_r.
  - done.
Qed.

Lemma detect_snapshot_exact k :
  (taskSnapshot result.2 !! k = taskSnapshot db !! k
   /\ forall c, c ∈ changes -> taskMappingId c = k -> field c = "new")
  \/ (exists tm planeIssue asanaTask old c,
        tm ∈ tms /\ tm_id tm = k /\ tracked pm am tm planeIssue asanaTask old
        /\ c ∈ changes /\ taskMappingId c = k /\ field c <> "new"
        /\ taskSnapshot result.2 !! k
           = Some (snapshotOf planeIssue asanaTask
                     (countOr (planeComments cc !! orEmpty (tm_planeIssueId tm))
                              (Some old) planeCommentsCount)
                     (countOr (asanaComments cc !! orEmpty (tm_asanaTaskGid tm))
                              (Some old) asanaCommentsCount))).
Proof.
  pose proof (changed_ids remote mapping tms planeIssues asanaTasks k) as Hids.
  pose proof (reported_rows remote mapping tms planeIssues asanaTasks) as Hrows.
  pose proof (nonNew_elem remote mapping tms planeIssues asanaTasks) as Hnn.
  destruct (detectChanges_unfold remote db mappingId mapping tms
              planeIssues asanaTasks) as (-> & -> & ->).
  match goal with
  | _ : context [distinct ?l] |- _ => set (ids := distinct l) in *
  end.
  match goal with
  | |- context [0 <? length ?l] => set (nn := l) in *
  end.
  assert ((k ∉ ids) ->
          forall c, c ∈ flat_map (fun tm => (row tm).1.1) tms
                        ++ flat_map (fun tm => (row tm).1.2) tms ->
                    taskMappingId c = k -> field c = "new") as Hquiet.
  { intros Hk c Hc Hid. destruct (decide (field c = "new")) as [|Hf]; [done|].
    exfalso. apply Hk, Hids. apply Hrows in Hc as (tm & Htm & Hc).
    destruct (row_change remote pm am cc tm c Hc) as [Hid' _].
    exists tm, c. repeat split; try done. congruence. }
  destruct (decide (k ∈ ids)) as [Hin|Hout].
  - right. apply Hids in Hin as (tm & c & Htm & Hid & Hc & Hf).
    destruct (row_change remote pm am cc tm c Hc) as [Hid' Hrow].
    destruct (Hrow Hf) as (i & t & sn & Htr & _).
    exists tm, i, t, sn, c. split; [done|]. split; [done|]. split; [done|].
    split; [apply Hrows; by exists tm|]. split; [congruence|]. split; [done|].
    assert ((0 <? length nn) = true) as ->.
    { apply Nat.ltb_lt. assert (c ∈ nn) as Hcn.
      { apply Hnn. split; [|done]. apply Hrows. by exists tm. }
      destruct nn; [by apply elem_of_nil in Hcn|simpl; lia]. }
    cbn [taskSnapshot]. subst k.
    apply update_fold_tracked; [done..|].
    apply Hids. by exists tm, c.
  - left. split; [|by apply Hquiet].
    destruct (0 <? length nn); [|done]. cbn [taskSnapshot].
    by apply update_fold_other.
Qed.

Lemma detect_missing :
  missing (summary result.1)
  = Some (length (List.filter (History.recordGone pm am) tms)).
Proof.
  unfold detectChanges.
  pose proof (detect_missing_fold remote pm am cc tms [] [] 0) as H.
  destruct (fold_left (detect_body remote pm am cc) tms ([], [], 0))
    as [[pc ac] mc]. simpl in *. by rewrite H.
Qed.

Lemma detect_gone_silent tm c :
  tm ∈ tms -> History.recordGone pm am tm = true ->
  c ∈ changes -> taskMappingId c <> tm_id tm.
Proof.
  intros Htm Hgone Hc Hid.
  destruct (detectChanges_unfold remote db mappingId mapping tms
              planeIssues asanaTasks) as (Hp & Ha & _).
  rewrite Hp, Ha in Hc.
  apply (reported_rows remote mapping tms planeIssues asanaTasks)
    in Hc as (tm' & Htm' & Hc).
  destruct (row_change remote pm am cc tm' c Hc) as [Hid' _].
  assert (tm' = tm) as -> by (eapply NoDup_fmap_eq; [done..|congruence]).
  rewrite (surjective_pairing (row tm).1) in Hc. 
  pose proof (row_gone_silent remote pm am cc tm Hgone) as E.
  rewrite E in Hc. simpl in Hc. by apply elem_of_nil in Hc.
Qed.
End DetectExact.

(** The four ways a detection request ends. *)
Lemma GET_cases remote db mappingId :
  (projectMapping db !! mappingId = None
   /\ GET remote db mappingId = (NotFound, db))
  \/ (exists mapping, projectMapping db !! mappingId = Some mapping
        /\ findLinked db mappingId = []
        /\ GET remote db mappingId
           = (Ok (mkDetectResult [] [] (mkSummary 0 0 0 None None)), db))
  \/ (exists mapping, projectMapping db !! mappingId = Some mapping
        /\ findLinked db mappingId <> []
        /\ (listIssues remote (planeProjectId mapping) = None
            \/ listTasks remote (asanaProjectGid mapping)
                 (orNull (asanaSectionName mapping)) = None)
        /\ GET remote db mappingId = (ServerError, db))
  \/ (exists mapping planeIssues asanaTasks,
        projectMapping db !! mappingId = Some mapping
        /\ findLinked db mappingId <> []
        /\ listIssues remote (planeProjectId mapping) = Some planeIssues
        /\ listTasks remote (asanaProjectGid mapping)
             (orNull (asanaSectionName mapping)) = Some asanaTasks
        /\ GET remote db mappingId
           = (Ok (detectChanges remote db mappingId mapping
                    (findLinked db mappingId) planeIssues asanaTasks).1,
              (detectChanges remote db mappingId mapping
                    (findLinked db mappingId) planeIssues asanaTasks).2)).
Proof.
  unfold GET.
  destruct (projectMapping db !! mappingId) as [mapping|]; [|by left].
  right. destruct (findLinked db mappingId) as [|tm l] eqn:E.
  { left. by exists mapping. }
  right. cbn [length Nat.eqb].
  destruct (listIssues remote _) as [planeIssues|] eqn:Ei.
  2:{ left. exists mapping. repeat split; try done. by left. }
  destruct (listTasks remote _ _) as [asanaTasks|] eqn:Et.
  2:{ left. exists mapping. repeat split; try done. by right. }
  right. exists mapping, planeIssues, asanaTasks.
  repeat split; try done.
  by destruct (detectChanges remote db mappingId mapping (tm :: l)
                 planeIssues asanaTasks).
Qed.

(** X12.  What a detection request leaves alone.  It answers "not found"
    exactly when the mapping does not exist; when it does not answer with a
    result it changes nothing in the database; it never touches the project
    and task mappings and never deletes a snapshot; and the rows it appends
    to the change log are exactly the changes it reports other than the
    "new" entries, in the order of the report, under this mapping. *)
Theorem GET_frame (remote : Remote) (db : DB) (mappingId : string) :
  let r := GET remote db mappingId in
  (r.1 = NotFound <-> projectMapping db !! mappingId = None)
  /\ ((forall body, r.1 <> Ok body) -> r.2 = db)
  /\ projectMapping r.2 = projectMapping db
  /\ taskMapping r.2 = taskMapping db
  /\ (forall k, is_Some (taskSnapshot db !! k) -> is_Some (taskSnapshot r.2 !! k))
  /\ changeLog r.2
     = changeLog db
       ++ (mkChangeLogRow mappingId
             <$> List.filter (fun c => negb (String.eqb (field c) "new"))
                             (reported r.1)).
Proof.
  cbv zeta.
  destruct (GET_cases remote db mappingId)
    as [[Hm ->]|[(mapping & Hm & Hl & ->)|[(mapping & Hm & Hl & _ & ->)
       |(mapping & planeIssues & asanaTasks & Hm & Hl & Hi & Ht & ->)]]];
    cbn [fst snd reported].
  - repeat split; try done. by rewrite app_nil_r.
  - rewrite Hm. repeat split; try done. by rewrite app_nil_r.
  - rewrite Hm. repeat split; try done. by rewrite app_nil_r.
  - rewrite Hm.
    destruct (tables_after remote db mappingId mapping (findLinked db mappingId)
                planeIssues asanaTasks) as [H1 H2].
    split; [done|]. split; [intros H; by destruct (H _ eq_refl)|].
    split; [done|]. split; [done|]. split.
    + intros k Hk.
      destruct (detect_snapshot_exact remote db mappingId mapping
                  (findLinked db mappingId) planeIssues asanaTasks
                  (findLinked_NoDup db mappingId) k)
        as [[-> _]|(tm & i & t & old & c & _ & _ & _ & _ & _ & _ & ->)]; [done|].
      by eexists.
    + apply detect_log_exact.
Qed.

(** X13.  A detection request takes note of what it reports.  For every
    key of the snapshot table: either the request reports no change for it
    other than a "new" entry, and leaves its snapshot as it was; or the key
    is a linked pair with a snapshot and both records in the listings, and
    its snapshot now holds the live values of the two records, with the
    comment count just fetched or, for a side that was not fetched, the
    count of the old snapshot. *)
Theorem GET_acknowledges (remote : Remote) (db : DB) (mappingId k : string) :
  let r := GET remote db mappingId in
  (taskSnapshot r.2 !! k = taskSnapshot db !! k
   /\ forall c, c ∈ reported r.1 -> taskMappingId c = k -> field c = "new")
  \/ (exists mapping planeIssues asanaTasks tm planeIssue asanaTask old c,
        projectMapping db !! mappingId = Some mapping
        /\ listIssues remote (planeProjectId mapping) = Some planeIssues
        /\ listTasks remote (asanaProjectGid mapping)
             (orNull (asanaSectionName mapping)) = Some asanaTasks
        /\ tm ∈ findLinked db mappingId /\ tm_id tm = k
        /\ tracked (mapBy pi_id planeIssues) (mapBy at_gid asanaTasks)
                   tm planeIssue asanaTask old
        /\ c ∈ reported r.1 /\ taskMappingId c = k /\ field c <> "new"
        /\ let commentCounts :=
             fetchModified remote (mapBy pi_id planeIssues)
               (mapBy at_gid asanaTasks) (planeProjectId mapping)
               (findLinked db mappingId) in
           taskSnapshot r.2 !! k
           = Some (snapshotOf planeIssue asanaTask
                     (countOr (planeComments commentCounts
                                 !! orEmpty (tm_planeIssueId tm))
                              (Some old) planeCommentsCount)
                     (countOr (asanaComments commentCounts
                                 !! orEmpty (tm_asanaTaskGid tm))
                              (Some old) asanaCommentsCount))).
Proof.
  cbv zeta.
  destruct (GET_cases remote db mappingId)
    as [[Hm ->]|[(mapping & Hm & Hl & ->)|[(mapping & Hm & Hl & _ & ->)
       |(mapping & planeIssues & asanaTasks & Hm & Hl & Hi & Ht & ->)]]];
    cbn [fst snd reported];
    try (left; split; [done|]; by intros c ?%elem_of_nil).
  destruct (detect_snapshot_exact remote db mappingId mapping
              (findLinked db mappingId) planeIssues asanaTasks
              (findLinked_NoDup db mappingId) k)
    as [H|(tm & i & t & old & c & H)]; [by left|].
  right. exists mapping, planeIssues, asanaTasks, tm, i, t, old, c.
  by repeat (split; [done|]).
Qed.

(** X14.  Pairs whose record has gone.  When the request goes through, the
    summary counts as missing exactly the fully linked pairs of which the
    Plane issue or the Asana task is no longer in the listings; for such a
    pair the request reports no change and leaves the snapshot as it was. *)
Theorem GET_missing (remote : Remote) (db : DB) (mappingId : string)
    (mapping : ProjectMapping) (planeIssues : list PlaneIssue)
    (asanaTasks : list AsanaTask) :
  projectMapping db !! mappingId = Some mapping ->
  findLinked db mappingId <> [] ->
  listIssues remote (planeProjectId mapping) = Some planeIssues ->
  listTasks remote (asanaProjectGid mapping) (orNull (asanaSectionName mapping))
  = Some asanaTasks ->
  let gone := History.recordGone (mapBy pi_id planeIssues)
                                 (mapBy at_gid asanaTasks) in
  exists body,
    (GET remote db mappingId).1 = Ok body
    /\ missing (summary body)
       = Some (length (List.filter gone (findLinked db mappingId)))
    /\ forall tm, tm ∈ findLinked db mappingId -> gone tm = true ->
         (forall c, c ∈ planeChanges body ++ asanaChanges body ->
                    taskMappingId c <> tm_id tm)
         /\ taskSnapshot (GET remote db mappingId).2 !! tm_id tm
            = taskSnapshot db !! tm_id tm.
Proof.
  intros Hm Hl Hi Ht. cbv zeta.
  destruct (GET_cases remote db mappingId)
    as [[Hm' _]|[(mapping' & _ & Hl' & _)|[(mapping' & Hm' & _ & Hfail & _)
       |(mapping' & planeIssues' & asanaTasks' & Hm' & _ & Hi' & Ht' & ->)]]];
    [congruence|done| |].
  { rewrite Hm in Hm'. injection Hm' as <-. destruct Hfail; congruence. }
  rewrite Hm in Hm'. injection Hm' as <-.
  rewrite Hi in Hi'. injection Hi' as <-.
  rewrite Ht in Ht'. injection Ht' as <-.
  eexists. split; [reflexivity|]. split; [apply detect_missing|].
  intros tm Htm Hgone.
  pose proof (detect_gone_silent remote db mappingId mapping
                (findLinked db mappingId) planeIssues asanaTasks
                (findLinked_NoDup db mappingId) tm) as Hsilent.
  split; [intros c Hc; by apply Hsilent|].
  cbn [fst snd].
  destruct (detect_snapshot_exact remote db mappingId mapping
              (findLinked db mappingId) planeIssues asanaTasks
              (findLinked_NoDup db mappingId) (tm_id tm))
    as [[H _]|(tm' & i & t & old & c & _ & Hid & _ & Hc & Hidc & _)]; [done|].
  exfalso. by apply (Hsilent c).
Qed.

Lemma GET_missing_witness :
  projectMapping History.goneDB !! "m" = Some (mkProjectMapping "proj" "aproj" None)
  /\ findLinked History.goneDB "m" <> []
  /\ exists body,
       (GET demoRemote History.goneDB "m").1 = Ok body
       /\ missing (summary body) = Some 1.
Proof.
  assert (projectMapping History.goneDB !! "m"
          = Some (mkProjectMapping "proj" "aproj" None)) as Hm
    by (vm_compute; reflexivity).
  assert (findLinked History.goneDB "m" <> []) as Hl
    by (vm_compute; discriminate).
  split; [exact Hm|]. split; [exact Hl|].
  destruct (GET_missing demoRemote History.goneDB "m" _ demoIssues demoTasks
              Hm Hl eq_refl eq_refl) as (body & Hb & Hmiss & _).
  exists body. split; [exact Hb|].
  rewrite Hmiss. vm_compute. reflexivity.
Defined.


(** ** One snapshot request *)

Section SnapshotExact.
Variable planeIssueMap : gmap string PlaneIssue.
Variable asanaTaskMap : gmap string AsanaTask.
Variable commentCounts : FetchState.

Local Abbreviation snap := (snapshot_body planeIssueMap asanaTaskMap commentCounts).
Local Abbreviation present := (recordsPresent planeIssueMap asanaTaskMap).
Local Abbreviation gone := (recordGone planeIssueMap asanaTaskMap).

Lemma snapshot_body_absent st tm :
  present tm = false -> (snap st tm).1.1 = st.1.1.
Proof.
  destruct st as [[snaps n] mc]. unfold snapshot_body, recordsPresent.
  destruct (truthy (tm_planeIssueId tm)); simpl; [|done].
  destruct (truthy (tm_asanaTaskGid tm)); simpl; [|done].
  destruct (planeIssueMap !! _) as [issue|], (asanaTaskMap !! _) as [task|];
    simpl; try done.
Qed.

Lemma snapshot_body_ids st tm tm' :
  tm_id tm = tm_id tm' -> tm_planeIssueId tm = tm_planeIssueId tm' ->
  tm_asanaTaskGid tm = tm_asanaTaskGid tm' -> snap st tm = snap st tm'.
Proof. unfold snapshot_body. by intros -> -> ->. Qed.

Lemma snapshot_fold_kept l st k :
  (forall tm, tm ∈ l -> tm_id tm = k -> present tm = false) ->
  (fold_left snap l st).1.1 !! k = st.1.1 !! k.
Proof.
  revert st. induction l as [|tm l IH]; intros st Hl; cbn [fold_left]; [done|].
  rewrite IH by (intros tm' Htm'; apply Hl; by right).
  destruct (decide (tm_id tm = k)) as [Hk|Hk].
  - rewrite snapshot_body_absent; [done|]. apply Hl; [by left|done].
  - by apply snapshot_body_other.
Qed.

Lemma snapshot_body_counts st tm :
  (snap st tm).1.2 = st.1.2 + (if present tm then 1 else 0)
  /\ (snap st tm).2 = st.2 + (if gone tm then 1 else 0).
Proof.
  destruct st as [[snaps n] mc]. unfold snapshot_body, recordsPresent, recordGone.
  destruct (truthy (tm_planeIssueId tm)); simpl; [|lia].
  destruct (truthy (tm_asanaTaskGid tm)); simpl; [|lia].
  destruct (planeIssueMap !! _) as [issue|], (asanaTaskMap !! _) as [task|];
    simpl; lia.
Qed.

Lemma snapshot_fold_counts l st :
  (fold_left snap l st).1.2 = st.1.2 + length (List.filter present l)
  /\ (fold_left snap l st).2 = st.2 + length (List.filter gone l).
Proof.
  revert st. induction l as [|tm l IH]; intros st; cbn [fold_left List.filter].
  - simpl. lia.
  - destruct (IH (snap st tm)) as [-> ->].
    destruct (snapshot_body_counts st tm) as [-> ->].
    destruct (present tm), (gone tm); simpl; lia.
Qed.

Lemma snapshot_fold_keeps l st k :
  is_Some (st.1.1 !! k) -> is_Some ((fold_left snap l st).1.1 !! k).
Proof.
  revert st. induction l as [|tm l IH]; intros st Hk; cbn [fold_left]; [done|].
  apply IH. destruct st as [[snaps n] mc]. unfold snapshot_body.
  repeat match goal with
         | |- context [if ?b then _ else _] => destruct b
         | |- context [match ?o with Some _ => _ | None => _ end] => destruct o
         end; simpl in *; try done.
  apply lookup_insert_is_Some.
  destruct (decide (tm_id tm = k)); [by left|by right].
Qed.

(** A second pass over the same pairs finds every binding in place. *)
Lemma snapshot_fold_again l snaps n mc :
  (forall tm planeIssue asanaTask, tm ∈ l ->
     truthy (tm_planeIssueId tm) = true -> truthy (tm_asanaTaskGid tm) = true ->
     planeIssueMap !! orEmpty (tm_planeIssueId tm) = Some planeIssue ->
     asanaTaskMap !! orEmpty (tm_asanaTaskGid tm) = Some asanaTask ->
     snaps !! tm_id tm
     = Some (snapshotOf planeIssue asanaTask
               (default 0 (planeComments commentCounts !! orEmpty (tm_planeIssueId tm)))
               (default 0 (asanaComments commentCounts !! orEmpty (tm_asanaTaskGid tm))))) ->
  (fold_left snap l (snaps, n, mc)).1.1 = snaps.
Proof.
  revert n mc. induction l as [|tm l IH]; intros n mc Hl; cbn [fold_left]; [done|].
  assert (exists n' mc', snap (snaps, n, mc) tm = (snaps, n', mc')) as (n' & mc' & ->).
  { unfold snapshot_body.
    destruct (truthy (tm_planeIssueId tm)) eqn:Ep; simpl; [|by eauto].
    destruct (truthy (tm_asanaTaskGid tm)) eqn:Ea; simpl; [|by eauto].
    destruct (planeIssueMap !! _) as [issue|] eqn:Ei; [|by eauto].
    destruct (asanaTaskMap !! _) as [task|] eqn:Et; [|by eauto].
    rewrite insert_id; [by eauto|].
    apply Hl; [by left|done..]. }
  apply IH. intros tm' i t Htm'. apply Hl. by right.
Qed.
End SnapshotExact.

Lemma findLinked_retagged db db' m :
  taskMapping db' = taskMapping db ->
  exists rows,
    findLinked db m
    = (fun kv => mkLinkedTask kv.1 (planeIssueId kv.2) (asanaTaskGid kv.2)
                   (taskSnapshot db !! kv.1)) <$> rows
    /\ findLinked db' m
       = (fun kv => mkLinkedTask kv.1 (planeIssueId kv.2) (asanaTaskGid kv.2)
                      (taskSnapshot db' !! kv.1)) <$> rows.
Proof. intros H. unfold findLinked. rewrite H. by eexists. Qed.

Lemma snapshot_fold_retagged pm am cc db db' m st :
  taskMapping db' = taskMapping db ->
  fold_left (snapshot_body pm am cc) (findLinked db' m) st
  = fold_left (snapshot_body pm am cc) (findLinked db m) st.
Proof.
  intros H. destruct (findLinked_retagged db db' m H) as (rows & -> & ->).
  revert st. induction rows as [|kv rows IH]; intros st; [done|].
  rewrite !fmap_cons. cbn [fold_left]. rewrite IH. f_equal.
Qed.

Lemma toTask_retagged db db' m :
  taskMapping db' = taskMapping db ->
  toTask <$> findLinked db' m = toTask <$> findLinked db m.
Proof.
  intros H. destruct (findLinked_retagged db db' m H) as (rows & -> & ->).
  by rewrite <- !list_fmap_compose.
Qed.

(** The three ways a snapshot request ends. *)
Lemma POST_cases remote db mappingId :
  (projectMapping db !! mappingId = None
   /\ POST remote db mappingId = (NotFound, db))
  \/ (exists mapping, projectMapping db !! mappingId = Some mapping
        /\ (listIssues remote (planeProjectId mapping) = None
            \/ listTasks remote (asanaProjectGid mapping)
                 (orNull (asanaSectionName mapping)) = None)
        /\ POST remote db mappingId = (ServerError, db))
  \/ (exists mapping planeIssues asanaTasks,
        projectMapping db !! mappingId = Some mapping
        /\ listIssues remote (planeProjectId mapping) = Some planeIssues
        /\ listTasks remote (asanaProjectGid mapping)
             (orNull (asanaSectionName mapping)) = Some asanaTasks
        /\ POST remote db mappingId
           = (Ok (takeSnapshot remote db mapping (findLinked db mappingId)
                    planeIssues asanaTasks).1,
              (takeSnapshot remote db mapping (findLinked db mappingId)
                    planeIssues asanaTasks).2)).
Proof.
  unfold POST.
  destruct (projectMapping db !! mappingId) as [mapping|]; [|by left].
  right.
  destruct (listIssues remote _) as [planeIssues|] eqn:Ei.
  2:{ left. exists mapping. repeat split; try done. by left. }
  destruct (listTasks remote _ _) as [asanaTasks|] eqn:Et.
  2:{ left. exists mapping. repeat split; try done. by right. }
  right. exists mapping, planeIssues, asanaTasks.
  repeat split; try done.
  by destruct (takeSnapshot remote db mapping _ planeIssues asanaTasks).
Qed.

Lemma takeSnapshot_unfold remote db mapping tms planeIssues asanaTasks :
  let pm := mapBy pi_id planeIssues in
  let am := mapBy at_gid asanaTasks in
  let cc := fetchCommentCountsBatched remote (planeProjectId mapping) None
              (toTask <$> tms) in
  let st := fold_left (snapshot_body pm am cc) tms (taskSnapshot db, 0, 0) in
  takeSnapshot remote db mapping tms planeIssues asanaTasks
  = (mkSnapshotResult
       ("Created/updated " +:+ pretty st.1.2 +:+ " snapshots" +:+
        (if 0 <? st.2
         then " (" +:+ pretty st.2 +:+ " tasks no longer exist)"
         else ""))
       st.1.2 st.2,
     mkDB (projectMapping db) (taskMapping db) st.1.1 (changeLog db)).
Proof.
  cbv zeta. unfold takeSnapshot.
  by destruct (fold_left _ _ _) as [[snaps n] mc].
Qed.

(** The two maps the fetcher returns depend on the remote systems only
    through the counts its requests record. *)
Lemma fetch_same_counts first second projectId onlyModified tasks :
  sameRemoteData first second ->
  planeComments (fetchCommentCountsBatched second projectId onlyModified tasks)
  = planeComments (fetchCommentCountsBatched first projectId onlyModified tasks)
  /\ asanaComments (fetchCommentCountsBatched second projectId onlyModified tasks)
     = asanaComments (fetchCommentCountsBatched first projectId onlyModified tasks).
Proof.
  intros (_ & _ & Hpc & Hac).
  destruct (fetch_countsFor first projectId onlyModified tasks) as (Hp1 & Ha1 & _).
  destruct (fetch_countsFor second projectId onlyModified tasks) as (Hp2 & Ha2 & _).
  split; apply map_eq; intros x.
  - by rewrite Hp1, Hp2, Hpc.
  - by rewrite Ha1, Ha2, Hac.
Qed.

Lemma snapshot_fold_maps pm am cc cc' l st :
  planeComments cc' = planeComments cc -> asanaComments cc' = asanaComments cc ->
  fold_left (snapshot_body pm am cc') l st = fold_left (snapshot_body pm am cc) l st.
Proof.
  intros Hp Ha. revert st. induction l as [|tm l IH]; intros st; [done|].
  cbn [fold_left]. rewrite IH. f_equal.
  unfold snapshot_body. by rewrite Hp, Ha.
Qed.

(** X15.  Taking a snapshot twice is taking it once: a second snapshot
    request, nothing being edited in between and both requests receiving
    the same listings and the same count for the comment request of every
    record (a request that fails counting as 0), gives the same answer and
    leaves the database as the first one left it. *)
Theorem POST_idempotent (first second : Remote) (db : DB) (mappingId : string) :
  sameRemoteData first second ->
  POST second (POST first db mappingId).2 mappingId = POST first db mappingId.
Proof.
  intros Hsame. pose proof Hsame as (Hli & Hlt & _ & _).
  destruct (POST_cases first db mappingId)
    as [[Hm E]|[(mapping & Hm & Hfail & E)
       |(mapping & planeIssues & asanaTasks & Hm & Hi & Ht & E)]];
    rewrite E; cbn [snd].
  { destruct (POST_cases second db mappingId)
      as [[_ ->]|[(mapping & Hm' & _)|(mapping & ? & ? & Hm' & _)]];
      [done|congruence..]. }
  { destruct (POST_cases second db mappingId)
      as [[Hm' _]|[(mapping' & Hm' & _ & ->)
         |(mapping' & ? & ? & Hm' & Hi' & Ht' & _)]]; [congruence|done|].
    rewrite Hm in Hm'. injection Hm' as <-. rewrite Hli in Hi'. rewrite Hlt in Ht'.
    destruct Hfail; congruence. }
  set (tms := findLinked db mappingId) in *.
  set (db1 := (takeSnapshot first db mapping tms planeIssues asanaTasks).2).
  destruct (takeSnapshot_tables first db mappingId mapping planeIssues asanaTasks)
    as (Hpm & Htm & Hsnap).
  fold tms db1 in Hpm, Htm, Hsnap.
  destruct (POST_cases second db1 mappingId)
    as [[Hm1 _]|[(mapping1 & Hm1 & Hfail & _)
       |(mapping1 & planeIssues1 & asanaTasks1 & Hm1 & Hi1 & Ht1 & ->)]].
  { rewrite Hpm in Hm1. congruence. }
  { rewrite Hpm, Hm in Hm1. injection Hm1 as <-.
    rewrite Hli, Hlt in Hfail. destruct Hfail; congruence. }
  rewrite Hpm, Hm in Hm1. injection Hm1 as <-.
  rewrite Hli, Hi in Hi1. injection Hi1 as <-.
  rewrite Hlt, Ht in Ht1. injection Ht1 as <-.
  rewrite (takeSnapshot_unfold second db1), (takeSnapshot_unfold first db).
  cbv zeta. cbn [fst snd]. fold tms.
  rewrite (toTask_retagged db db1 mappingId Htm). fold tms.
  set (pm := mapBy pi_id planeIssues). set (am := mapBy at_gid asanaTasks).
  set (cc := fetchCommentCountsBatched first (planeProjectId mapping) None
               (toTask <$> tms)).
  destruct (fetch_same_counts first second (planeProjectId mapping) None
              (toTask <$> tms) Hsame) as [Hpc Hac]. fold cc in Hpc, Hac.
  rewrite (snapshot_fold_maps pm am cc _ _ _ Hpc Hac).
  rewrite (snapshot_fold_retagged pm am cc db db1 mappingId _ Htm). fold tms.
  fold pm am cc in Hsnap.
  destruct (snapshot_fold_counts pm am cc tms (taskSnapshot db, 0, 0)) as [Hn Hmc].
  destruct (snapshot_fold_counts pm am cc tms (taskSnapshot db1, 0, 0)) as [Hn1 Hmc1].
  assert ((fold_left (snapshot_body pm am cc) tms (taskSnapshot db1, 0, 0)).1.1
          = taskSnapshot db1) as Hagain.
  { apply snapshot_fold_again. intros tm i t Htm' Hp Ha Hpi Hat.
    rewrite Hsnap.
    apply snapshot_fold_fresh; [apply findLinked_NoDup|done..]. }
  rewrite Hn, Hn1, Hmc, Hmc1, Hagain, Hpm, Htm. cbn [fst snd].
  f_equal. rewrite <- Hpm, <- Htm. clear. clearbody db1. by destruct db1.
Qed.

Lemma POST_idempotent_witness :
  sameRemoteData demoRemote laterRemote
  /\ POST laterRemote (POST demoRemote demoDB "m").2 "m" = POST demoRemote demoDB "m".
Proof.
  assert (sameRemoteData demoRemote laterRemote) as H.
  { repeat split; intros; unfold planeCount, asanaCount; simpl;
      by destruct (String.eqb _ _). }
  split; [exact H|]. exact (POST_idempotent demoRemote laterRemote demoDB "m" H).
Defined.

(** X16.  What a snapshot request records.  When the mapping exists and
    both listings succeed, the request succeeds; it counts as snapshots the
    fully linked pairs whose two records are in the listings and as missing
    those with a record gone; each pair of the first kind gets a snapshot
    holding the live values of its two records and the two comment counts
    (0 for a count whose request failed); every other key of the snapshot
    table, the pairs with a record gone among them, keeps what it had. *)
Theorem POST_contents (remote : Remote) (db : DB) (mappingId : string)
    (mapping : ProjectMapping) (planeIssues : list PlaneIssue)
    (asanaTasks : list AsanaTask) :
  projectMapping db !! mappingId = Some mapping ->
  listIssues remote (planeProjectId mapping) = Some planeIssues ->
  listTasks remote (asanaProjectGid mapping) (orNull (asanaSectionName mapping))
  = Some asanaTasks ->
  let tms := findLinked db mappingId in
  let pm := mapBy pi_id planeIssues in
  let am := mapBy at_gid asanaTasks in
  let r := POST remote db mappingId in
  exists body,
    r.1 = Ok body
    /\ snapshotCount body = length (List.filter (recordsPresent pm am) tms)
    /\ missingCount body = length (List.filter (recordGone pm am) tms)
    /\ (forall tm planeIssue asanaTask, tm ∈ tms ->
          truthy (tm_planeIssueId tm) = true ->
          truthy (tm_asanaTaskGid tm) = true ->
          pm !! orEmpty (tm_planeIssueId tm) = Some planeIssue ->
          am !! orEmpty (tm_asanaTaskGid tm) = Some asanaTask ->
          taskSnapshot r.2 !! tm_id tm
          = Some (snapshotOf planeIssue asanaTask
                    (planeCount remote (planeProjectId mapping)
                                (orEmpty (tm_planeIssueId tm)))
                    (asanaCount remote (orEmpty (tm_asanaTaskGid tm)))))
    /\ (forall k, (forall tm, tm ∈ tms -> tm_id tm = k ->
                              recordsPresent pm am tm = false) ->
          taskSnapshot r.2 !! k = taskSnapshot db !! k).
Proof.
  intros Hm Hi Ht. cbv zeta.
  destruct (POST_cases remote db mappingId)
    as [[Hm' _]|[(mapping' & Hm' & Hfail & _)
       |(mapping' & planeIssues' & asanaTasks' & Hm' & Hi' & Ht' & ->)]];
    [congruence| |].
  { rewrite Hm in Hm'. injection Hm' as <-. destruct Hfail; congruence. }
  rewrite Hm in Hm'. injection Hm' as <-.
  rewrite Hi in Hi'. injection Hi' as <-.
  rewrite Ht in Ht'. injection Ht' as <-.
  eexists. split; [reflexivity|]. cbn [fst snd].
  pose proof (takeSnapshot_fresh remote db mappingId mapping planeIssues asanaTasks)
    as Hfresh.
  rewrite (takeSnapshot_unfold remote db) in *. cbv zeta in *.
  cbn [fst snd snapshotCount missingCount taskSnapshot] in *.
  match goal with
  | |- context [fold_left (snapshot_body ?pm ?am ?cc) ?l ?st] =>
      destruct (snapshot_fold_counts pm am cc l st) as [-> ->];
      pose proof (snapshot_fold_kept pm am cc l st) as Hkept
  end.
  split; [done|]. split; [done|]. split; [exact Hfresh|].
  intros k Hk. by apply Hkept.
Qed.

Lemma POST_contents_witness :
  projectMapping goneDB !! "m" = Some (mkProjectMapping "proj" "aproj" None)
  /\ exists body,
       (POST demoRemote goneDB "m").1 = Ok body
       /\ snapshotCount body = 2 /\ missingCount body = 1.
Proof.
  assert (projectMapping goneDB !! "m"
          = Some (mkProjectMapping "proj" "aproj" None)) as Hm
    by (vm_compute; reflexivity).
  split; [exact Hm|].
  destruct (POST_contents demoRemote goneDB "m" _ demoIssues demoTasks
              Hm eq_refl eq_refl) as (body & Hb & Hn & Hmc & _).
  exists body. split; [exact Hb|].
  rewrite Hn, Hmc. split; vm_compute; reflexivity.
Defined.

(** X17.  What a snapshot request leaves alone, and how it fails.  It
    answers "not found" exactly when the mapping does not exist and with a
    server error exactly when the mapping exists and one of the two listings
    fails, also when no pair is linked; in both cases the database is left
    as it was.  It never touches the project mappings, the task mappings or
    the change log, and never deletes a snapshot. *)
Theorem POST_frame (remote : Remote) (db : DB) (mappingId : string) :
  let r := POST remote db mappingId in
  (r.1 = NotFound <-> projectMapping db !! mappingId = None)
  /\ (r.1 = ServerError <->
      exists mapping, projectMapping db !! mappingId = Some mapping
        /\ (listIssues remote (planeProjectId mapping) = None
            \/ listTasks remote (asanaProjectGid mapping)
                 (orNull (asanaSectionName mapping)) = None))
  /\ ((forall body, r.1 <> Ok body) -> r.2 = db)
  /\ projectMapping r.2 = projectMapping db
  /\ taskMapping r.2 = taskMapping db
  /\ changeLog r.2 = changeLog db
  /\ (forall k, is_Some (taskSnapshot db !! k) -> is_Some (taskSnapshot r.2 !! k)).
Proof.
  cbv zeta.
  destruct (POST_cases remote db mappingId)
    as [[Hm ->]|[(mapping & Hm & Hfail & ->)
       |(mapping & planeIssues & asanaTasks & Hm & Hi & Ht & ->)]];
    cbn [fst snd].
  - repeat split; try done. intros (mapping & Hm' & _). congruence.
  - rewrite Hm. repeat split; try done. intros _. by exists mapping.
  - rewrite Hm, (takeSnapshot_unfold remote db). cbv zeta.
    cbn [projectMapping taskMapping changeLog taskSnapshot].
    split; [done|]. split.
    { split; [done|]. intros (mapping' & Hm' & Hfail).
      injection Hm' as <-. destruct Hfail; congruence. }
    split; [intros H; by destruct (H _ eq_refl)|].
    repeat (split; [done|]).
    intros k Hk. by apply snapshot_fold_keeps.
Qed.


(** ** The change history *)

Lemma GET_log remote db mappingId :
  changeLog (GET remote db mappingId).2
  = changeLog db
    ++ (mkChangeLogRow mappingId
          <$> List.filter (fun c => negb (String.eqb (field c) "new"))
                          (reported (GET remote db mappingId).1)).
Proof.
  destruct (GET_cases remote db mappingId)
    as [[Hm ->]|[(mapping & Hm & Hl & ->)|[(mapping & Hm & Hl & _ & ->)
       |(mapping & planeIssues & asanaTasks & Hm & Hl & Hi & Ht & ->)]]];
    cbn [fst snd reported]; try (by rewrite app_nil_r).
  apply detect_log_exact.
Qed.

Lemma filter_filter_none {A} (f : A -> bool) (l : list A) :
  List.filter f (List.filter (fun x => negb (f x)) l) = [].
Proof.
  induction l as [|x l IH]; simpl; [done|].
  destruct (f x) eqn:E; simpl; [done|]. by rewrite E.
Qed.

Lemma filter_filter_same {A} (f : A -> bool) (l : list A) :
  List.filter f (List.filter f l) = List.filter f l.
Proof.
  induction l as [|x l IH]; simpl; [done|].
  destruct (f x) eqn:E; simpl; [|done]. by rewrite E, IH.
Qed.

Lemma filter_split_length {A} (f : A -> bool) (l : list A) :
  length (List.filter f l) + length (List.filter (fun x => negb (f x)) l)
  = length l.
Proof.
  induction l as [|x l IH]; simpl; [done|]. destruct (f x); simpl; lia.
Qed.

Lemma filter_all {A} (f : A -> bool) (l : list A) :
  (forall x, x ∈ l -> f x = true) -> List.filter f l = l.
Proof.
  induction l as [|x l IH]; intros H; simpl; [done|].
  rewrite (H x) by (by left). f_equal. apply IH. intros y Hy. apply H. by right.
Qed.

(** X18.  Clearing the history of a mapping deletes every row of that
    mapping and no other: the rows of the other mappings stay, in their
    order; the count it answers is the number of rows deleted.  Nothing
    else in the database changes, the mapping need not exist, and clearing
    again deletes nothing. *)
Theorem DELETE_clears (db : DB) (mappingId : string) :
  let r := DELETE db mappingId in
  let mine := fun row => String.eqb (log_projectMappingId row) mappingId in
  (exists body, r.1 = Ok body
     /\ deletedCount body = length (List.filter mine (changeLog db))
     /\ deletedCount body + length (changeLog r.2) = length (changeLog db))
  /\ (forall row, row ∈ changeLog r.2 <->
        row ∈ changeLog db /\ log_projectMappingId row <> mappingId)
  /\ changeLog r.2 `sublist_of` changeLog db
  /\ projectMapping r.2 = projectMapping db
  /\ taskMapping r.2 = taskMapping db
  /\ taskSnapshot r.2 = taskSnapshot db
  /\ (DELETE r.2 mappingId).2 = r.2
  /\ exists again, (DELETE r.2 mappingId).1 = Ok again /\ deletedCount again = 0.
Proof.
  cbv zeta. unfold DELETE, deleteMany. cbn [fst snd changeLog projectMapping
    taskMapping taskSnapshot].
  split; [|split; [|split]].
  - eexists. split; [reflexivity|]. cbn [deletedCount]. split; [done|].
    apply filter_split_length.
  - intros row. rewrite list_elem_of_In, filter_In, <- list_elem_of_In.
    by rewrite negb_true_iff, String.eqb_neq.
  - apply filter_sublist.
  - repeat (split; [done|]).
    rewrite filter_filter_same. split; [done|].
    eexists. split; [reflexivity|]. cbn [deletedCount].
    by rewrite filter_filter_none.
Qed.

(** X19.  After the history of a mapping has been cleared, the next
    detection request leaves in the history of that mapping exactly the
    changes it reports, the "new" entries left out, in the order of the
    report; the history of the other mappings is what it was before the
    clearing. *)
Theorem history_after_clear (remote : Remote) (db : DB) (mappingId : string) :
  let db1 := (DELETE db mappingId).2 in
  let r := GET remote db1 mappingId in
  let mine := fun row => String.eqb (log_projectMappingId row) mappingId in
  List.filter mine (changeLog r.2)
  = mkChangeLogRow mappingId
      <$> List.filter (fun c => negb (String.eqb (field c) "new")) (reported r.1)
  /\ List.filter (fun row => negb (mine row)) (changeLog r.2)
     = List.filter (fun row => negb (mine row)) (changeLog db).
Proof.
  cbv zeta. rewrite GET_log.
  set (rows := mkChangeLogRow mappingId <$> _).
  assert (forall row, row ∈ rows -> log_projectMappingId row = mappingId) as Hrows.
  { by intros row (c & -> & _)%list_elem_of_fmap. }
  unfold DELETE, deleteMany. cbn [snd changeLog].
  rewrite !List.filter_app, filter_filter_none, filter_filter_same.
  split.
  - simpl. apply filter_all. intros row Hrow.
    apply String.eqb_eq. by apply Hrows.
  - assert (List.filter
              (fun row => negb (String.eqb (log_projectMappingId row) mappingId))
              rows = []) as ->; [|by rewrite app_nil_r].
    clear -Hrows. induction rows as [|row l IH]; simpl; [done|].
    rewrite (proj2 (String.eqb_eq _ _) (Hrows row ltac:(by left))). simpl.
    apply IH. intros x Hx. apply Hrows. by right.
Qed.

End ChangesMore.

(** * Properties of the auto-match request *)

Module AutoMatchRouteProofs.
Import Matching MoreInputs MatchingProofs MatchingMore AutoMatchRoute.

Lemma linkedIds_elem proj rows x :
  x ∈ linkedIds proj rows <->
  exists m, m ∈ rows /\ proj m = Some x /\ x <> "".
Proof.
  unfold linkedIds. rewrite elem_of_list_to_set, list_elem_of_In, in_map_iff.
  split.
  - intros (m & <- & Hm). apply filter_In in Hm as [Hm Ht].
    exists m. split; [by apply list_elem_of_In|].
    unfold truthy in Ht. destruct (proj m) as [y|]; [|done]. simpl.
    split; [done|]. intros ->. done.
  - intros (m & Hm & Hp & Hx). exists m. rewrite Hp. split; [done|].
    apply filter_In. split; [by apply list_elem_of_In|].
    rewrite Hp. unfold truthy. by destruct x.
Qed.

Lemma existingMappings_elem db mappingId m :
  m ∈ existingMappings db mappingId <->
  exists k, Changes.taskMapping db !! k = Some m
            /\ Changes.projectMappingId m = mappingId.
Proof.
  unfold existingMappings. rewrite list_elem_of_fmap. split.
  - intros ([k m'] & -> & H). apply list_elem_of_In, filter_In in H as [H E].
    apply list_elem_of_In, elem_of_map_to_list in H.
    exists k. split; [done|]. by apply String.eqb_eq.
  - intros (k & Hk & Hm). exists (k, m). split; [done|].
    apply list_elem_of_In, filter_In. split.
    + by apply list_elem_of_In, elem_of_map_to_list.
    + by apply String.eqb_eq.
Qed.

Lemma autoMatch_no_targets fuse linkedP minC ps st :
  fold_left (autoMatch_body fuse [] linkedP minC) ps st = st.
Proof.
  induction ps as [|p ps IH]; cbn [fold_left]; [done|].
  assert (autoMatch_body fuse [] linkedP minC st p = st) as ->; [|done].
  unfold autoMatch_body. destruct st as [sugs used].
  by destruct (bool_decide _).
Qed.

(** X20.  The auto-match request never proposes a task that a task mapping
    of this project mapping already holds, be it in a row that holds one
    side only: each suggestion pairs an issue and a task of the two
    listings, under their names, neither of which occurs in a row of the
    mapping, with a confidence of at least 0.5.  Fuse.js is only assumed to
    return items of the collection it searches. *)
Theorem GET_suggests_unlinked (fuse : FuseSearch) (remote : Remote)
    (db : Changes.DB) (mappingId : string) (body : AutoMatchResult)
    (sm : SuggestedMatch) :
  fuse_sound fuse ->
  GET fuse remote db mappingId = Changes.Ok body ->
  sm ∈ suggestions body ->
  (exists mapping issues tasks issue task,
     Changes.projectMapping db !! mappingId = Some mapping
     /\ listIssues remote (Changes.planeProjectId mapping) = Some issues
     /\ listTasks remote (Changes.asanaProjectGid mapping)
          (Changes.orNull (Changes.asanaSectionName mapping)) = Some tasks
     /\ issue ∈ issues /\ task ∈ tasks
     /\ planeTaskId sm = issue_id issue /\ planeTaskName sm = issue_name issue
     /\ asanaTaskGid sm = task_gid task /\ asanaTaskName sm = task_name task)
  /\ ((5 # 10) <= sm_confidence sm)%Q
  /\ (forall k row, Changes.taskMapping db !! k = Some row ->
        Changes.projectMappingId row = mappingId ->
        (planeTaskId sm <> "" -> Changes.planeIssueId row <> Some (planeTaskId sm))
        /\ (asanaTaskGid sm <> "" ->
            Changes.asanaTaskGid row <> Some (asanaTaskGid sm))).
Proof.
  intros Hfuse. unfold GET.
  destruct (Changes.projectMapping db !! mappingId) as [mapping|]; [|done].
  intros [= <-]. cbn [suggestions]. unfold autoMatchAllTasks.
  match goal with
  | |- context [fold_left (autoMatch_body fuse ?m ?lp ?mc) ?ps (?s0, ?u0)] =>
      destruct (autoMatch_fold_trace fuse m lp mc ps s0 u0) as (news & H1 & _ & H3);
      destruct (fold_left (autoMatch_body fuse m lp mc) ps (s0, u0)) as [sugs u]
  end.
  simpl in H1. subst sugs. rewrite sortDesc_perm. intros Hsm.
  rewrite Forall_forall in H3.
  destruct (H3 _ Hsm) as (p & c & avail & Hp & Hl & Havail & Hbest & ->).
  cbn [planeTaskId planeTaskName asanaTaskGid asanaTaskName sm_confidence].
  destruct (getBestMatch_target _ _ _ _ _ _ Hfuse Hbest) as (t & Ht & Hg & Hn).
  apply Havail, list_elem_of_In, in_map_iff in Ht as (a & <- & Ha).
  apply filter_In in Ha as [Ha Hu].
  apply negb_true_iff, bool_decide_eq_false in Hu.
  apply in_map_iff in Ha as (task & <- & Htask).
  apply list_elem_of_In, in_map_iff in Hp as (issue & <- & Hissue).
  cbn [pt_id pt_name toPlaneTask toAsanaTask at_gid at_name mt_gid mt_name] in *.
  split; [|split].
  2:{ apply Qle_trans with (Double.lit (5 # 10)); [vm_compute; discriminate|].
      by eapply getBestMatch_threshold. }
  - destruct (listIssues remote _) as [issues|] eqn:Ei; [|by simpl in Hissue].
    destruct (listTasks remote _ _) as [tasks|] eqn:Et; [|by simpl in Htask].
    exists mapping, issues, tasks, issue, task.
    repeat split; try done; by apply list_elem_of_In.
  - intros k row Hk Hrow. split.
    + intros Hne Heq. apply Hl, linkedIds_elem. exists row.
      split; [apply existingMappings_elem; by exists k|done].
    + intros Hne Heq. apply Hu, linkedIds_elem. exists row.
      rewrite Hg in *.
      split; [apply existingMappings_elem; by exists k|done].
Qed.

Lemma fusePerfect_sound : fuse_sound fusePerfect.
Proof.
  intros coll th q r Hr. unfold fusePerfect in Hr.
  by apply list_elem_of_fmap in Hr as (t & -> & Ht).
Qed.

Lemma GET_suggests_unlinked_witness :
  let sm := mkSuggestion "p3" "Write release letters" "a2" "write release letters"
              1 exact "Exact name match" in
  exists body,
    GET fusePerfect routeRemote routeDB "m" = Changes.Ok body
    /\ sm ∈ suggestions body
    /\ ((5 # 10) <= sm_confidence sm)%Q
    /\ forall k row, Changes.taskMapping routeDB !! k = Some row ->
         Changes.projectMappingId row = "m" ->
         Changes.planeIssueId row <> Some "p3".
Proof.
  cbv zeta.
  destruct (GET fusePerfect routeRemote routeDB "m") as [| |body] eqn:E;
    [vm_compute in E; discriminate..|].
  exists body. split; [reflexivity|].
  assert (mkSuggestion "p3" "Write release letters" "a2" "write release letters"
            1 exact "Exact name match" ∈ suggestions body) as Hin.
  { vm_compute in E. injection E as <-. left. }
  split; [exact Hin|].
  destruct (GET_suggests_unlinked fusePerfect routeRemote routeDB "m" body _
              fusePerfect_sound E Hin) as (_ & Hc & Hrows).
  split; [exact Hc|].
  intros k row Hk Hrow. apply (Hrows k row Hk Hrow). discriminate.
Defined.

(** X21.  The auto-match request answers "not found" exactly when the
    mapping does not exist and never answers with a server error: a listing
    that fails counts as an empty listing, and then the request succeeds with
    no suggestion.  In every answer the number of suggestions is at most the
    number of listed issues, and the statistics agree with the answer. *)
Theorem GET_degrades (fuse : FuseSearch) (remote : Remote) (db : Changes.DB)
    (mappingId : string) :
  (GET fuse remote db mappingId = Changes.NotFound
   <-> Changes.projectMapping db !! mappingId = None)
  /\ GET fuse remote db mappingId <> Changes.ServerError
  /\ forall mapping,
       Changes.projectMapping db !! mappingId = Some mapping ->
       exists body,
         GET fuse remote db mappingId = Changes.Ok body
         /\ suggestionsFound (stats body) = length (suggestions body)
         /\ length (suggestions body) <= totalPlaneTasks (stats body)
         /\ totalPlaneTasks (stats body)
            = length (default [] (listIssues remote (Changes.planeProjectId mapping)))
         /\ (listIssues remote (Changes.planeProjectId mapping) = None
             \/ listTasks remote (Changes.asanaProjectGid mapping)
                  (Changes.orNull (Changes.asanaSectionName mapping)) = None ->
             suggestions body = []).
Proof.
  unfold GET.
  destruct (Changes.projectMapping db !! mappingId) as [mapping|];
    [|by repeat split].
  split; [done|]. split; [done|]. intros ? [= <-].
  eexists. split; [reflexivity|]. cbn [suggestions stats suggestionsFound
    totalPlaneTasks].
  split; [done|]. split; [|split; [by rewrite length_map|]].
  - unfold autoMatchAllTasks.
    match goal with
    | |- context [fold_left (autoMatch_body fuse ?m ?lp ?mc) ?ps (?s0, ?u0)] =>
        destruct (autoMatch_fold_trace fuse m lp mc ps s0 u0) as (news & H1 & H2 & _);
        destruct (fold_left (autoMatch_body fuse m lp mc) ps (s0, u0)) as [sugs u]
    end.
    simpl in H1. subst sugs.
    rewrite (Permutation_length (sortDesc_perm _ _)).
    apply sublist_length in H2. rewrite !length_fmap in H2.
    etrans; [exact H2|].
    apply sublist_length, ChangesProofs.filter_sublist.
  - intros [->| ->]; cbn [default List.map List.filter]; unfold autoMatchAllTasks.
    + done.
    + cbn [List.filter List.map]. by rewrite autoMatch_no_targets.
Qed.

End AutoMatchRouteProofs.

(** * Properties of the plain text of a description *)

Module PlaneClientProofs.
Import Matching MoreInputs MatchingProofs MatchingMore PlaneClient.

Lemma collapse_spaced b s :
  allChars blankIfSpace (collapseSpaces b s) = true
  /\ singleSpaced b (collapseSpaces b s) = true.
Proof.
  revert b. induction s as [|c r IH]; intros b; simpl; [done|].
  destruct (isSpace c) eqn:Ec.
  - destruct b; [by apply IH|]. simpl. by apply IH.
  - simpl. unfold blankIfSpace at 1. rewrite Ec. simpl. by apply IH.
Qed.

(** X22.  The plain text [stripHtml] returns is tidy: its white space is
    made of single blanks, none at either end, whatever the input; and an
    absent or empty description gives the empty text. *)
Theorem stripHtml_tidy (html : option string) :
  let text := stripHtml html in
  allChars blankIfSpace text = true
  /\ singleSpaced false text = true
  /\ trim text = text
  /\ collapseSpaces false text = text
  /\ (truthy html = false -> text = "").
Proof.
  cbv zeta. unfold stripHtml. destruct (truthy html); simpl; [|done].
  match goal with |- context [collapseSpaces false ?x] => set (body := x) end.
  destruct (collapse_spaced false body) as [H1 H2].
  destruct (trimStart_keeps _ _ _ H1 H2) as [H3 H4].
  destruct (trimEnd_keeps _ _ _ H3 H4) as [H5 H6]. fold (trim (collapseSpaces false body)) in *.
  split; [done|]. split; [done|]. split; [apply trim_trim|]. split; [|done].
  set (t := trim _) in *. clearbody t. clear -H5 H6.
  revert H5 H6. generalize false.
  induction t as [|c r IH]; intros b; simpl; [done|].
  intros [Hc Hr]%andb_true_iff. unfold blankIfSpace in Hc.
  destruct (isSpace c) eqn:Ec.
  - intros [Hb Hs]%andb_true_iff. destruct b; [done|].
    simpl in Hc. apply Ascii.eqb_eq in Hc as ->. by rewrite IH.
  - intros Hs. by rewrite IH.
Qed.

Lemma space_not_bracket c :
  isSpace c = true -> Ascii.eqb c "<" = false /\ Ascii.eqb c ">" = false.
Proof. each_char c. Qed.

Lemma no_gt_no_tag s : containsChar ">" s = false -> hasTag s = false.
Proof.
  induction s as [|c r IH]; simpl; [done|].
  intros [_ Hr]%orb_false_iff. rewrite Hr, andb_false_r. by apply IH.
Qed.

Lemma stripTags_no_gt s : containsChar ">" s = false -> stripTags false s = s.
Proof.
  induction s as [|c r IH]; simpl; [done|].
  intros [_ Hr]%orb_false_iff. rewrite Hr, andb_false_r. by rewrite IH.
Qed.

Lemma stripTags_no_lt s : containsChar "<" s = false -> stripTags false s = s.
Proof.
  induction s as [|c r IH]; simpl; [done|].
  intros [-> Hr]%orb_false_iff. simpl. by rewrite IH.
Qed.

Lemma stripTags_no_tag b s : hasTag (stripTags b s) = false.
Proof.
  revert b. induction s as [|c r IH]; intros b; simpl; [done|].
  destruct b.
  - destruct (Ascii.eqb c ">"); apply IH.
  - destruct (Ascii.eqb c "<" && containsChar ">" r) eqn:E; simpl.
    + apply IH.
    + rewrite IH, orb_false_r.
      destruct (Ascii.eqb c "<"); simpl in *; [|done].
      by rewrite (stripTags_no_gt r E).
Qed.

Lemma stripTags_chars x b s :
  x <> " "%char -> containsChar x s = false ->
  containsChar x (stripTags b s) = false.
Proof.
  intros Hx. revert b.
  induction s as [|c r IH]; intros b; cbn [stripTags containsChar]; [done|].
  intros [Hc Hr]%orb_false_iff. destruct b.
  - destruct (Ascii.eqb c ">"); by apply IH.
  - destruct (Ascii.eqb c "<" && containsChar ">" r); cbn [containsChar].
    + rewrite IH by done. rewrite orb_false_r. apply Ascii.eqb_neq. congruence.
    + by rewrite Hc, IH.
Qed.

Lemma prefix_first pat c r x :
  String.prefix (String x pat) (String c r) = true -> c = x.
Proof.
  simpl. destruct (ascii_dec x c) as [->|]; [done|]. discriminate.
Qed.

Lemma replaceAll_absent x pat rep s :
  containsChar x s = false -> replaceAll (String x pat) rep 0 s = s.
Proof.
  induction s as [|c r IH]; [done|].
  intros [Hc Hr]%orb_false_iff. cbn [replaceAll].
  destruct (String.prefix (String x pat) (String c r)) eqn:E.
  - apply prefix_first in E. subst c. by rewrite Ascii.eqb_refl in Hc.
  - by rewrite IH.
Qed.

Lemma collapse_brackets b s :
  containsChar ">" (collapseSpaces b s) = containsChar ">" s
  /\ hasTag (collapseSpaces b s) = hasTag s.
Proof.
  revert b. induction s as [|c r IH]; intros b; simpl; [done|].
  destruct (isSpace c) eqn:Ec.
  - destruct (space_not_bracket c Ec) as [-> ->]. simpl.
    destruct b; [apply IH|]. simpl. apply IH.
  - simpl. destruct (IH false) as [-> ->]. done.
Qed.

Lemma trimStart_brackets s :
  containsChar ">" (trimStart s) = containsChar ">" s
  /\ hasTag (trimStart s) = hasTag s.
Proof.
  induction s as [|c r IH]; simpl; [done|].
  destruct (isSpace c) eqn:Ec; [|done].
  destruct (space_not_bracket c Ec) as [-> ->]. simpl. apply IH.
Qed.

Lemma trimEnd_brackets s :
  containsChar ">" (trimEnd s) = containsChar ">" s
  /\ hasTag (trimEnd s) = hasTag s.
Proof.
  induction s as [|c r IH]; simpl; [done|].
  destruct IH as [IH1 IH2].
  destruct (trimEnd r) as [|c' r'] eqn:E.
  - simpl in IH1, IH2. rewrite <- IH1, <- IH2.
    destruct (isSpace c) eqn:Ec; simpl.
    + by destruct (space_not_bracket c Ec) as [-> ->].
    + done.
  - cbn [containsChar hasTag] in *. by rewrite IH1, IH2.
Qed.

(** X23.  On a description without "&" (so without entity), [stripHtml]
    leaves no tag: in the text it returns no "<" is followed by a ">"
    anywhere.  A description with neither "<" nor "&" only has its white
    space tidied.  (With entities a tag can come back: the entities are
    decoded after the tags are removed.) *)
Theorem stripHtml_no_tag (html : string) :
  containsChar "&" html = false ->
  hasTag (stripHtml (Some html)) = false
  /\ (containsChar "<" html = false ->
      stripHtml (Some html) = trim (collapseSpaces false html)).
Proof.
  intros Hamp. unfold stripHtml.
  destruct (truthy (Some html)) eqn:Et; simpl.
  2:{ destruct html; [done|discriminate]. }
  assert (containsChar "&" (stripTags false html) = false) as Hamp'
    by (by apply stripTags_chars).
  rewrite (replaceAll_absent "&" "nbsp;" " " _ Hamp').
  rewrite (replaceAll_absent "&" "amp;" "&" _ Hamp').
  rewrite (replaceAll_absent "&" "lt;" "<" _ Hamp').
  rewrite (replaceAll_absent "&" "gt;" ">" _ Hamp').
  rewrite (replaceAll_absent "&" "quot;" quote _ Hamp').
  split.
  - unfold trim.
    rewrite (proj2 (trimEnd_brackets _)), (proj2 (trimStart_brackets _)),
            (proj2 (collapse_brackets _ _)).
    apply stripTags_no_tag.
  - intros Hlt. by rewrite stripTags_no_lt.
Qed.

Lemma stripHtml_no_tag_witness :
  containsChar "&" "<p>Fix  the <b>login</b> page</p>" = false
  /\ stripHtml (Some "<p>Fix  the <b>login</b> page</p>") = "Fix the login page"
  /\ hasTag (stripHtml (Some "<p>Fix  the <b>login</b> page</p>")) = false.
Proof.
  assert (containsChar "&" "<p>Fix  the <b>login</b> page</p>" = false) as H
    by reflexivity.
  split; [exact H|]. split; [vm_compute; reflexivity|].
  exact (proj1 (stripHtml_no_tag _ H)).
Defined.

End PlaneClientProofs.

(** * Properties of the import of a description *)

Module ImportFromAsanaProofs.
Import Matching MoreInputs MatchingProofs MatchingMore PlaneClient PlaneClientProofs
       ImportFromAsana.

Lemma nl_space : isSpace nl = true.
Proof. reflexivity. Qed.

Lemma append_nil_l (s : string) : "" +:+ s = s.
Proof. reflexivity. Qed.

Lemma append_cons c (a b : string) : String c a +:+ b = String c (a +:+ b).
Proof. reflexivity. Qed.

(** Push the appends inwards, past the code units in front of them. *)
Ltac push_app := repeat rewrite append_cons; repeat rewrite append_nil_l.

Lemma append_assoc (a b c : string) : (a +:+ b) +:+ c = a +:+ (b +:+ c).
Proof. induction a as [|x a IH]; push_app; [done|]. by rewrite IH. Qed.

Lemma contains_app x a b :
  containsChar x (a +:+ b) = containsChar x a || containsChar x b.
Proof.
  induction a as [|c a IH]; push_app; [done|].
  cbn [containsChar]. by rewrite IH, orb_assoc.
Qed.

(** A tag of the text written by [textToHtml] is removed whole. *)
Lemma stripTags_tag (tag rest : string) :
  containsChar ">" tag = false ->
  stripTags false (String "<" (tag +:+ String ">" rest))
  = String " " (stripTags false rest).
Proof.
  intros Htag. cbn [stripTags].
  rewrite (proj2 (Ascii.eqb_eq "<" "<") eq_refl), contains_app.
  cbn [containsChar]. rewrite (proj2 (Ascii.eqb_eq ">" ">") eq_refl), orb_true_r.
  cbn [andb]. f_equal.
  induction tag as [|c r IH]; push_app; cbn [stripTags].
  - by rewrite (proj2 (Ascii.eqb_eq ">" ">") eq_refl).
  - cbn [containsChar] in Htag. apply orb_false_iff in Htag as [-> Hr]. by apply IH.
Qed.

Lemma stripTags_para p rest :
  containsChar "<" p = false ->
  stripTags false (withBr p +:+ "</p>" +:+ rest)
  = unbroken p +:+ " " +:+ stripTags false rest.
Proof.
  induction p as [|c r IH]; intros Hp; cbn [withBr unbroken].
  - exact (stripTags_tag "/p" rest eq_refl).
  - cbn [containsChar] in Hp. apply orb_false_iff in Hp as [Hc Hr].
    destruct (Ascii.eqb c nl) eqn:En.
    + etrans; [exact (stripTags_tag "br" (withBr r +:+ "</p>" +:+ rest) eq_refl)|].
      by rewrite IH.
    + change (stripTags false (String c (withBr r +:+ "</p>" +:+ rest))
              = String c (unbroken r +:+ " " +:+ stripTags false rest)).
      cbn [stripTags]. rewrite Hc. cbn [andb]. by rewrite IH.
Qed.

Lemma stripTags_paras ps :
  Forall (fun p => containsChar "<" p = false) ps ->
  stripTags false (join (List.map (fun para => "<p>" +:+ withBr para +:+ "</p>") ps))
  = join (List.map (fun p => " " +:+ unbroken p +:+ " ") ps).
Proof.
  induction 1 as [|p ps Hp Hps IH]; [done|].
  cbn [List.map]. unfold join in *. cbn [fold_right].
  rewrite !append_assoc.
  match goal with
  | |- stripTags false (_ +:+ _ +:+ _ +:+ ?rest) = _ =>
      etrans; [exact (stripTags_tag "p" (withBr p +:+ "</p>" +:+ rest) eq_refl)|]
  end.
  rewrite stripTags_para by done. by rewrite IH.
Qed.

Lemma splitParas_nonempty b s : splitParas b s <> [].
Proof.
  revert b. induction s as [|c r IH]; intros b; cbn [splitParas]; [done|].
  destruct b.
  - destruct (Ascii.eqb c nl); [apply IH|].
    specialize (IH false). by destruct (splitParas false r).
  - destruct (Ascii.eqb c nl && startsWithNl r); [done|].
    specialize (IH false). by destruct (splitParas false r).
Qed.

Lemma splitParas_chars x b s :
  containsChar x s = false ->
  Forall (fun p => containsChar x p = false) (splitParas b s).
Proof.
  revert b. induction s as [|c r IH]; intros b; cbn [splitParas containsChar].
  { intros _. by repeat constructor. }
  intros [Hc Hr]%orb_false_iff.
  assert (Forall (fun p => containsChar x p = false)
            (consHead c (splitParas false r))) as Hcons.
  { specialize (IH false Hr). destruct (splitParas false r) as [|p ps];
      cbn [consHead].
    - repeat constructor. cbn [containsChar]. by rewrite Hc.
    - apply Forall_cons in IH as [Hp Hps]. constructor; [|done].
      cbn [containsChar]. by rewrite Hc, Hp. }
  destruct b.
  - destruct (Ascii.eqb c nl); [by apply IH|done].
  - destruct (Ascii.eqb c nl && startsWithNl r); [|done].
    constructor; [done|by apply IH].
Qed.

Lemma blanked_split b s :
  join (List.map (fun p => " " +:+ unbroken p +:+ " ") (splitParas b s))
  = String " " (blanked b s).
Proof.
  revert b. induction s as [|c r IH]; intros b; [done|].
  assert (join (List.map (fun p => " " +:+ unbroken p +:+ " ")
                         (consHead c (splitParas false r)))
          = String " " (String (if Ascii.eqb c nl then " "%char else c)
                               (blanked false r))) as Hcons.
  { specialize (IH false). pose proof (splitParas_nonempty false r) as Hne.
    destruct (splitParas false r) as [|p ps]; [done|].
    cbn [consHead List.map] in *. unfold join in *. cbn [fold_right unbroken] in *.
    revert IH. push_app. intros [= IH]. push_app. by rewrite IH. }
  cbn [splitParas blanked]. destruct b.
  - destruct (Ascii.eqb c nl) eqn:En; [apply IH|].
    by rewrite Hcons.
  - destruct (Ascii.eqb c nl && startsWithNl r); [|done].
    cbn [List.map]. unfold join in *. cbn [fold_right unbroken]. push_app.
    by rewrite IH.
Qed.

Lemma collapse_blanked s :
  (forall k, collapseSpaces k (blanked false s) = collapseSpaces k (s +:+ " "))
  /\ collapseSpaces true (blanked true s) = collapseSpaces true (s +:+ " ").
Proof.
  induction s as [|c r [IHf IHt]]; [done|].
  split.
  - intros k. cbn [blanked]. push_app.
    destruct (Ascii.eqb c nl) eqn:En.
    + apply Ascii.eqb_eq in En as ->.
      destruct (startsWithNl r); cbn [andb collapseSpaces];
        rewrite nl_space; change (isSpace " ") with true; cbn iota.
      * destruct k; by rewrite IHt.
      * destruct k; by rewrite IHf.
    + cbn [andb collapseSpaces]. destruct (isSpace c); [destruct k|]; by rewrite IHf.
  - cbn [blanked]. push_app. destruct (Ascii.eqb c nl) eqn:En.
    + apply Ascii.eqb_eq in En as ->. cbn [collapseSpaces]. by rewrite nl_space.
    + cbn [collapseSpaces]. destruct (isSpace c); by rewrite IHf.
Qed.

Lemma collapse_start s :
  trimStart (collapseSpaces true s) = trimStart (collapseSpaces false s).
Proof.
  destruct s as [|c r]; [done|]. cbn [collapseSpaces].
  destruct (isSpace c); [|done]. cbn [trimStart]. by change (isSpace " ") with true.
Qed.

Lemma collapse_app_blank k s :
  collapseSpaces k (s +:+ " ") = collapseSpaces k s
  \/ collapseSpaces k (s +:+ " ") = collapseSpaces k s +:+ " ".
Proof.
  revert k. induction s as [|c r IH]; intros k; push_app; cbn [collapseSpaces].
  - change (isSpace " ") with true. cbn iota. destruct k; [by left|by right].
  - destruct (isSpace c).
    + destruct k.
      * apply IH.
      * destruct (IH true) as [->| ->]; [by left|by right].
    + destruct (IH false) as [->| ->]; [by left|by right].
Qed.

Lemma trimEnd_app_blank s : trimEnd (s +:+ " ") = trimEnd s.
Proof.
  induction s as [|c r IH]; [done|].
  push_app. cbn [trimEnd]. by rewrite IH.
Qed.

Lemma trim_app_blank s : trim (s +:+ " ") = trim s.
Proof.
  unfold trim. induction s as [|c r IH]; [done|].
  push_app. cbn [trimStart]. destruct (isSpace c); [done|].
  apply (trimEnd_app_blank (String c r)).
Qed.

Lemma unbroken_chars x p :
  x <> " "%char -> containsChar x p = false -> containsChar x (unbroken p) = false.
Proof.
  intros Hx. induction p as [|c r IH]; [done|]. cbn [containsChar unbroken].
  intros [Hc Hr]%orb_false_iff. rewrite IH by done.
  destruct (Ascii.eqb c nl); [|by rewrite Hc].
  rewrite orb_false_r. apply Ascii.eqb_neq. congruence.
Qed.

Lemma unbroken_paras x ps :
  x <> " "%char -> Forall (fun p => containsChar x p = false) ps ->
  containsChar x (join (List.map (fun p => " " +:+ unbroken p +:+ " ") ps)) = false.
Proof.
  intros Hx. induction 1 as [|p ps Hp Hps IH]; [done|].
  cbn [List.map]. unfold join in *. cbn [fold_right].
  rewrite !contains_app, IH, orb_false_r, (unbroken_chars x p) by done.
  cbn [containsChar]. rewrite !orb_false_r.
  assert (Ascii.eqb " " x = false) as -> by (apply Ascii.eqb_neq; congruence).
  done.
Qed.

(** X24.  Round trip of a description through the import.  For a text
    without "<" and "&", the plain text that [stripHtml] reads from the HTML
    that [textToHtml] writes is the text itself with its white space
    collapsed and trimmed: the paragraph and line-break tags leave nothing
    behind, and no word is lost or joined to its neighbour. *)
Theorem stripHtml_textToHtml (text : string) :
  containsChar "<" text = false ->
  containsChar "&" text = false ->
  stripHtml (textToHtml (Some text)) = trim (collapseSpaces false text).
Proof.
  intros Hlt Hamp. unfold textToHtml.
  destruct (truthy (Some text)) eqn:Et; cbn [negb default from_option id].
  2:{ by destruct text. }
  set (html := join _).
  pose proof (stripTags_paras _ (splitParas_chars "<" false text Hlt)) as Hstrip.
  fold html in Hstrip. rewrite blanked_split in Hstrip.
  assert (truthy (Some html) = true) as Hhtml.
  { subst html. pose proof (splitParas_nonempty false text) as Hne.
    destruct (splitParas false text) as [|p ps]; [done|].
    cbn [List.map]. unfold join. cbn [fold_right]. by push_app. }
  unfold stripHtml. rewrite Hhtml. cbn [negb default from_option id]. rewrite Hstrip.
  assert (containsChar "&" (String " " (blanked false text)) = false) as Hamp'.
  { rewrite <- blanked_split. apply unbroken_paras; [done|].
    by apply splitParas_chars. }
  rewrite (replaceAll_absent "&" "nbsp;" " " _ Hamp').
  rewrite (replaceAll_absent "&" "amp;" "&" _ Hamp').
  rewrite (replaceAll_absent "&" "lt;" "<" _ Hamp').
  rewrite (replaceAll_absent "&" "gt;" ">" _ Hamp').
  rewrite (replaceAll_absent "&" "quot;" quote _ Hamp').
  cbn [collapseSpaces]. change (isSpace " ") with true. cbn iota.
  rewrite (proj1 (collapse_blanked text)).
  unfold trim. cbn [trimStart]. change (isSpace " ") with true. cbn iota.
  rewrite collapse_start. fold (trim (collapseSpaces false (text +:+ " "))).
  destruct (collapse_app_blank false text) as [->| ->]; [done|].
  apply trim_app_blank.
Qed.

Lemma stripHtml_textToHtml_witness :
  let text := String.concat (String nl "")
                ["Fix  the"; "login page"; ""; "then ship"] in
  containsChar "<" text = false
  /\ containsChar "&" text = false
  /\ textToHtml (Some text) = Some "<p>Fix  the<br>login page</p><p>then ship</p>"
  /\ stripHtml (textToHtml (Some text)) = "Fix the login page then ship".
Proof.
  cbv zeta.
  set (text := String.concat (String nl "")
                 ["Fix  the"; "login page"; ""; "then ship"]).
  assert (containsChar "<" text = false) as H1 by reflexivity.
  assert (containsChar "&" text = false) as H2 by reflexivity.
  split; [exact H1|]. split; [exact H2|]. split; [vm_compute; reflexivity|].
  rewrite (stripHtml_textToHtml text H1 H2). vm_compute. reflexivity.
Defined.

End ImportFromAsanaProofs.
